(** * research-paper-summarizer: the results page and the chat panel

    A shallow embedding of the client-side logic of the repository:

    - [frontend/app/results/[jobId]/page.tsx]: the [ResultsPage] component,
      its status poll ([fetchData]), its two [setInterval] timers and its
      three screens;
    - [frontend/components/ModelFile.tsx]: the [ModelFile] card and the
      [ChatPanel] component ([sendMessage], [fetchChatHistory], the resize
      handlers);
    - the [ArchitectureDeepDive] card;
    - [renderMessageContent], the message renderer of the chat panel, and
      the JSX of the panel;
    - the earlier [ResultsPage], which fetched the status once.

    React state is a record, an effect closure is a record next to it, every
    handler is a function from world to world, and the browser (timers,
    settling fetches, user input) is a type of events that [fire] applies when
    the event can occur. *)

From Stdlib Require Import ZArith QArith Qround String Ascii List Bool Lia DecimalString.
From stdpp Require Import base list strings.

Open Scope Z_scope.
#[local] Set Warnings "-register-all".

(** ** JavaScript values

    The status response is typed [any] in the source, so it is modelled as
    an untyped JSON value.  Numbers are restricted to integers: the page only
    tests them for truthiness and interpolates them into template strings.
    Strings are sequences of code units below 256. *)
Module JS.

Inductive jsval : Type :=
| JUndefined
| JNull
| JBool (b : bool)
| JNum (n : Z)
| JStr (s : string)
| JArr (items : list jsval)
| JObj (fields : list (string * jsval)).

(** Own property of an object literal; a missing key reads [undefined]. *)
Fixpoint own (k : string) (fields : list (string * jsval)) : jsval :=
  match fields with
  | [] => JUndefined
  | (k', v) :: rest => if String.eqb k k' then v else own k rest
  end.

(** [v.k] for a named key [k]: reading a property of [undefined] or [null]
    throws a [TypeError] ([None]); a primitive or an array has no named
    property but [length]. *)
Definition prop (v : jsval) (k : string) : option jsval :=
  match v with
  | JUndefined | JNull => None
  | JObj fields => Some (own k fields)
  | JArr items =>
      Some (if String.eqb k "length" then JNum (Z.of_nat (length items)) else JUndefined)
  | JStr s =>
      Some (if String.eqb k "length" then JNum (Z.of_nat (String.length s)) else JUndefined)
  | JBool _ | JNum _ => Some JUndefined
  end.

(** ToBoolean. *)
Definition truthy (v : jsval) : bool :=
  match v with
  | JUndefined | JNull => false
  | JBool b => b
  | JNum n => negb (n =? 0)
  | JStr s => negb (String.eqb s "")
  | JArr _ | JObj _ => true
  end.

(** [a || b]. *)
Definition js_or (a b : jsval) : jsval := if truthy a then a else b.

(** [v === 'lit'] for a string literal. *)
Definition is_str (v : jsval) (lit : string) : bool :=
  match v with
  | JStr s => String.eqb s lit
  | _ => false
  end.

(** ToString, as a template literal applies it. *)
Fixpoint to_string (v : jsval) : string :=
  match v with
  | JUndefined => "undefined"
  | JNull => "null"
  | JBool true => "true"
  | JBool false => "false"
  | JNum n => NilZero.string_of_int (Z.to_int n)
  | JStr s => s
  | JArr items =>
      (fix join (l : list jsval) : string :=
         match l with
         | [] => ""
         | x :: rest =>
             let here := match x with
                         | JUndefined | JNull => ""
                         | _ => to_string x
                         end in
             match rest with
             | [] => here
             | _ :: _ => here +:+ "," +:+ join rest
             end
         end) items
  | JObj _ => "[object Object]"
  end.

(** ECMAScript white space and line terminators among the code units
    below 256: TAB, LF, VT, FF, CR, SP and NBSP. *)
Definition is_whitespace (c : ascii) : bool :=
  let n := nat_of_ascii c in
  ((9 <=? n) && (n <=? 13) || (n =? 32) || (n =? 160))%nat.

Fixpoint trimStart (s : string) : string :=
  match s with
  | EmptyString => EmptyString
  | String c rest => if is_whitespace c then trimStart rest else s
  end.

Fixpoint string_rev (s : string) : string :=
  match s with
  | EmptyString => EmptyString
  | String c rest => string_rev rest +:+ String c EmptyString
  end.

Definition trimEnd (s : string) : string := string_rev (trimStart (string_rev s)).

(** [s.trim()]. *)
Definition trim (s : string) : string := trimEnd (trimStart s).

(** Every code unit of [s] is white space. *)
Fixpoint blank (s : string) : bool :=
  match s with
  | EmptyString => true
  | String c rest => is_whitespace c && blank rest
  end.

End JS.
Import JS.

(** ** The network

    A request as [fetch] is called with it; an outcome as the awaiting code
    sees it. *)
Module Net.

Inductive Method := GET | POST.

Record Request := {
  method : Method;
  url : string;
  body : option jsval   (* the value handed to JSON.stringify *)
}.

(** What [await fetch(..)] followed by [await response.json()] yields:
    [fetch] rejects, or there is a response with its [ok] flag, its HTTP
    status and its parsed body ([None] when the body is not JSON).  [A] is
    the type the caller reads the parsed body at. *)
Inductive FetchOutcome (A : Type) :=
| Rejected
| Responded (ok : bool) (httpStatus : Z) (json : option A).
Arguments Rejected {A}.
Arguments Responded {A} ok httpStatus json.

Definition status_url (jobId : string) : string :=
  "http://localhost:8000/api/status/" +:+ jobId.

Definition chat_url (jobId : string) : string :=
  "http://localhost:8000/api/jobs/" +:+ jobId +:+ "/chat".

End Net.
Import Net.

(** ** Components mounted by pages

    An element is a component of the repository applied to its props. *)
Inductive Element :=
| KeyConcepts (data : jsval)
| ProblemStatement (data : jsval)
| FullExplanation (data : jsval)
| PseudoCode (data : jsval)
| ArchitectureDeepDive (data : jsval)
| ModelFile (code : string).

Definition is_architecture (e : Element) : bool :=
  match e with ArchitectureDeepDive _ => true | _ => false end.

Definition is_model_file (e : Element) : bool :=
  match e with ModelFile _ => true | _ => false end.

(** ** The results page *)
Module ResultsPage.

(** The five [useState] cells. *)
Record ViewState := {
  loading : bool;
  data : jsval;
  error : option string;
  progress : Z;
  statusMessage : string
}.

Definition initial_view : ViewState :=
  {| loading := true; data := JNull; error := None; progress := 0;
     statusMessage := "Initializing analysis..." |}.

(** An interval timer: when it fires next, and the delay [setInterval]
    was given. *)
Record Timer := { due : Z; delay : Z }.

Definition setInterval (now d : Z) : Timer := {| due := now + d; delay := d |}.

Definition rearm (t : Timer) : Timer := {| due := due t + delay t; delay := delay t |}.

(** One run of the component: its state cells ([None] once the component is
    unmounted and the cells are gone), the variables of the effect closure,
    and the browser around it. *)
Record World := {
  ui : option ViewState;
  jobId : string;
  progressCounter : Z;
  pollingInterval : option Timer;
  progressInterval : option Timer;
  now : Z;
  requests : list (Z * Request);   (* time of the call and request, newest first *)
  inflight : nat
}.

Definition with_ui (f : ViewState -> ViewState) (w : World) : World :=
  {| ui := f <$> ui w; jobId := jobId w; progressCounter := progressCounter w;
     pollingInterval := pollingInterval w; progressInterval := progressInterval w;
     now := now w; requests := requests w; inflight := inflight w |}.

Definition setData (d : jsval) : World -> World :=
  with_ui (fun v => {| loading := loading v; data := d; error := error v;
                       progress := progress v; statusMessage := statusMessage v |}).

Definition setLoading (b : bool) : World -> World :=
  with_ui (fun v => {| loading := b; data := data v; error := error v;
                       progress := progress v; statusMessage := statusMessage v |}).

Definition setError (e : string) : World -> World :=
  with_ui (fun v => {| loading := loading v; data := data v; error := Some e;
                       progress := progress v; statusMessage := statusMessage v |}).

Definition setProgress (p : Z) : World -> World :=
  with_ui (fun v => {| loading := loading v; data := data v; error := error v;
                       progress := p; statusMessage := statusMessage v |}).

Definition setStatusMessage (m : string) : World -> World :=
  with_ui (fun v => {| loading := loading v; data := data v; error := error v;
                       progress := progress v; statusMessage := m |}).

Definition set_progressCounter (c : Z) (w : World) : World :=
  {| ui := ui w; jobId := jobId w; progressCounter := c;
     pollingInterval := pollingInterval w; progressInterval := progressInterval w;
     now := now w; requests := requests w; inflight := inflight w |}.

Definition set_pollingInterval (t : option Timer) (w : World) : World :=
  {| ui := ui w; jobId := jobId w; progressCounter := progressCounter w;
     pollingInterval := t; progressInterval := progressInterval w;
     now := now w; requests := requests w; inflight := inflight w |}.

Definition set_progressInterval (t : option Timer) (w : World) : World :=
  {| ui := ui w; jobId := jobId w; progressCounter := progressCounter w;
     pollingInterval := pollingInterval w; progressInterval := t;
     now := now w; requests := requests w; inflight := inflight w |}.

Definition set_now (t : Z) (w : World) : World :=
  {| ui := ui w; jobId := jobId w; progressCounter := progressCounter w;
     pollingInterval := pollingInterval w; progressInterval := progressInterval w;
     now := t; requests := requests w; inflight := inflight w |}.

Definition set_inflight (n : nat) (w : World) : World :=
  {| ui := ui w; jobId := jobId w; progressCounter := progressCounter w;
     pollingInterval := pollingInterval w; progressInterval := progressInterval w;
     now := now w; requests := requests w; inflight := n |}.

(** [clearInterval(pollingInterval)]. *)
Definition clearPolling : World -> World := set_pollingInterval None.

(** [fetchData], up to its first [await]: the request leaves. *)
Definition fetchData_call (w : World) : World :=
  {| ui := ui w; jobId := jobId w; progressCounter := progressCounter w;
     pollingInterval := pollingInterval w; progressInterval := progressInterval w;
     now := now w;
     requests := (now w, {| method := GET; url := status_url (jobId w);
                            body := None |}) :: requests w;
     inflight := S (inflight w) |}.

Definition connect_error : string :=
  "Failed to connect to analysis server. Please try again later.".

(** The [catch] block of [fetchData]. *)
Definition fetchData_catch (w : World) : World :=
  clearPolling (setLoading false (setError connect_error w)).

(** [Math.floor(Math.random() * 5) + 1], for the sample [u] that
    [Math.random()] returned. *)
Definition random_step (u : Q) : Z := Qfloor (u * 5) + 1.

(** The [try] block of [fetchData] after the fetch has settled; [None] is a
    thrown exception.  Nothing is written before the last point that can
    throw. *)
Definition fetchData_try (o : FetchOutcome jsval) (u : Q) (w : World) : option World :=
  match o with
  | Rejected => None
  | Responded ok _ json =>
      if negb ok then None
      else
        responseData ← json;
        status ← prop responseData "status";
        if is_str status "completed" then
          Some (clearPolling (setLoading false (setData responseData w)))
        else if is_str status "in_progress" then
          filename ← prop responseData "filename";
          let w := setStatusMessage
                     ("Analyzing paper: " +:+ to_string (js_or filename (JStr "your document"))) w in
          if progressCounter w <? 90 then
            let w := set_progressCounter (progressCounter w + random_step u) w in
            Some (setProgress (Z.min (progressCounter w) 90) w)
          else Some w
        else if is_str status "failed" then
          err ← prop responseData "error";
          Some (clearPolling (setLoading false
                  (setError ("Analysis failed: " +:+ to_string (js_or err (JStr "Unknown error"))) w)))
        else Some w
  end.

(** [fetchData] from the moment its fetch settles. *)
Definition fetchData_settle (o : FetchOutcome jsval) (u : Q) (w : World) : World :=
  default (fetchData_catch w) (fetchData_try o u w).

(** The callback of the progress timer. *)
Definition progress_tick (w : World) : World :=
  if progressCounter w <? 90 then
    let w := set_progressCounter (progressCounter w + 1) w in
    setProgress (progressCounter w) w
  else w.

(** The function the effect returns. *)
Definition cleanup (w : World) : World :=
  set_progressInterval None (set_pollingInterval None w).

(** First render and first run of the effect, at time [t0]. *)
Definition mount (job : string) (t0 : Z) : World :=
  let w := {| ui := Some initial_view; jobId := job; progressCounter := 0;
              pollingInterval := None; progressInterval := None;
              now := t0; requests := []; inflight := 0 |} in
  let w := fetchData_call w in
  let w := set_pollingInterval (Some (setInterval (now w) 3000)) w in
  set_progressInterval (Some (setInterval (now w) 500)) w.

(** Unmounting runs the cleanup and drops the state cells; a later
    [setState] of a settling fetch finds nothing to update. *)
Definition unmount (w : World) : World :=
  let w := cleanup w in
  {| ui := None; jobId := jobId w; progressCounter := progressCounter w;
     pollingInterval := pollingInterval w; progressInterval := progressInterval w;
     now := now w; requests := requests w; inflight := inflight w |}.

(** *** What the page shows *)
Inductive Rendered :=
| LoadingScreen (job : string) (message : string) (barPercent : Z)
| NotFoundScreen
| AnalysisScreen (title authors : jsval) (panels : list Element)
| RenderError.

(** The part of the render function below the [loading] test; [None] is a
    [TypeError] thrown while rendering. *)
Definition render_loaded (v : ViewState) : option Rendered :=
  if negb (truthy (data v)) then Some NotFoundScreen
  else
    result ← prop (data v) "result";
    if negb (truthy result) then Some NotFoundScreen
    else
      metadata ← prop result "metadata";
      key_concepts ← prop result "key_concepts";
      problem_statement ← prop result "problem_statement";
      full_explanation ← prop result "full_explanation";
      pseudo_code ← prop result "pseudo_code";
      title ← prop metadata "title";
      authors ← prop metadata "authors";
      Some (AnalysisScreen title authors
              [KeyConcepts key_concepts; ProblemStatement problem_statement;
               FullExplanation full_explanation; PseudoCode pseudo_code]).

Definition render_view (job : string) (v : ViewState) : Rendered :=
  if loading v then LoadingScreen job (statusMessage v) (progress v)
  else default RenderError (render_loaded v).

Definition render (w : World) : option Rendered := render_view (jobId w) <$> ui w.



(** *** The browser's events *)
Inductive Event :=
| Elapse (dt : Z)
| PollTimer
| ProgressTimer
| Settle (o : FetchOutcome jsval) (u : Q)
| Unmount.

Definition not_before (t : Z) (timer : option Timer) : bool :=
  match timer with
  | Some tm => t <=? due tm
  | None => true
  end.

Definition is_due (t : Z) (timer : option Timer) : bool :=
  match timer with
  | Some tm => due tm =? t
  | None => false
  end.

(** [fire e w] is the world after [e], when [e] can occur in [w]:
    time passes up to the next timer that is due; a timer fires when it is
    due; a fetch settles when one is in flight, with a sample of
    [Math.random()] in [0, 1); a mounted component can be unmounted. *)
Definition fire (e : Event) (w : World) : option World :=
  match e with
  | Elapse dt =>
      if (0 <? dt) && not_before (now w + dt) (pollingInterval w)
                   && not_before (now w + dt) (progressInterval w)
      then Some (set_now (now w + dt) w) else None
  | PollTimer =>
      if is_due (now w) (pollingInterval w)
      then Some (fetchData_call (set_pollingInterval (rearm <$> pollingInterval w) w))
      else None
  | ProgressTimer =>
      if is_due (now w) (progressInterval w)
      then Some (progress_tick (set_progressInterval (rearm <$> progressInterval w) w))
      else None
  | Settle o u =>
      match inflight w with
      | O => None
      | S n =>
          if Qle_bool 0 u && negb (Qle_bool 1 u)
          then Some (fetchData_settle o u (set_inflight n w)) else None
      end
  | Unmount =>
      match ui w with
      | Some _ => Some (unmount w)
      | None => None
      end
  end.

Fixpoint run (es : list Event) (w : World) : option World :=
  match es with
  | [] => Some w
  | e :: rest => w' ← fire e w; run rest w'
  end.

(** *** Vocabulary of the statements *)

(** [!data || !data.result] is false. *)
Definition has_result (d : jsval) : bool :=
  truthy d && match prop d "result" with
              | Some result => truthy result
              | None => false
              end.

(** The parsed body says [status]. *)
Definition says (responseData : jsval) (status : string) : bool :=
  match prop responseData "status" with
  | Some st => is_str st status
  | None => false
  end.

(** A status fetch that failed (the fetch rejected, the response is not
    [ok], or its body cannot be read as a job record), or whose job record
    says ['failed']. *)
Definition failed_outcome (o : FetchOutcome jsval) : bool :=
  match o with
  | Rejected => true
  | Responded false _ _ => true
  | Responded true _ None => true
  | Responded true _ (Some responseData) =>
      match prop responseData "status" with
      | None => true
      | Some status => is_str status "failed"
      end
  end.

(** The message [setError] is called with for a failed outcome. *)
Definition failure_message (o : FetchOutcome jsval) : string :=
  match o with
  | Responded true _ (Some responseData) =>
      match prop responseData "status", prop responseData "error" with
      | Some _, Some err =>
          "Analysis failed: " +:+ to_string (js_or err (JStr "Unknown error"))
      | _, _ => connect_error
      end
  | _ => connect_error
  end.


(** [GET /api/status/{jobId}] at the origin the client assumes, spelled
    out. *)
Definition status_request (job : string) : Request :=
  {| method := GET; url := "http://localhost:8000/api/status/" +:+ job; body := None |}.

(** The log of [n] status requests, newest first, the first sent at [t0]
    and each next one 3000 ms after the one before. *)
Fixpoint poll_log (job : string) (t0 : Z) (n : nat) : list (Z * Request) :=
  match n with
  | O => []
  | S k => (t0 + 3000 * Z.of_nat k, status_request job) :: poll_log job t0 k
  end.

(** The progress cell shows the counter, capped at 90. *)
Definition progress_follows_counter (w : World) : Prop :=
  forall v, ui w = Some v -> progress v = Z.min (progressCounter w) 90.

(** The requests sent so far are the polls of a run mounted at [t0], and the
    polling timer, while set, has its delay of 3000 ms and is due 3000 ms
    after the newest request. *)
Definition polls_on_schedule (job : string) (t0 : Z) (w : World) : Prop :=
  jobId w = job /\
  exists n : nat,
    (1 <= n)%nat /\ requests w = poll_log job t0 n /\
    forall tm, pollingInterval w = Some tm ->
               delay tm = 3000 /\ due tm = t0 + 3000 * Z.of_nat n /\ now w <= due tm.

Definition is_timer (e : Event) : bool :=
  match e with
  | PollTimer | ProgressTimer => true
  | _ => false
  end.

(** *** Sample job records *)

Definition sample_result : jsval :=
  JObj [("metadata", JObj [("title", JStr "Attention Is All You Need");
                           ("authors", JStr "Vaswani et al.")]);
        ("key_concepts", JArr [JStr "self-attention"; JStr "multi-head attention"]);
        ("problem_statement", JStr "Sequence transduction without recurrence.");
        ("full_explanation", JStr "The model stacks attention and feed-forward layers.");
        ("pseudo_code", JStr "for layer in layers: x = layer(x)");
        ("architecture_deep_dive",
         JObj [("detailed_breakdown", JArr [JObj [("component_name", JStr "Encoder")]])]);
        ("model_file", JStr "import torch")].

Definition sample_completed : jsval :=
  JObj [("id", JStr "job-1"); ("status", JStr "completed"); ("progress", JNum 100);
        ("result", sample_result)].

Definition sample_completed_bare : jsval :=
  JObj [("id", JStr "job-1"); ("status", JStr "completed"); ("progress", JNum 100)].

Definition sample_in_progress : jsval :=
  JObj [("id", JStr "job-1"); ("status", JStr "in_progress"); ("progress", JNum 50)].


Definition ok_json (d : jsval) : FetchOutcome jsval := Responded true 200 (Some d).

(** The world after the events [es], when they can occur in turn. *)
Definition after (es : list Event) (w : World) : World := default w (run es w).

(** Three seconds in which nothing happens but the timers: six ticks of the
    progress timer, the last one together with the polling timer. *)
Definition quiet_three_seconds : list Event :=
  [Elapse 500; ProgressTimer; Elapse 500; ProgressTimer; Elapse 500; ProgressTimer;
   Elapse 500; ProgressTimer; Elapse 500; ProgressTimer; Elapse 500; ProgressTimer;
   PollTimer].

(** 44.5 seconds without an answer, the counter at 89, and then the first
    poll answers "in progress" with the largest random step. *)
Definition slow_run : list Event :=
  concat (replicate 14 quiet_three_seconds)
  ++ [Elapse 500; ProgressTimer; Elapse 500; ProgressTimer; Elapse 500; ProgressTimer;
      Elapse 500; ProgressTimer; Elapse 500; ProgressTimer]
  ++ [Settle (Responded true 200 (Some (JObj [("status", JStr "in_progress")]))) (9 # 10)].

(** The first three seconds of a run: the first poll answers "in progress",
    the progress timer ticks five times, then the polling timer fires. *)
Definition sample_run : list Event :=
  [Elapse 500; ProgressTimer; Settle (ok_json sample_in_progress) (1 # 2);
   Elapse 500; ProgressTimer; Elapse 500; ProgressTimer; Elapse 500; ProgressTimer;
   Elapse 500; ProgressTimer; Elapse 500; PollTimer].

End ResultsPage.

(** ** The model-file card *)
Module Cards.

Inductive ModelFileCard :=
| NoModelCode                       (* "No model.py code was generated." *)
| ModelCode (code : string).        (* the download button and the listing *)

(** [ModelFile({ code })]. *)
Definition ModelFile_render (code : string) : ModelFileCard :=
  if String.eqb code "" || (String.length (trim code) =? 0)%nat
  then NoModelCode else ModelCode code.

(** [handleDownload]: the name and the content of the file offered. *)
Definition handleDownload (code : string) : string * string :=
  ("model.py", code).

End Cards.

(** ** The chat panel *)
Module ChatPanel.

Record ChatMessage := {
  timestamp : string;
  query : string;
  response : string
}.

(** The parsed body of [GET /api/jobs/{jobId}/chat] as [fetchChatHistory]
    reads it: JSON [null], or an object whose [chat_history] is absent
    (or [null]) or a list of messages, as the [ChatMessage[]] cell is
    typed. *)
Inductive ChatLog :=
| NullLog
| Log (chat_history : option (list ChatMessage)).

(** The [useState] cells. *)
Record PanelState := {
  isOpen : bool;
  chatHistory : list ChatMessage;
  message : string;
  isLoading : bool;
  panelWidth : Z;
  isResizing : bool
}.

Definition minWidth : Z := 320.
Definition maxWidth : Z := 1200.

Record World := {
  st : PanelState;
  jobId : string;
  requests : list Request;   (* newest first *)
  posts : nat;               (* POSTs in flight *)
  gets : nat                 (* GETs in flight *)
}.

Definition initial_state : PanelState :=
  {| isOpen := false; chatHistory := []; message := ""; isLoading := false;
     panelWidth := 384; isResizing := false |}.

Definition mount (job : string) : World :=
  {| st := initial_state; jobId := job; requests := []; posts := 0; gets := 0 |}.

Definition with_st (f : PanelState -> PanelState) (w : World) : World :=
  {| st := f (st w); jobId := jobId w; requests := requests w;
     posts := posts w; gets := gets w |}.

Definition setIsOpen (b : bool) : World -> World :=
  with_st (fun s => {| isOpen := b; chatHistory := chatHistory s; message := message s;
                       isLoading := isLoading s; panelWidth := panelWidth s;
                       isResizing := isResizing s |}).

(** [setChatHistory] with an updater function, as every call but one is
    written. *)
Definition setChatHistory (f : list ChatMessage -> list ChatMessage) : World -> World :=
  with_st (fun s => {| isOpen := isOpen s; chatHistory := f (chatHistory s);
                       message := message s; isLoading := isLoading s;
                       panelWidth := panelWidth s; isResizing := isResizing s |}).

Definition setMessage (m : string) : World -> World :=
  with_st (fun s => {| isOpen := isOpen s; chatHistory := chatHistory s; message := m;
                       isLoading := isLoading s; panelWidth := panelWidth s;
                       isResizing := isResizing s |}).

Definition setIsLoading (b : bool) : World -> World :=
  with_st (fun s => {| isOpen := isOpen s; chatHistory := chatHistory s;
                       message := message s; isLoading := b;
                       panelWidth := panelWidth s; isResizing := isResizing s |}).

Definition setPanelWidth (x : Z) : World -> World :=
  with_st (fun s => {| isOpen := isOpen s; chatHistory := chatHistory s;
                       message := message s; isLoading := isLoading s;
                       panelWidth := x; isResizing := isResizing s |}).

Definition setIsResizing (b : bool) : World -> World :=
  with_st (fun s => {| isOpen := isOpen s; chatHistory := chatHistory s;
                       message := message s; isLoading := isLoading s;
                       panelWidth := panelWidth s; isResizing := b |}).

(** A call of [fetch]: the request leaves. *)
Definition send_get (r : Request) (w : World) : World :=
  {| st := st w; jobId := jobId w; requests := r :: requests w;
     posts := posts w; gets := S (gets w) |}.

Definition send_post (r : Request) (w : World) : World :=
  {| st := st w; jobId := jobId w; requests := r :: requests w;
     posts := S (posts w); gets := gets w |}.

(** [fetchChatHistory], up to its first [await]. *)
Definition fetchChatHistory_call (w : World) : World :=
  send_get {| method := GET; url := chat_url (jobId w); body := None |} w.

(** [fetchChatHistory] from the moment its fetch settles; the [catch] block
    only logs. *)
Definition fetchChatHistory_settle (o : FetchOutcome ChatLog) (w : World) : World :=
  match o with
  | Responded true _ (Some (Log chat_history)) =>
      setChatHistory (fun _ => default [] chat_history) w
  | _ => w
  end.

Definition apology : string :=
  "Sorry, there was an error processing your request. Please try again.".

(** The updater of the [catch] block of [sendMessage]. *)
Definition mark_last_failed (prev : list ChatMessage) : list ChatMessage :=
  let updated := prev in
  let lastIndex := Z.of_nat (length updated) - 1 in
  if 0 <=? lastIndex then
    alter (fun last => {| timestamp := timestamp last; query := query last;
                          response := apology |})
          (Z.to_nat lastIndex) updated
  else updated.

(** The request [sendMessage] posts for the text [currentMessage]. *)
Definition chat_post (job currentMessage : string) : Request :=
  {| method := POST; url := chat_url job;
     body := Some (JObj [("message", JStr currentMessage)]) |}.

(** [sendMessage], up to its first [await]; [iso] is what
    [new Date().toISOString()] returns. *)
Definition sendMessage_call (iso : string) (w : World) : World :=
  if String.eqb (trim (message (st w))) "" then w
  else
    let currentMessage := message (st w) in
    let w := setMessage "" w in
    let w := setIsLoading true w in
    let tempChat := {| timestamp := iso; query := currentMessage; response := "" |} in
    let w := setChatHistory (fun prev => prev ++ [tempChat]) w in
    send_post (chat_post (jobId w) currentMessage) w.

(** [sendMessage] from the moment its POST settles, with its [catch] and
    [finally] blocks. *)
Definition sendMessage_settle (o : FetchOutcome unit) (w : World) : World :=
  let w :=
    match o with
    | Responded true _ (Some _) => fetchChatHistory_call w
    | _ => setChatHistory mark_last_failed w
    end in
  setIsLoading false w.

Definition handleKeyDown (key : string) (shiftKey : bool) (iso : string) (w : World) : World :=
  if String.eqb key "Enter" && negb shiftKey then sendMessage_call iso w else w.

(** [togglePanel], and the effect on [[isOpen, jobId]] that follows the
    render. *)
Definition togglePanel (w : World) : World :=
  let w := setIsOpen (negb (isOpen (st w))) w in
  if isOpen (st w) then fetchChatHistory_call w else w.

Definition startResizing : World -> World := setIsResizing true.

Definition handleMouseMove (innerWidth clientX : Z) (w : World) : World :=
  if negb (isResizing (st w)) then w
  else
    let newWidth := innerWidth - clientX in
    if (minWidth <=? newWidth) && (newWidth <=? maxWidth) then setPanelWidth newWidth w
    else w.

Definition handleMouseUp : World -> World := setIsResizing false.

(** *** The browser's events *)
Inductive Event :=
| ClickToggle
| Input (text : string)
| ClickSend (iso : string)
| KeyDown (key : string) (shiftKey : bool) (iso : string)
| PostSettled (o : FetchOutcome unit)
| GetSettled (o : FetchOutcome ChatLog)
| MouseDownOnHandle
| MouseMove (innerWidth clientX : Z)
| MouseUp.

(** [fire e w]: the toggle can always be clicked; the text area takes input
    and keys unless it is disabled; the send button can be clicked unless it
    is disabled; a request settles when one of its kind is in flight; the
    resize handle exists while the panel is open; the document listeners
    are registered while [isResizing]. *)
Definition fire (e : Event) (w : World) : option World :=
  match e with
  | ClickToggle => Some (togglePanel w)
  | Input text => if isLoading (st w) then None else Some (setMessage text w)
  | ClickSend iso =>
      if isLoading (st w) || String.eqb (trim (message (st w))) "" then None
      else Some (sendMessage_call iso w)
  | KeyDown key shiftKey iso =>
      if isLoading (st w) then None else Some (handleKeyDown key shiftKey iso w)
  | PostSettled o =>
      match posts w with
      | O => None
      | S n => Some (sendMessage_settle o
                       {| st := st w; jobId := jobId w; requests := requests w;
                          posts := n; gets := gets w |})
      end
  | GetSettled o =>
      match gets w with
      | O => None
      | S n => Some (fetchChatHistory_settle o
                       {| st := st w; jobId := jobId w; requests := requests w;
                          posts := posts w; gets := n |})
      end
  | MouseDownOnHandle => if isOpen (st w) then Some (startResizing w) else None
  | MouseMove innerWidth clientX =>
      if isResizing (st w) then Some (handleMouseMove innerWidth clientX w) else None
  | MouseUp => if isResizing (st w) then Some (handleMouseUp w) else None
  end.

Fixpoint run (es : list Event) (w : World) : option World :=
  match es with
  | [] => Some w
  | e :: rest => w' ← fire e w; run rest w'
  end.

(** *** Vocabulary of the statements *)

(** The POST failed: [fetch] rejected, the response is not [ok], or its
    body is not JSON. *)
Definition post_failed (o : FetchOutcome unit) : bool :=
  match o with
  | Responded true _ (Some _) => false
  | _ => true
  end.

(** The GET of the chat history failed. *)
Definition get_failed (o : FetchOutcome ChatLog) : bool :=
  match o with
  | Responded true _ (Some (Log _)) => false
  | _ => true
  end.

(** The last entry with the apology as its response. *)
Definition with_apology (m : ChatMessage) : ChatMessage :=
  {| timestamp := timestamp m; query := query m; response := apology |}.

Definition width_in_bounds (w : World) : Prop :=
  minWidth <= panelWidth (st w) <= maxWidth.

(** The world after the events [es], when they can occur in turn. *)
Definition after (es : list Event) (w : World) : World := default w (run es w).

(** *** Sample conversation *)

Definition sample_log : list ChatMessage :=
  [{| timestamp := "2024-05-01T10:00:00.000Z"; query := "What is attention?";
      response := "A weighted sum of values." |};
   {| timestamp := "2024-05-01T10:01:00.000Z"; query := "And multi-head?";
      response := "Several attention maps in parallel." |}].

(** A panel that is open, shows [sample_log] and holds a typed question. *)
Definition sample_world : World :=
  {| st := {| isOpen := true; chatHistory := sample_log; message := "Why scale by sqrt(d)?";
              isLoading := false; panelWidth := 384; isResizing := false |};
     jobId := "job-1"; requests := []; posts := 0; gets := 0 |}.

End ChatPanel.

(** ** The message renderer of the chat panel

    [renderMessageContent] splits a response at its fenced code blocks.  Its
    regular expression reads: three backquotes, a first group of word
    characters and hyphens (greedy), a line feed, a second group of any
    characters (lazy), three backquotes. *)
Module MessageContent.

(** A word character or a hyphen: a letter, a digit, an underscore or a hyphen. *)
Definition is_word (c : ascii) : bool :=
  let n := nat_of_ascii c in
  ((48 <=? n) && (n <=? 57) || (65 <=? n) && (n <=? 90) ||
   (97 <=? n) && (n <=? 122) || (n =? 95) || (n =? 45))%nat.

(** The string after three backquotes, when [s] starts with them. *)
Definition after_fence (s : string) : option string :=
  match s with
  | String a (String b (String c rest)) =>
      if Ascii.eqb a "`" && Ascii.eqb b "`" && Ascii.eqb c "`" then Some rest else None
  | _ => None
  end.

(** The first group, greedy: the longest run of word characters and what
    follows it.  Nothing shorter can match, since a line feed must come next and
    is no word character. *)
Fixpoint word_run (s : string) : string * string :=
  match s with
  | EmptyString => (EmptyString, EmptyString)
  | String c rest =>
      if is_word c
      then let (w, r) := word_run rest in (String c w, r)
      else (EmptyString, s)
  end.

(** The second group, lazy: the shortest text up to three backquotes, and
    what follows them. *)
Fixpoint until_fence (s : string) : option (string * string) :=
  match after_fence s with
  | Some rest => Some (EmptyString, rest)
  | None =>
      match s with
      | EmptyString => None
      | String c s' =>
          match until_fence s' with
          | Some (b, r) => Some (String c b, r)
          | None => None
          end
      end
  end.

(** The expression matched at the start of [s]: the two groups and what
    follows the match. *)
Definition match_at (s : string) : option (string * string * string) :=
  rest ← after_fence s;
  let (lang, rest) := word_run rest in
  match rest with
  | String c rest =>
      if Ascii.eqb c "010" then
        '(code, rest) ← until_fence rest;
        Some (lang, code, rest)
      else None
  | EmptyString => None
  end.

(** The leftmost match in [s]: how far into [s] it starts, and the match. *)
Fixpoint search (s : string) : option (nat * (string * string * string)) :=
  match match_at s with
  | Some m => Some (O, m)
  | None =>
      match s with
      | EmptyString => None
      | String _ s' =>
          match search s' with
          | Some (k, m) => Some (S k, m)
          | None => None
          end
      end
  end.

Fixpoint sdrop (n : nat) (s : string) : string :=
  match n, s with
  | O, _ => s
  | S n', String _ s' => sdrop n' s'
  | S _, EmptyString => EmptyString
  end.

Fixpoint stake (n : nat) (s : string) : string :=
  match n, s with
  | S n', String c s' => String c (stake n' s')
  | _, _ => EmptyString
  end.

(** [s.slice(a, b)] for indices within the string. *)
Definition slice (a b : nat) (s : string) : string := stake (b - a) (sdrop a s).

(** What [exec] returns: [match.index], [match[0]], [match[1]] and
    [match[2]]. *)
Record Match := {
  index : nat;
  whole : string;
  group1 : string;
  group2 : string
}.

(** [codeBlockRegex.exec(content)] with the expression's [lastIndex]. *)
Definition exec (content : string) (lastIndex : nat) : option Match :=
  match search (sdrop lastIndex content) with
  | Some (k, (lang, code, _)) =>
      Some {| index := lastIndex + k;
              whole := "```" +:+ lang +:+ String "010" code +:+ "```";
              group1 := lang; group2 := code |}
  | None => None
  end.

Inductive Part :=
| TextPart (content : string)
| CodePart (language content : string).

(** The [while] loop and the [if] after it; every turn moves [lastIndex]
    forward, [fuel] bounds the number of turns. *)
Fixpoint collect (fuel : nat) (content : string) (lastIndex : nat) : list Part :=
  match exec content lastIndex with
  | Some m =>
      let before :=
        if (lastIndex <? index m)%nat
        then [TextPart (slice lastIndex (index m) content)] else [] in
      let language :=
        if String.eqb (trim (group1 m)) "" then "text" else trim (group1 m) in
      let code := trim (group2 m) in
      match fuel with
      | O => before ++ [CodePart language code]
      | S fuel' =>
          before ++ CodePart language code
                 :: collect fuel' content (index m + String.length (whole m))
      end
  | None =>
      if (lastIndex <? String.length content)%nat
      then [TextPart (slice lastIndex (String.length content) content)] else []
  end.

Inductive MessageView :=
| Paragraph (content : string)          (* one pre-wrapped paragraph *)
| Blocks (parts : list Part).           (* highlighted code and paragraphs *)

(** [renderMessageContent(content)].  A match takes at least seven
    characters, so the length of the content is fuel enough. *)
Definition renderMessageContent (content : string) : MessageView :=
  let parts := collect (String.length content) content 0 in
  match parts with
  | [] => Paragraph content
  | _ :: _ => Blocks parts
  end.

(** *** Vocabulary of the statements *)

Definition LF : string := String "010" EmptyString.

Definition fence : string := "```".

(** The text of a block: fence, language, line feed, code, fence. *)
Definition block (lang code : string) : string :=
  fence +:+ lang +:+ LF +:+ code +:+ fence.

Fixpoint all_chars (p : ascii -> bool) (s : string) : bool :=
  match s with
  | EmptyString => true
  | String c rest => p c && all_chars p rest
  end.

(** The number of backquotes in [s]. *)
Fixpoint backquotes (s : string) : nat :=
  match s with
  | EmptyString => O
  | String c rest => ((if Ascii.eqb c "`" then 1 else 0) + backquotes rest)%nat
  end.

(** Three backquotes in a row occur somewhere in [s]. *)
Fixpoint has_fence (s : string) : bool :=
  match after_fence s with
  | Some _ => true
  | None =>
      match s with
      | EmptyString => false
      | String _ rest => has_fence rest
      end
  end.

(** The parts of the text from [s] on, by the same loop read on what is
    left of the content rather than on an index into it. *)
Fixpoint parts_of (fuel : nat) (s : string) : list Part :=
  match search s with
  | Some (k, (lang, code, rest)) =>
      let before := if (0 <? k)%nat then [TextPart (stake k s)] else [] in
      let language := if String.eqb (trim lang) "" then "text" else trim lang in
      match fuel with
      | O => before ++ [CodePart language (trim code)]
      | S fuel' => before ++ CodePart language (trim code) :: parts_of fuel' rest
      end
  | None => if (0 <? String.length s)%nat then [TextPart s] else []
  end.

(** A part as the loop may push it: a text that is not empty; a code block
    with a language that is not empty and made of word characters, and a
    content without white space at either end. *)
Definition well_formed (p : Part) : Prop :=
  match p with
  | TextPart content => content <> EmptyString
  | CodePart language content =>
      language <> EmptyString /\ all_chars is_word language = true /\
      trim content = content
  end.

(** The parts of [s], with fuel to spare. *)
Definition parts (s : string) : list Part := parts_of (String.length s) s.

(** The text pushed before a block, or after the last one: nothing when it
    is empty. *)
Definition text_part (s : string) : list Part :=
  if String.eqb s "" then [] else [TextPart s].

(** The language shown for a first group. *)
Definition language_of (lang : string) : string :=
  if String.eqb lang "" then "text" else lang.

(** A string that is empty or starts with no white space. *)
Definition starts_clean (s : string) : Prop :=
  match s with
  | EmptyString => True
  | String c _ => is_whitespace c = false
  end.

(** [t] occurs in [s]. *)
Definition occurs (t s : string) : Prop := exists a b, s = a +:+ t +:+ b.

Definition part_content (p : Part) : string :=
  match p with
  | TextPart content => content
  | CodePart _ content => content
  end.

(** *** Sample response *)

Definition sample_response : string :=
  "Run it: " +:+ block "python" (LF +:+ "print(1)" +:+ LF) +:+ " and read the output.".

End MessageContent.
(** ** More vocabulary for the results page *)
Module PageTerms.
Import ResultsPage.

Definition is_set (t : option Timer) : bool :=
  match t with
  | Some _ => true
  | None => false
  end.

(** The loading screen is up exactly while the polling timer is set. *)
Definition loading_while_polling (w : World) : Prop :=
  forall v, ui w = Some v -> loading v = is_set (pollingInterval w).

(** The stored data is still [null] or is a completed job record. *)
Definition data_is_completed_record (w : World) : Prop :=
  forall v, ui w = Some v -> data v = JNull \/ says (data v) "completed" = true.

(** While the component is mounted the progress timer is set, with its
    delay of 500 ms and its next tick at most 500 ms away. *)
Definition progress_timer_running (w : World) : Prop :=
  forall v, ui w = Some v ->
  exists tm, progressInterval w = Some tm /\ delay tm = 500 /\
             due tm - 500 <= now w <= due tm.

Definition counter_in_range (w : World) : Prop := 0 <= progressCounter w <= 94.

(** The progress timer has ticked [T] times since the mount at [t0], and
    the counter has followed every tick up to 90. *)
Definition counter_follows_ticks (t0 : Z) (w : World) : Prop :=
  forall tm, progressInterval w = Some tm ->
  delay tm = 500 /\
  exists T, 0 <= T /\ due tm = t0 + 500 * (T + 1) /\
            progressCounter w = Z.min T 90 /\ due tm - 500 <= now w <= due tm.

(** An event that is not the settling of a fetch with an in-progress
    record. *)
Definition no_in_progress (e : Event) : bool :=
  match e with
  | Settle (Responded true _ (Some responseData)) _ => negb (says responseData "in_progress")
  | _ => true
  end.

Definition is_poll (e : Event) : bool :=
  match e with PollTimer => true | _ => false end.

Definition is_settle (e : Event) : bool :=
  match e with Settle _ _ => true | _ => false end.

Fixpoint count (p : Event -> bool) (es : list Event) : nat :=
  match es with
  | [] => O
  | e :: rest => ((if p e then 1 else 0) + count p rest)%nat
  end.

(** The object has no property [k]. *)
Fixpoint lacks (k : string) (fields : list (string * jsval)) : bool :=
  match fields with
  | [] => true
  | (k', _) :: rest => negb (String.eqb k k') && lacks k rest
  end.

(** The world an in-progress record leaves behind, for the message shown. *)
Definition stepped (message : string) (u : Q) (w : World) : World :=
  let w1 := setStatusMessage message w in
  if progressCounter w <? 90
  then setProgress (Z.min (progressCounter w + random_step u) 90)
         (set_progressCounter (progressCounter w + random_step u) w1)
  else w1.

(** *** More sample records *)

(** A completed record whose result has no metadata. *)
Definition sample_completed_no_metadata : jsval :=
  JObj [("status", JStr "completed");
        ("result", JObj [("key_concepts", JArr [JStr "self-attention"])])].

(** Records with nothing but a status. *)
Definition sample_in_progress_bare : jsval := JObj [("status", JStr "in_progress")].

Definition sample_failed_bare : jsval := JObj [("status", JStr "failed")].

End PageTerms.
(** ** What the chat panel puts on the screen *)
Module ChatView.
Import ChatPanel MessageContent.

(** One entry of the history as the panel shows it: the query as it is,
    the response through [renderMessageContent]. *)
Record Exchange := {
  asked : string;
  answered : MessageView
}.

Definition show (chat : ChatMessage) : Exchange :=
  {| asked := query chat; answered := renderMessageContent (response chat) |}.

(** The parts of the returned JSX that depend on the state. *)
Record PanelView := {
  ariaLabel : string;                   (* of the toggle button *)
  resizeHandle : option Z;              (* its distance from the right edge, less 1px *)
  width : Z;                            (* of the panel *)
  exchanges : option (list Exchange);   (* [None]: "No messages yet. ..." *)
  loadingDots : bool;
  textareaValue : string;
  textareaDisabled : bool;
  sendDisabled : bool
}.

Definition render (s : PanelState) : PanelView :=
  {| ariaLabel := if isOpen s then "Close chat" else "Open chat";
     resizeHandle := if isOpen s then Some (panelWidth s) else None;
     width := if isOpen s then panelWidth s else 0;
     exchanges := if (length (chatHistory s) =? 0)%nat then None
                  else Some (map show (chatHistory s));
     loadingDots := isLoading s;
     textareaValue := message s;
     textareaDisabled := isLoading s;
     sendDisabled := isLoading s || String.eqb (trim (message s)) "" |}.

(** *** Vocabulary of the statements *)

(** A request of the panel for the job [job]: a GET without a body, or a
    POST whose body is an object with a [message] that is not blank, to the
    chat endpoint of the job. *)
Definition is_chat_request (job : string) (r : Request) : bool :=
  String.eqb (url r) (chat_url job) &&
  match method r, body r with
  | GET, None => true
  | POST, Some (JObj [(k, JStr text)]) => String.eqb k "message" && negb (blank text)
  | _, _ => false
  end.

(** One POST is in flight while [isLoading], none otherwise, and the input
    is empty while it is. *)
Definition one_question_at_a_time (w : World) : Prop :=
  posts w = (if isLoading (st w) then 1 else 0)%nat /\
  (isLoading (st w) = true -> message (st w) = "").

Definition requests_of_job (job : string) (w : World) : Prop :=
  jobId w = job /\ forallb (is_chat_request job) (requests w) = true.

(** A panel that has just been opened: its first GET is still in flight
    and a question is typed. *)
Definition sample_opening : World :=
  {| st := {| isOpen := true; chatHistory := []; message := "Why scale by sqrt(d)?";
              isLoading := false; panelWidth := 384; isResizing := false |};
     jobId := "job-1";
     requests := [{| method := GET; url := chat_url "job-1"; body := None |}];
     posts := 0; gets := 1 |}.

End ChatView.

(** ** The results page before it polled

    The earlier [ResultsPage]: one fetch of the status, no test of
    [response.ok] or of the [status] of the record, no timers. *)
Module LegacyPage.

(** The [useState] cells. *)
Record State := {
  loading : bool;
  data : jsval
}.

Record World := {
  st : State;
  jobId : string;
  requests : list Request;   (* newest first *)
  inflight : nat
}.

Definition setData (d : jsval) (w : World) : World :=
  {| st := {| loading := loading (st w); data := d |}; jobId := jobId w;
     requests := requests w; inflight := inflight w |}.

Definition setLoading (b : bool) (w : World) : World :=
  {| st := {| loading := b; data := data (st w) |}; jobId := jobId w;
     requests := requests w; inflight := inflight w |}.

(** [fetchData], up to its first [await]. *)
Definition fetchData_call (w : World) : World :=
  {| st := st w; jobId := jobId w;
     requests := {| method := GET; url := status_url (jobId w); body := None |} :: requests w;
     inflight := S (inflight w) |}.

(** The first render and the effect on [[jobId]]. *)
Definition mount (job : string) : World :=
  fetchData_call {| st := {| loading := true; data := JNull |}; jobId := job;
                    requests := []; inflight := 0 |}.

(** [fetchData] from the moment its fetch settles: the [catch] block only
    logs, the [finally] block ends the loading. *)
Definition fetchData_settle (o : FetchOutcome jsval) (w : World) : World :=
  let w :=
    match o with
    | Responded _ _ (Some responseData) => setData responseData w
    | _ => w
    end in
  setLoading false w.

Inductive Screen :=
| Skeleton                         (* the pulsing placeholder *)
| NotFound                         (* "Analysis not found" *)
| Analysis (title authors : jsval) (cards : list Element)
| Throws.                          (* a [TypeError] while rendering *)

Definition render (s : State) : Screen :=
  if loading s then Skeleton
  else if negb (truthy (data s)) then NotFound
  else
    default Throws
      (result ← prop (data s) "result";
       if negb (truthy result) then Some NotFound
       else
         metadata ← prop result "metadata";
         key_concepts ← prop result "key_concepts";
         problem_statement ← prop result "problem_statement";
         full_explanation ← prop result "full_explanation";
         pseudo_code ← prop result "pseudo_code";
         title ← prop metadata "title";
         authors ← prop metadata "authors";
         Some (Analysis title authors
                 [KeyConcepts key_concepts; ProblemStatement problem_statement;
                  FullExplanation full_explanation; PseudoCode pseudo_code])).

(** *** Vocabulary of the statements *)

(** The screen of the polling page that a screen of this page corresponds
    to; the placeholder has none. *)
Definition as_rendered (s : Screen) : option ResultsPage.Rendered :=
  match s with
  | Skeleton => None
  | NotFound => Some ResultsPage.NotFoundScreen
  | Analysis title authors cards => Some (ResultsPage.AnalysisScreen title authors cards)
  | Throws => Some ResultsPage.RenderError
  end.

(** The body that was read, if any. *)
Definition parsed (o : FetchOutcome jsval) : option jsval :=
  match o with
  | Responded _ _ json => json
  | Rejected => None
  end.


End LegacyPage.

(** ** The architecture card

    [ArchitectureDeepDive({ data })] with its [activeComponent] cell: the
    guard, the overview, the two [map] calls over
    [data.detailed_breakdown] (the row of buttons and the panels below it,
    one of each per component), the integration flow and the two bullet
    lists.  What is modelled is the value the component function returns,
    or the [TypeError] it throws. *)
Module ArchitectureView.

Inductive Heading :=
| DetailedExplanation
| MathematicalFormulation
| DimensionAnalysis
| DesignRationale
| SubtleDetails
| IntegrationFlow.

Inductive Child :=
| Overview (text : jsval)
| Purpose (text : jsval)
| Box (heading : Heading) (markdown : jsval)
| Bare (v : jsval).               (* a value handed to React as it is *)

(** [{x && element}]. *)
Definition guarded (x : jsval) (element : Child) : Child :=
  if truthy x then element else Bare x.

Record Tab := {
  label : jsval;
  highlighted : bool
}.

Record Panel := {
  visible : bool;                  (* ['block space-y-4'] rather than ['hidden'] *)
  name : jsval;
  children : list Child
}.

(** The callback of the first [map]. *)
Definition tab (activeComponent : Z) (component : jsval) (index : Z) : option Tab :=
  component_name ← prop component "component_name";
  Some {| label := component_name; highlighted := activeComponent =? index |}.

(** The callback of the second [map]. *)
Definition panel (activeComponent : Z) (component : jsval) (index : Z) : option Panel :=
  component_name ← prop component "component_name";
  purpose ← prop component "purpose";
  detailed_explanation ← prop component "detailed_explanation";
  mathematical_formulation ← prop component "mathematical_formulation";
  dimension_analysis ← prop component "dimension_analysis";
  design_rationale ← prop component "design_rationale";
  subtle_details ← prop component "subtle_details";
  Some {| visible := activeComponent =? index;
          name := component_name;
          children :=
            [guarded purpose (Purpose purpose);
             guarded detailed_explanation (Box DetailedExplanation detailed_explanation);
             guarded mathematical_formulation
                     (Box MathematicalFormulation mathematical_formulation);
             guarded dimension_analysis (Box DimensionAnalysis dimension_analysis);
             guarded design_rationale (Box DesignRationale design_rationale);
             guarded subtle_details (Box SubtleDetails subtle_details)] |}.

(** [items.map((component, index) => ..)] from the index [index] on; a
    callback that throws ends the render. *)
Fixpoint map_from {A : Type} (f : jsval -> Z -> option A) (index : Z) (items : list jsval)
  : option (list A) :=
  match items with
  | [] => Some []
  | component :: rest =>
      y ← f component index;
      ys ← map_from f (index + 1) rest;
      Some (y :: ys)
  end.

Definition tabs (activeComponent : Z) (items : list jsval) : option (list Tab) :=
  map_from (tab activeComponent) 0 items.

Definition panels (activeComponent : Z) (items : list jsval) : option (list Panel) :=
  map_from (panel activeComponent) 0 items.

(** The receiver of a call of [.map]: an array has the method; on any other
    value of a parsed body [.map] is [undefined] or a value that is no
    function, and the call throws. *)
Definition array_items (v : jsval) : option (list jsval) :=
  match v with
  | JArr items => Some items
  | _ => None
  end.

(** A bullet list: the [li] elements, or the value handed to React in
    their place. *)
Inductive Listing :=
| NoBullets (v : jsval)
| Bullets (items : list jsval).

(** What the component returns. *)
Record Detail := {
  overview : Child;
  component_tabs : list Tab;
  component_panels : list Panel;
  integration_flow : Child;
  critical_insights : Listing;
  implementation_considerations : Listing
}.

Inductive ArchitectureCard :=
| NoArchitecture                    (* "No detailed architecture analysis available." *)
| ArchitectureDetail (detail : Detail)
| ArchitectureError.                (* a [TypeError] while rendering *)

(** The model does not read numbers out of strings.  [positive_numeral s]
    stands for the engine's answer to whether the number it reads from the
    string [s] is greater than 0; the component asks it only when a [length]
    it compares with 0 is a string or an array, and everything proved below
    holds whatever the answer is. *)
Section Engine.

Variable positive_numeral : string -> bool.

(** [v > 0]: [undefined] and an object read as [NaN], [null] as 0, [true]
    as 1, a string as the number it spells, an array as its [toString()]. *)
Definition gt_zero (v : jsval) : bool :=
  match v with
  | JUndefined | JNull | JObj _ => false
  | JBool b => b
  | JNum n => 0 <? n
  | JStr _ | JArr _ => positive_numeral (to_string v)
  end.

(** [{x && x.length > 0 && (<div>.. x.map(..) ..</div>)}]. *)
Definition listing (x : jsval) : option Listing :=
  if negb (truthy x) then Some (NoBullets x)
  else
    len ← prop x "length";
    if negb (gt_zero len) then Some (NoBullets (JBool false))
    else Bullets <$> array_items x.

(** [ArchitectureDeepDive({ data })] with its [activeComponent] cell. *)
Definition ArchitectureDeepDive_render (data : jsval) (activeComponent : Z) : ArchitectureCard :=
  if negb (truthy data) then NoArchitecture
  else
    default ArchitectureError
      (breakdown ← prop data "detailed_breakdown";
       if negb (truthy breakdown) then Some NoArchitecture
       else
         len ← prop breakdown "length";
         match len with
         | JNum 0 => Some NoArchitecture
         | _ =>
             overview ← prop data "overview";
             items ← array_items breakdown;
             buttons ← tabs activeComponent items;
             details ← panels activeComponent items;
             flow ← prop data "integration_flow";
             insights ← prop data "critical_insights";
             insights ← listing insights;
             considerations ← prop data "implementation_considerations";
             considerations ← listing considerations;
             Some (ArchitectureDetail
                     {| overview := guarded overview (Overview overview);
                        component_tabs := buttons;
                        component_panels := details;
                        integration_flow := guarded flow (Box IntegrationFlow flow);
                        critical_insights := insights;
                        implementation_considerations := considerations |})
         end).

(** A click on the button of index [index], which is there when the card
    shows its detail with a button of that index:
    [setActiveComponent(index)]. *)
Definition click (data : jsval) (index : nat) (activeComponent : Z) : option Z :=
  match ArchitectureDeepDive_render data activeComponent with
  | ArchitectureDetail detail =>
      if (index <? length (component_tabs detail))%nat then Some (Z.of_nat index) else None
  | _ => None
  end.

Fixpoint clicks (data : jsval) (indices : list nat) (activeComponent : Z) : option Z :=
  match indices with
  | [] => Some activeComponent
  | index :: rest => a ← click data index activeComponent; clicks data rest a
  end.

End Engine.

(** *** Vocabulary of the statements *)

Definition nullish (v : jsval) : bool :=
  match v with
  | JUndefined | JNull => true
  | _ => false
  end.

Definition sample_breakdown : list jsval :=
  [JObj [("component_name", JStr "Encoder"); ("purpose", JStr "Reads the input.")];
   JObj [("component_name", JStr "Decoder");
         ("detailed_explanation", JStr "Attends to the encoder output.");
         ("subtle_details", JStr "")]].

Definition sample_architecture : jsval :=
  JObj [("overview", JStr "An encoder and a decoder.");
        ("detailed_breakdown", JArr sample_breakdown);
        ("critical_insights", JArr [JStr "Attention replaces recurrence."])].

(** The same card with its insights given as one string. *)
Definition sample_architecture_text : jsval :=
  JObj [("detailed_breakdown", JArr sample_breakdown);
        ("critical_insights", JStr "Attention replaces recurrence.")].

End ArchitectureView.

(** * Facts about JavaScript values *)
Module JSFacts.

(** A value with one readable property is neither [null] nor [undefined],
    so every property of it can be read. *)
Lemma prop_defined (v : jsval) (k k' : string) (x : jsval) :
  prop v k = Some x -> exists y, prop v k' = Some y.
Proof. destruct v; simpl; intros H; try discriminate; eauto. Qed.

Lemma is_str_eq (v : jsval) (lit : string) : is_str v lit = true -> v = JStr lit.
Proof.
  destruct v; simpl; try discriminate. intros H.
  apply String.eqb_eq in H. congruence.
Qed.

Lemma trimStart_blank (s : string) : blank s = true -> trimStart s = "".
Proof.
  induction s as [|c s IH]; simpl; [reflexivity|].
  destruct (is_whitespace c); simpl; [exact IH | discriminate].
Qed.

Lemma trimStart_not_blank (s : string) :
  blank s = false ->
  exists c rest, trimStart s = String c rest /\ is_whitespace c = false.
Proof.
  induction s as [|c s IH]; simpl; [discriminate|].
  destruct (is_whitespace c) eqn:Hc; simpl; [exact IH | eauto].
Qed.

Lemma trimStart_snoc (a : string) (c : ascii) :
  is_whitespace c = false -> trimStart (a +:+ String c "") <> "".
Proof.
  intros Hc. induction a as [|d a IH]; simpl.
  - rewrite Hc. discriminate.
  - destruct (is_whitespace d); [exact IH | discriminate].
Qed.

Lemma string_rev_nonempty (s : string) : s <> "" -> string_rev s <> "".
Proof.
  destruct s as [|c s]; [congruence|]. intros _. simpl.
  destruct (string_rev s); discriminate.
Qed.

(** [!s.trim()] holds exactly for the blank strings. *)
Lemma trim_empty_iff_blank (s : string) : String.eqb (trim s) "" = blank s.
Proof.
  destruct (blank s) eqn:Hb.
  - unfold trim. rewrite (trimStart_blank _ Hb). reflexivity.
  - destruct (trimStart_not_blank _ Hb) as (c & rest & Heq & Hc).
    apply String.eqb_neq. unfold trim, trimEnd. rewrite Heq. simpl.
    apply string_rev_nonempty. apply trimStart_snoc. exact Hc.
Qed.

End JSFacts.

(** * The cards *)
Module CardFacts.
Import Cards ArchitectureView JSFacts.

(** The model-file card shows the listing exactly when the code is not
    blank, and offers it for download under the name [model.py]. *)
Lemma ModelFile_render_blank (code : string) :
  ModelFile_render code = if blank code then NoModelCode else ModelCode code.
Proof.
  unfold ModelFile_render.
  pose proof (trim_empty_iff_blank code) as Htrim.
  destruct (blank code) eqn:Hb.
  - apply String.eqb_eq in Htrim. rewrite Htrim. simpl. rewrite orb_true_r. reflexivity.
  - apply String.eqb_neq in Htrim.
    destruct code as [|c code]; [discriminate|].
    destruct (trim (String c code)) as [|d rest]; [congruence | reflexivity].
Qed.

Lemma handleDownload_name (code : string) : fst (handleDownload code) = "model.py".
Proof. reflexivity. Qed.

(** Without data, or without a breakdown, the architecture card is the
    placeholder. *)
Lemma ArchitectureDeepDive_render_empty
    (positive_numeral : string -> bool) (data : jsval) (active : Z) :
  truthy data = false \/ prop data "detailed_breakdown" = Some (JArr []) ->
  ArchitectureDeepDive_render positive_numeral data active = NoArchitecture.
Proof.
  unfold ArchitectureDeepDive_render. intros [Hd | Hb].
  - rewrite Hd. reflexivity.
  - destruct (truthy data); [|reflexivity]. simpl. rewrite Hb. reflexivity.
Qed.

End CardFacts.

(** * Properties of the results page *)
Module PageFacts.
Import ResultsPage JSFacts.

(** ** The random step *)

Lemma random_step_range (u : Q) :
  Qle_bool 0 u && negb (Qle_bool 1 u) = true -> 1 <= random_step u <= 5.
Proof.
  intros H. apply andb_prop in H as [H0 H1].
  apply Qle_bool_iff in H0.
  apply negb_true_iff in H1.
  assert (Hlt : (u < 1)%Q).
  { apply Qnot_le_lt. intros Hle. apply Qle_bool_iff in Hle. congruence. }
  unfold random_step.
  assert (Hlo : 0 <= Qfloor (u * 5)).
  { change 0 with (Qfloor 0). apply Qfloor_resp_le.
    apply Qmult_le_0_compat; [assumption | discriminate]. }
  assert (Hhi : Qfloor (u * 5) < 5).
  { rewrite Zlt_Qlt. eapply Qle_lt_trans; [apply Qfloor_le |].
    change (inject_Z 5) with (1 * 5)%Q.
    apply Qmult_lt_compat_r; [reflexivity | assumption]. }
  lia.
Qed.

(** ** Properties kept along a run *)
Section Preservation.

Variable P : World -> Prop.
Variable Q : Event -> Prop.
Hypothesis fire_preserves :
  forall e w w', fire e w = Some w' -> P w -> P w' /\ Q e.

(** What every event keeps, a run keeps, and every event of the run is
    one that [Q] admits. *)
Lemma run_preserves (es : list Event) (w w' : World) :
  run es w = Some w' -> P w -> P w' /\ Forall Q es.
Proof.
  revert w. induction es as [|e es IH]; intros w Hrun HP; simpl in Hrun.
  - simplify_eq. split; [exact HP | constructor].
  - destruct (fire e w) as [w1|] eqn:Hfire; [|discriminate]. simpl in Hrun.
    destruct (fire_preserves _ _ _ Hfire HP) as [HP1 HQ].
    destruct (IH _ Hrun HP1) as [HP' HQs].
    split; [exact HP' | constructor; assumption].
Qed.

End Preservation.

(** ** What a handler can touch *)

(** Case analysis along the branches of [fetchData]. *)
Ltac settle_cases o :=
  unfold fetchData_settle, fetchData_try, fetchData_catch;
  destruct o as [|[|] ? [[| | | | | |]|]]; simpl;
  repeat (case_match; simpl).

(** What a settling fetch can touch outside the state cells: the counter
    and the polling timer, nothing else. *)
Lemma settle_frame (o : FetchOutcome jsval) (u : Q) (w : World) :
  let w' := fetchData_settle o u w in
  jobId w' = jobId w /\ now w' = now w /\ requests w' = requests w /\
  inflight w' = inflight w /\ progressInterval w' = progressInterval w /\
  (pollingInterval w' = None \/ pollingInterval w' = pollingInterval w) /\
  (ui w = None -> ui w' = None).
Proof.
  destruct w as [[v|] ? ? ? ? ? ? ?]; settle_cases o; intuition congruence.
Qed.

(** The counter never goes down when a fetch settles, and the progress cell
    follows it up to 90. *)
Lemma settle_counter (o : FetchOutcome jsval) (u : Q) (w : World) :
  1 <= random_step u ->
  let w' := fetchData_settle o u w in
  progressCounter w <= progressCounter w' /\
  (progress_follows_counter w -> progress_follows_counter w').
Proof.
  unfold progress_follows_counter. intros Hu.
  destruct w as [[v|] ? ? ? ? ? ? ?]; settle_cases o;
    (split; [lia | intros Hinv v' Hv'; simplify_eq; simpl;
                   try (specialize (Hinv _ eq_refl); simpl in Hinv); lia]).
Qed.

Lemma progress_tick_frame (w : World) :
  let w' := progress_tick w in
  jobId w' = jobId w /\ now w' = now w /\ requests w' = requests w /\
  inflight w' = inflight w /\ progressInterval w' = progressInterval w /\
  pollingInterval w' = pollingInterval w /\ (ui w = None -> ui w' = None).
Proof.
  unfold progress_tick. destruct (progressCounter w <? 90); simpl; intuition.
  destruct (ui w); simpl; congruence.
Qed.

Lemma progress_tick_counter (w : World) :
  let w' := progress_tick w in
  progressCounter w <= progressCounter w' /\
  (progress_follows_counter w -> progress_follows_counter w').
Proof.
  unfold progress_follows_counter, progress_tick.
  destruct (progressCounter w <? 90) eqn:Hlt; simpl.
  - apply Z.ltb_lt in Hlt. split; [lia|]. intros _ v' Hv'.
    destruct (ui w); simplify_eq/=. lia.
  - split; [lia | auto].
Qed.

(** ** Reading a job record *)

Lemma says_status (d : jsval) (status : string) :
  says d status = true -> prop d "status" = Some (JStr status).
Proof.
  unfold says. destruct (prop d "status") as [st|] eqn:H; [|discriminate].
  intros Hs. apply is_str_eq in Hs. congruence.
Qed.

Lemma says_object (d : jsval) (status : string) :
  says d status = true -> exists fields, d = JObj fields.
Proof.
  intros H. apply says_status in H.
  destruct d; simpl in H; try discriminate; eauto.
Qed.

(** The three branches of [fetchData] on the [status] of the record. *)
Lemma settle_completed (d : jsval) (hs : Z) (u : Q) (w : World) :
  says d "completed" = true ->
  fetchData_settle (Responded true hs (Some d)) u w
  = clearPolling (setLoading false (setData d w)).
Proof.
  intros H. apply says_status in H.
  unfold fetchData_settle, fetchData_try. simpl. rewrite H. reflexivity.
Qed.

Lemma settle_in_progress (d : jsval) (hs : Z) (u : Q) (w : World) :
  says d "in_progress" = true ->
  exists filename,
    prop d "filename" = Some filename /\
    fetchData_settle (Responded true hs (Some d)) u w
    = let w1 := setStatusMessage
                  ("Analyzing paper: " +:+ to_string (js_or filename (JStr "your document"))) w in
      if progressCounter w <? 90
      then setProgress (Z.min (progressCounter w + random_step u) 90)
             (set_progressCounter (progressCounter w + random_step u) w1)
      else w1.
Proof.
  intros H. apply says_status in H.
  destruct (prop_defined _ _ "filename" _ H) as [filename Hf].
  exists filename. split; [exact Hf|].
  unfold fetchData_settle, fetchData_try. simpl. rewrite H. simpl. rewrite Hf. simpl.
  destruct (progressCounter w <? 90); reflexivity.
Qed.

Lemma settle_failed (d : jsval) (hs : Z) (u : Q) (w : World) :
  says d "failed" = true ->
  exists err,
    prop d "error" = Some err /\
    fetchData_settle (Responded true hs (Some d)) u w
    = clearPolling (setLoading false
        (setError ("Analysis failed: " +:+ to_string (js_or err (JStr "Unknown error"))) w)).
Proof.
  intros H. apply says_status in H.
  destruct (prop_defined _ _ "error" _ H) as [err He].
  exists err. split; [exact He|].
  unfold fetchData_settle, fetchData_try. simpl. rewrite H. simpl. rewrite He. reflexivity.
Qed.

(** Every failed outcome runs the same three calls, whatever the message. *)
Lemma settle_failure (o : FetchOutcome jsval) (u : Q) (w : World) :
  failed_outcome o = true ->
  fetchData_settle o u w
  = clearPolling (setLoading false (setError (failure_message o) w)).
Proof.
  intros H. destruct o as [|[|] hs [d|]]; simpl in H; try reflexivity.
  destruct (prop d "status") as [st|] eqn:Hst.
  - assert (Hs : says d "failed" = true) by (unfold says; rewrite Hst; exact H).
    destruct (settle_failed d hs u w Hs) as (err & He & ->).
    simpl. rewrite Hst, He. reflexivity.
  - unfold fetchData_settle, fetchData_try. simpl. rewrite Hst. reflexivity.
Qed.


(** Without a result the page has nothing to show but "not found". *)
Lemma render_loaded_no_result (v : ViewState) :
  has_result (data v) = false -> render_loaded v = Some NotFoundScreen.
Proof.
  unfold render_loaded, has_result. intros Hno.
  destruct (data v) as [| |b|n|s|items|fields]; simpl in *; try reflexivity;
    [destruct b | destruct (n =? 0) | destruct (String.eqb s "") | rewrite Hno];
    reflexivity.
Qed.

(** With a result that carries metadata it shows the title, the authors
    and four cards. *)
Lemma render_loaded_result (v : ViewState) (result metadata title : jsval) :
  truthy (data v) = true ->
  prop (data v) "result" = Some result -> truthy result = true ->
  prop result "metadata" = Some metadata -> prop metadata "title" = Some title ->
  exists authors key_concepts problem_statement full_explanation pseudo_code,
    prop metadata "authors" = Some authors /\
    prop result "key_concepts" = Some key_concepts /\
    prop result "problem_statement" = Some problem_statement /\
    prop result "full_explanation" = Some full_explanation /\
    prop result "pseudo_code" = Some pseudo_code /\
    render_loaded v
    = Some (AnalysisScreen title authors
              [KeyConcepts key_concepts; ProblemStatement problem_statement;
               FullExplanation full_explanation; PseudoCode pseudo_code]).
Proof.
  intros Hdata Hres Htruthy Hmeta Htitle.
  destruct (prop_defined _ _ "authors" _ Htitle) as [authors Ha].
  destruct (prop_defined _ _ "key_concepts" _ Hmeta) as [kc Hkc].
  destruct (prop_defined _ _ "problem_statement" _ Hmeta) as [ps Hps].
  destruct (prop_defined _ _ "full_explanation" _ Hmeta) as [fe Hfe].
  destruct (prop_defined _ _ "pseudo_code" _ Hmeta) as [pc Hpc].
  exists authors, kc, ps, fe, pc. repeat (split; [assumption|]).
  unfold render_loaded. rewrite Hdata. simpl. rewrite Hres. simpl.
  rewrite Htruthy. simpl. rewrite Hmeta. simpl.
  rewrite Hkc, Hps, Hfe, Hpc. simpl. rewrite Htitle, Ha. reflexivity.
Qed.

(** ** Invariants of a run *)

(** Once the polling timer is cleared it stays cleared, and no request is
    sent any more. *)
Lemma fire_polling_cleared (w0 : World) (e : Event) (w w' : World) :
  fire e w = Some w' ->
  pollingInterval w = None /\ requests w = requests w0 ->
  (pollingInterval w' = None /\ requests w' = requests w0) /\ e <> PollTimer.
Proof.
  intros Hfire [Hnone Hreq]. destruct e; simpl in Hfire.
  - case_match; simplify_eq. simpl. auto.
  - rewrite Hnone in Hfire. discriminate.
  - case_match; simplify_eq.
    destruct (progress_tick_frame (set_progressInterval (rearm <$> progressInterval w) w))
      as (_ & _ & Hr & _ & _ & Hp & _).
    rewrite Hp, Hr. simpl. auto.
  - destruct (inflight w) as [|n]; [discriminate|]. case_match; simplify_eq.
    destruct (settle_frame o u (set_inflight n w)) as (_ & _ & Hr & _ & _ & Hp & _).
    rewrite Hr. simpl. split; [|done]. split; [|exact Hreq].
    destruct Hp as [Hp|Hp]; [exact Hp | rewrite Hp; exact Hnone].
  - destruct (ui w); simplify_eq. simpl. auto.
Qed.

Lemma run_polling_cleared (es : list Event) (w w' : World) :
  run es w = Some w' -> pollingInterval w = None ->
  pollingInterval w' = None /\ requests w' = requests w /\
  Forall (fun e => e <> PollTimer) es.
Proof.
  intros Hrun Hnone.
  destruct (run_preserves _ _ (fire_polling_cleared w) _ _ _ Hrun) as [[Hp Hr] Hes]; auto.
Qed.

(** The same for the progress timer. *)
Lemma fire_progress_cleared (e : Event) (w w' : World) :
  fire e w = Some w' -> progressInterval w = None ->
  progressInterval w' = None /\ e <> ProgressTimer.
Proof.
  intros Hfire Hnone. destruct e; simpl in Hfire.
  - case_match; simplify_eq. simpl. auto.
  - case_match; simplify_eq. simpl. auto.
  - rewrite Hnone in Hfire. discriminate.
  - destruct (inflight w) as [|n]; [discriminate|]. case_match; simplify_eq.
    destruct (settle_frame o u (set_inflight n w)) as (_ & _ & _ & _ & Hp & _).
    rewrite Hp. simpl. auto.
  - destruct (ui w); simplify_eq. simpl. auto.
Qed.

(** With both timers cleared no timer event can occur. *)
Lemma run_timers_cleared (es : list Event) (w w' : World) :
  run es w = Some w' ->
  pollingInterval w = None -> progressInterval w = None ->
  pollingInterval w' = None /\ progressInterval w' = None /\
  requests w' = requests w /\ Forall (fun e => is_timer e = false) es.
Proof.
  intros Hrun Hpoll Hprog.
  destruct (run_preserves
              (fun x => (pollingInterval x = None /\ requests x = requests w) /\
                        progressInterval x = None)
              (fun e => is_timer e = false)) with (es := es) (w := w) (w' := w')
    as [[[Hp Hr] Hg] Hes]; auto.
  intros e x x' Hfire [Hpr Hg].
  destruct (fire_polling_cleared w _ _ _ Hfire Hpr) as [Hpr' Hne1].
  destruct (fire_progress_cleared _ _ _ Hfire Hg) as [Hg' Hne2].
  split; [auto|]. destruct e; simpl; congruence.
Qed.

(** An unmounted component stays unmounted. *)
Lemma fire_unmounted (e : Event) (w w' : World) :
  fire e w = Some w' -> ui w = None -> ui w' = None /\ True.
Proof.
  intros Hfire Hnone. split; [|exact I]. destruct e; simpl in Hfire.
  - case_match; simplify_eq. simpl. auto.
  - case_match; simplify_eq. simpl. auto.
  - case_match; simplify_eq.
    apply progress_tick_frame. simpl. auto.
  - destruct (inflight w) as [|n]; [discriminate|]. case_match; simplify_eq.
    apply settle_frame. simpl. auto.
  - rewrite Hnone in Hfire. discriminate.
Qed.

Lemma run_unmounted (es : list Event) (w w' : World) :
  run es w = Some w' -> ui w = None -> ui w' = None.
Proof.
  intros Hrun Hnone.
  apply (run_preserves _ _ fire_unmounted _ _ _ Hrun Hnone).
Qed.

(** The counter never decreases and the cell follows it. *)
Lemma fire_progress (c : Z) (e : Event) (w w' : World) :
  fire e w = Some w' ->
  c <= progressCounter w /\ progress_follows_counter w ->
  (c <= progressCounter w' /\ progress_follows_counter w') /\ True.
Proof.
  intros Hfire [Hc Hinv].
  assert (Hstep : progressCounter w <= progressCounter w' /\
                  (progress_follows_counter w -> progress_follows_counter w')).
  { destruct e; simpl in Hfire.
    - case_match; simplify_eq. simpl. split; [lia | auto].
    - case_match; simplify_eq. simpl. split; [lia | auto].
    - case_match; simplify_eq.
      apply (progress_tick_counter (set_progressInterval (rearm <$> progressInterval w) w)).
    - destruct (inflight w) as [|n]; [discriminate|].
      destruct (Qle_bool 0 u && negb (Qle_bool 1 u)) eqn:Hu; simplify_eq.
      apply (settle_counter o u (set_inflight n w)).
      apply random_step_range in Hu. lia.
    - destruct (ui w); simplify_eq. simpl. split; [lia | ].
      intros _ ? Hv. discriminate. }
  destruct Hstep as [Hle Hkeep]. split; [|exact I]. split; [lia | auto].
Qed.

Lemma run_progress (es : list Event) (w w' : World) :
  run es w = Some w' -> progress_follows_counter w ->
  progressCounter w <= progressCounter w' /\ progress_follows_counter w'.
Proof.
  intros Hrun Hinv.
  apply (run_preserves _ _ (fire_progress (progressCounter w)) _ _ _ Hrun).
  split; [lia | exact Hinv].
Qed.

Lemma mount_progress (job : string) (t0 : Z) :
  progressCounter (mount job t0) = 0 /\ progress_follows_counter (mount job t0).
Proof.
  split; [reflexivity|]. intros v Hv. simpl in Hv. simplify_eq. reflexivity.
Qed.

(** The polls stay on schedule. *)
Lemma mount_on_schedule (job : string) (t0 : Z) : polls_on_schedule job t0 (mount job t0).
Proof.
  split; [reflexivity|]. exists 1%nat. split; [lia|]. split.
  - simpl. unfold status_request. repeat f_equal. lia.
  - intros tm Htm. simpl in Htm. simplify_eq. simpl. lia.
Qed.

Lemma fire_on_schedule (job : string) (t0 : Z) (e : Event) (w w' : World) :
  fire e w = Some w' -> polls_on_schedule job t0 w -> polls_on_schedule job t0 w' /\ True.
Proof.
  intros Hfire (Hjob & n & Hn & Hlog & Htimer). split; [|exact I].
  destruct e; simpl in Hfire.
  - destruct ((0 <? dt) && not_before (now w + dt) (pollingInterval w)
              && not_before (now w + dt) (progressInterval w)) eqn:Hok; simplify_eq.
    apply andb_prop in Hok as [Hok _]. apply andb_prop in Hok as [_ Hnb].
    split; [reflexivity|]. exists n. simpl.
    split; [exact Hn|]. split; [exact Hlog|].
    intros tm Htm. rewrite Htm in Hnb. simpl in Hnb. apply Z.leb_le in Hnb.
    destruct (Htimer tm Htm) as (? & ? & ?). auto.
  - destruct (pollingInterval w) as [tm|] eqn:Hp; simpl in Hfire; [|discriminate].
    destruct (due tm =? now w) eqn:Hdue; simplify_eq.
    apply Z.eqb_eq in Hdue. destruct (Htimer tm eq_refl) as (Hdelay & Hd & Hnow).
    split; [reflexivity|]. exists (S n). split; [lia|]. split.
    + simpl. rewrite Hlog. unfold status_request. repeat f_equal. lia.
    + intros tm' Htm'. simpl in Htm'. simplify_eq. simpl. lia.
  - case_match; simplify_eq.
    destruct (progress_tick_frame (set_progressInterval (rearm <$> progressInterval w) w))
      as (Hj & Hnw & Hr & _ & _ & Hp & _).
    split; [rewrite Hj; reflexivity|]. exists n. rewrite Hr, Hp, Hnw. simpl. auto.
  - destruct (inflight w) as [|k]; [discriminate|]. case_match; simplify_eq.
    destruct (settle_frame o u (set_inflight k w)) as (Hj & Hnw & Hr & _ & _ & Hp & _).
    split; [rewrite Hj; reflexivity|]. exists n. rewrite Hr, Hnw. simpl.
    split; [exact Hn|]. split; [exact Hlog|].
    intros tm Htm. destruct Hp as [Hp|Hp]; rewrite Hp in Htm; [discriminate|].
    apply Htimer. exact Htm.
  - destruct (ui w); simplify_eq. split; [reflexivity|]. exists n. simpl.
    split; [exact Hn|]. split; [exact Hlog | discriminate].
Qed.

Lemma run_on_schedule (job : string) (t0 : Z) (es : list Event) (w : World) :
  run es (mount job t0) = Some w -> polls_on_schedule job t0 w.
Proof.
  intros Hrun.
  apply (run_preserves _ _ (fire_on_schedule job t0) _ _ _ Hrun (mount_on_schedule job t0)).
Qed.





(** ** The claims about the results page *)

(** C1, as amended.  When the body of an [ok] status response says
    ['completed'], the page clears the polling timer for good, stores the
    response as its data and leaves the loading state.  It then shows the
    title found under the result's metadata when the response carries a
    result; a completed response without a result shows the
    "Analysis not found" screen instead. *)
Theorem completed_response_is_stored_and_shown
    (w : World) (v : ViewState) (responseData : jsval) (httpStatus : Z) (u : Q) :
  ui w = Some v ->
  says responseData "completed" = true ->
  let w' := fetchData_settle (Responded true httpStatus (Some responseData)) u w in
  pollingInterval w' = None /\
  (forall es w'', run es w' = Some w'' ->
                  pollingInterval w'' = None /\ requests w'' = requests w) /\
  ui w' = Some {| loading := false; data := responseData; error := error v;
                  progress := progress v; statusMessage := statusMessage v |} /\
  (has_result responseData = false -> render w' = Some NotFoundScreen) /\
  (forall result metadata title,
     prop responseData "result" = Some result -> truthy result = true ->
     prop result "metadata" = Some metadata -> prop metadata "title" = Some title ->
     exists authors panels, render w' = Some (AnalysisScreen title authors panels)).
Proof.
  intros Hv Hsays w'. subst w'. rewrite (settle_completed _ _ _ _ Hsays).
  destruct (says_object _ _ Hsays) as [fields ->].
  split; [reflexivity|]. split.
  { intros es w'' Hrun.
    destruct (run_polling_cleared _ _ _ Hrun eq_refl) as (Hp & Hr & _). auto. }
  split; [simpl; rewrite Hv; reflexivity|].
  set (v' := {| loading := false; data := JObj fields; error := error v;
                progress := progress v; statusMessage := statusMessage v |}).
  assert (Hrender : render (clearPolling (setLoading false (setData (JObj fields) w)))
                    = Some (default RenderError (render_loaded v')))
    by (unfold render; simpl; rewrite Hv; reflexivity).
  rewrite Hrender. split.
  - intros Hno. rewrite (render_loaded_no_result v' Hno). reflexivity.
  - intros result metadata title Hres Htruthy Hmeta Htitle.
    destruct (render_loaded_result v' result metadata title eq_refl Hres Htruthy Hmeta Htitle)
      as (authors & kc & ps & fe & pc & _ & _ & _ & _ & _ & Hr).
    rewrite Hr. simpl. eauto.
Qed.

Lemma completed_response_is_stored_and_shown_witness :
  ui (mount "job-1" 0) = Some initial_view /\
  says sample_completed "completed" = true /\
  pollingInterval (fetchData_settle (ok_json sample_completed) 0 (mount "job-1" 0)) = None /\
  exists authors panels,
    render (fetchData_settle (ok_json sample_completed) 0 (mount "job-1" 0))
    = Some (AnalysisScreen (JStr "Attention Is All You Need") authors panels).
Proof.
  split; [reflexivity|]. split; [reflexivity|].
  destruct (completed_response_is_stored_and_shown (mount "job-1" 0) initial_view
              sample_completed 200 0 eq_refl eq_refl) as (Hp & _ & _ & _ & Ht).
  split; [exact Hp|].
  apply (Ht sample_result
            (JObj [("title", JStr "Attention Is All You Need");
                   ("authors", JStr "Vaswani et al.")])); reflexivity.
Defined.

(** C1 as stated fails: a completed response that carries no result is
    stored, and the page shows "Analysis not found", not a title. *)
Lemma completed_without_result_shows_not_found :
  says sample_completed_bare "completed" = true /\
  render (fetchData_settle (ok_json sample_completed_bare) 0 (mount "job-1" 0))
  = Some NotFoundScreen /\
  ~ (exists title authors panels,
       render (fetchData_settle (ok_json sample_completed_bare) 0 (mount "job-1" 0))
       = Some (AnalysisScreen title authors panels)).
Proof.
  split; [reflexivity|]. split; [reflexivity|].
  intros (title & authors & panels & H). vm_compute in H. discriminate.
Qed.




(** C3, as amended.  For a completed response whose result carries
    metadata, the page shows the title and the authors and exactly four
    cards, fed from the result: key concepts, problem statement, full
    explanation and pseudo-code.  The architecture deep-dive and the model
    file are cards of their own that this page does not mount. *)
Theorem completed_result_shows_four_cards
    (w : World) (v : ViewState) (responseData result metadata title : jsval)
    (httpStatus : Z) (u : Q) :
  ui w = Some v ->
  says responseData "completed" = true ->
  prop responseData "result" = Some result ->
  truthy result = true ->
  prop result "metadata" = Some metadata ->
  prop metadata "title" = Some title ->
  let w' := fetchData_settle (Responded true httpStatus (Some responseData)) u w in
  exists authors key_concepts problem_statement full_explanation pseudo_code,
    prop metadata "authors" = Some authors /\
    prop result "key_concepts" = Some key_concepts /\
    prop result "problem_statement" = Some problem_statement /\
    prop result "full_explanation" = Some full_explanation /\
    prop result "pseudo_code" = Some pseudo_code /\
    render w' = Some (AnalysisScreen title authors
                        [KeyConcepts key_concepts; ProblemStatement problem_statement;
                         FullExplanation full_explanation; PseudoCode pseudo_code]).
Proof.
  intros Hv Hsays Hres Htruthy Hmeta Htitle w'. subst w'.
  rewrite (settle_completed _ _ _ _ Hsays).
  destruct (says_object _ _ Hsays) as [fields ->].
  set (v' := {| loading := false; data := JObj fields; error := error v;
                progress := progress v; statusMessage := statusMessage v |}).
  destruct (render_loaded_result v' result metadata title eq_refl Hres Htruthy Hmeta Htitle)
    as (authors & kc & ps & fe & pc & Ha & Hkc & Hps & Hfe & Hpc & Hr).
  exists authors, kc, ps, fe, pc. repeat (split; [assumption|]).
  unfold render. simpl. rewrite Hv. simpl. unfold render_view. simpl.
  fold v'. rewrite Hr. reflexivity.
Qed.

Lemma completed_result_shows_four_cards_witness :
  ui (mount "job-1" 0) = Some initial_view /\
  says sample_completed "completed" = true /\
  prop sample_completed "result" = Some sample_result /\
  truthy sample_result = true /\
  exists metadata panels,
    prop sample_result "metadata" = Some metadata /\
    prop metadata "title" = Some (JStr "Attention Is All You Need") /\
    render (fetchData_settle (ok_json sample_completed) 0 (mount "job-1" 0))
    = Some (AnalysisScreen (JStr "Attention Is All You Need") (JStr "Vaswani et al.") panels) /\
    length panels = 4%nat.
Proof.
  split; [reflexivity|]. split; [reflexivity|]. split; [reflexivity|]. split; [reflexivity|].
  eexists.
  destruct (completed_result_shows_four_cards (mount "job-1" 0) initial_view
              sample_completed sample_result _ _ 200 0
              eq_refl eq_refl eq_refl eq_refl eq_refl eq_refl)
    as (authors & kc & ps & fe & pc & Ha & _ & _ & _ & _ & Hr).
  simpl in Ha. simplify_eq.
  eexists. split; [reflexivity|]. split; [reflexivity|]. split; [exact Hr | reflexivity].
Defined.

(** C3 as stated fails: a completed response with a full result is shown
    with four cards, none of them the architecture deep-dive or the model
    file. *)
Lemma no_architecture_or_model_file_card :
  says sample_completed "completed" = true /\
  has_result sample_completed = true /\
  exists title authors panels,
    render (fetchData_settle (ok_json sample_completed) 0 (mount "job-1" 0))
    = Some (AnalysisScreen title authors panels) /\
    length panels = 4%nat /\
    existsb is_architecture panels = false /\
    existsb is_model_file panels = false.
Proof.
  split; [reflexivity|]. split; [reflexivity|].
  do 3 eexists. split; [reflexivity|]. split; [reflexivity|]. split; reflexivity.
Qed.






(** C7.  Once the effect's cleanup has run, on unmount or because the
    [jobId] changed, both timers are cleared and stay cleared: in whatever
    follows no timer fires and no status request is sent.  After an unmount
    the state cells are gone for good, and a page mounted anew starts from
    the initial values. *)
Theorem cleanup_clears_both_timers
    (w w0 : World) (es : list Event) (w' : World) :
  w0 = cleanup w \/ w0 = unmount w ->
  run es w0 = Some w' ->
  (pollingInterval w0 = None /\ progressInterval w0 = None) /\
  (pollingInterval w' = None /\ progressInterval w' = None) /\
  Forall (fun e => is_timer e = false) es /\
  requests w' = requests w /\
  (forall v, ui w = Some v -> fire Unmount w = Some (unmount w)) /\
  (w0 = unmount w ->
   ui w0 = None /\ ui w' = None /\
   forall job t0, ui (mount job t0) = Some initial_view).
Proof.
  intros Hw0 Hrun.
  assert (Hcl : pollingInterval w0 = None /\ progressInterval w0 = None /\
                requests w0 = requests w).
  { destruct Hw0 as [-> | ->]; simpl; auto. }
  destruct Hcl as (Hp & Hg & Hr).
  destruct (run_timers_cleared _ _ _ Hrun Hp Hg) as (Hp' & Hg' & Hr' & Hall).
  split; [auto|]. split; [auto|]. split; [exact Hall|].
  split; [congruence|]. split.
  - intros v Hv. simpl. rewrite Hv. reflexivity.
  - intros ->. split; [reflexivity|]. split; [|reflexivity].
    eapply run_unmounted; [exact Hrun | reflexivity].
Qed.

Lemma cleanup_clears_both_timers_witness :
  (unmount (mount "job-1" 0) = cleanup (mount "job-1" 0) \/
   unmount (mount "job-1" 0) = unmount (mount "job-1" 0)) /\
  run [Elapse 700; Settle (ok_json sample_in_progress) (1 # 2)] (unmount (mount "job-1" 0))
  = Some (after [Elapse 700; Settle (ok_json sample_in_progress) (1 # 2)]
                (unmount (mount "job-1" 0))) /\
  pollingInterval (after [Elapse 700; Settle (ok_json sample_in_progress) (1 # 2)]
                         (unmount (mount "job-1" 0))) = None /\
  progressInterval (after [Elapse 700; Settle (ok_json sample_in_progress) (1 # 2)]
                          (unmount (mount "job-1" 0))) = None /\
  ui (after [Elapse 700; Settle (ok_json sample_in_progress) (1 # 2)]
            (unmount (mount "job-1" 0))) = None.
Proof.
  assert (Hrun : run [Elapse 700; Settle (ok_json sample_in_progress) (1 # 2)]
                     (unmount (mount "job-1" 0))
                 = Some (after [Elapse 700; Settle (ok_json sample_in_progress) (1 # 2)]
                               (unmount (mount "job-1" 0))))
    by (vm_compute; reflexivity).
  split; [right; reflexivity|]. split; [exact Hrun|].
  destruct (cleanup_clears_both_timers (mount "job-1" 0) (unmount (mount "job-1" 0))
              _ _ (or_intror eq_refl) Hrun)
    as (_ & (Hp & Hg) & _ & _ & _ & Hu).
  destruct (Hu eq_refl) as (_ & Hui & _).
  auto.
Defined.

(** The counter of the closure, unlike the cell, can pass 90: the cap is
    applied to what is shown, not to the counter. *)
Example counter_can_pass_90 :
  exists w v,
    run slow_run (mount "job-1" 0) = Some w /\ ui w = Some v /\
    progressCounter w = 94 /\ progress v = 90 /\ inflight w = 14%nat.
Proof. do 2 eexists. vm_compute. auto. Qed.

(** C9.  In every run of the page, under every interleaving of settling
    polls and timer ticks, the progress cell never decreases and never
    exceeds 90. *)
Theorem progress_never_decreases_nor_exceeds_90
    (job : string) (t0 : Z) (es1 es2 : list Event) (w1 w2 : World) (v1 v2 : ViewState) :
  run es1 (mount job t0) = Some w1 ->
  run es2 w1 = Some w2 ->
  ui w1 = Some v1 ->
  ui w2 = Some v2 ->
  0 <= progress v1 /\ progress v1 <= progress v2 /\ progress v2 <= 90.
Proof.
  intros Hrun1 Hrun2 Hv1 Hv2.
  destruct (mount_progress job t0) as [Hc0 Hinv0].
  destruct (run_progress _ _ _ Hrun1 Hinv0) as [Hc1 Hinv1].
  destruct (run_progress _ _ _ Hrun2 Hinv1) as [Hc2 Hinv2].
  rewrite (Hinv1 _ Hv1), (Hinv2 _ Hv2). lia.
Qed.

Lemma progress_never_decreases_nor_exceeds_90_witness :
  run [Elapse 500; ProgressTimer] (mount "job-1" 0)
  = Some (after [Elapse 500; ProgressTimer] (mount "job-1" 0)) /\
  run [Settle (ok_json sample_in_progress) (4 # 5)]
      (after [Elapse 500; ProgressTimer] (mount "job-1" 0))
  = Some (after [Elapse 500; ProgressTimer; Settle (ok_json sample_in_progress) (4 # 5)]
                (mount "job-1" 0)) /\
  exists v1 v2,
    ui (after [Elapse 500; ProgressTimer] (mount "job-1" 0)) = Some v1 /\
    ui (after [Elapse 500; ProgressTimer; Settle (ok_json sample_in_progress) (4 # 5)]
              (mount "job-1" 0)) = Some v2 /\
    progress v1 = 1 /\ progress v2 = 6 /\
    0 <= progress v1 /\ progress v1 <= progress v2 /\ progress v2 <= 90.
Proof.
  assert (Hrun1 : run [Elapse 500; ProgressTimer] (mount "job-1" 0)
                  = Some (after [Elapse 500; ProgressTimer] (mount "job-1" 0)))
    by (vm_compute; reflexivity).
  assert (Hrun2 : run [Settle (ok_json sample_in_progress) (4 # 5)]
                      (after [Elapse 500; ProgressTimer] (mount "job-1" 0))
                  = Some (after [Elapse 500; ProgressTimer;
                                 Settle (ok_json sample_in_progress) (4 # 5)]
                                (mount "job-1" 0)))
    by (vm_compute; reflexivity).
  split; [exact Hrun1|]. split; [exact Hrun2|].
  do 2 eexists.
  split; [vm_compute; reflexivity|]. split; [vm_compute; reflexivity|].
  split; [reflexivity|]. split; [reflexivity|].
  refine (progress_never_decreases_nor_exceeds_90 "job-1" 0 _ _ _ _ _ _ Hrun1 Hrun2 _ _);
    vm_compute; reflexivity.
Defined.

End PageFacts.

(** * Properties of the chat panel *)
Module ChatFacts.
Import ChatPanel JSFacts.

(** ** The updater of the catch block *)

Lemma mark_last_failed_spec (prev : list ChatMessage) :
  length (mark_last_failed prev) = length prev /\
  (forall i : nat, (S i < length prev)%nat -> mark_last_failed prev !! i = prev !! i) /\
  last (mark_last_failed prev) = with_apology <$> last prev.
Proof.
  unfold mark_last_failed.
  destruct (0 <=? Z.of_nat (length prev) - 1) eqn:Hle.
  - apply Z.leb_le in Hle.
    assert (Hk : Z.to_nat (Z.of_nat (length prev) - 1) = Nat.pred (length prev)) by lia.
    rewrite Hk. split; [apply length_alter|]. split.
    + intros i Hi. apply list_lookup_alter_ne. lia.
    + rewrite !last_lookup, length_alter, list_lookup_alter.
      case_decide; [reflexivity | congruence].
  - apply Z.leb_gt in Hle. destruct prev as [|m prev]; simpl in *; [auto | lia].
Qed.

(** ** Running events *)

Lemma sendMessage_call_width (iso : string) (w : World) :
  panelWidth (st (sendMessage_call iso w)) = panelWidth (st w).
Proof. unfold sendMessage_call. case_match; reflexivity. Qed.

Lemma fire_width (e : Event) (w w' : World) :
  fire e w = Some w' -> width_in_bounds w -> width_in_bounds w'.
Proof.
  unfold width_in_bounds. intros Hfire Hw. destruct e; simpl in Hfire.
  - simplify_eq. unfold togglePanel. simpl. case_match; exact Hw.
  - case_match; simplify_eq. exact Hw.
  - case_match; simplify_eq. rewrite sendMessage_call_width. exact Hw.
  - case_match; simplify_eq. unfold handleKeyDown.
    case_match; [rewrite sendMessage_call_width|]; exact Hw.
  - destruct (posts w); simplify_eq.
    unfold sendMessage_settle. destruct o as [|[|] ? [|]]; exact Hw.
  - destruct (gets w); simplify_eq.
    unfold fetchChatHistory_settle. destruct o as [|[|] ? [[|]|]]; exact Hw.
  - case_match; simplify_eq. exact Hw.
  - case_match; simplify_eq. unfold handleMouseMove.
    destruct (negb (isResizing (st w))); [exact Hw|].
    destruct ((minWidth <=? innerWidth - clientX) && (innerWidth - clientX <=? maxWidth))
      eqn:Hin; [|exact Hw].
    apply andb_prop in Hin as [H1 H2]. apply Z.leb_le in H1. apply Z.leb_le in H2.
    simpl. lia.
  - case_match; simplify_eq. exact Hw.
Qed.

Lemma run_invariant (P : World -> Prop) :
  (forall e w w', fire e w = Some w' -> P w -> P w') ->
  forall es w w', run es w = Some w' -> P w -> P w'.
Proof.
  intros Hfire es. induction es as [|e es IH]; intros w w' Hrun HP; simpl in Hrun.
  - simplify_eq. exact HP.
  - destruct (fire e w) as [w1|] eqn:Hw1; [|discriminate]. simpl in Hrun.
    eapply IH; [exact Hrun | eapply Hfire; eauto].
Qed.

Lemma mount_width (job : string) : width_in_bounds (mount job).
Proof. unfold width_in_bounds, minWidth, maxWidth. simpl. lia. Qed.

(** ** The claims about the chat panel *)

(** C5.  Sending a message whose text is not blank posts exactly that text,
    as the [message] of the body, to [POST /api/jobs/{jobId}/chat], and
    appends the pending entry (timestamp, the text as query, empty
    response) to the local history.  When the POST succeeds the panel sends
    [GET /api/jobs/{jobId}/chat], and when that succeeds the local history is
    replaced by the log the server returned, in its order. *)
Theorem send_posts_text_then_refetches_log (w : World) (iso : string) :
  blank (message (st w)) = false ->
  let w1 := sendMessage_call iso w in
  requests w1
  = {| method := POST; url := "http://localhost:8000/api/jobs/" +:+ jobId w +:+ "/chat";
       body := Some (JObj [("message", JStr (message (st w)))]) |} :: requests w /\
  posts w1 = S (posts w) /\
  chatHistory (st w1)
  = chatHistory (st w) ++ [{| timestamp := iso; query := message (st w); response := "" |}] /\
  (forall w2 httpStatus,
     let w3 := sendMessage_settle (Responded true httpStatus (Some tt)) w2 in
     requests w3
     = {| method := GET; url := "http://localhost:8000/api/jobs/" +:+ jobId w2 +:+ "/chat";
          body := None |} :: requests w2 /\
     gets w3 = S (gets w2) /\
     chatHistory (st w3) = chatHistory (st w2)) /\
  (forall w4 httpStatus log,
     chatHistory (st (fetchChatHistory_settle (Responded true httpStatus (Some (Log log))) w4))
     = default [] log) /\
  (isLoading (st w) = false ->
   forall httpStatus httpStatus' log,
   exists w',
     run [ClickSend iso; PostSettled (Responded true httpStatus (Some tt));
          GetSettled (Responded true httpStatus' (Some (Log (Some log))))] w = Some w' /\
     chatHistory (st w') = log /\
     requests w'
     = {| method := GET; url := "http://localhost:8000/api/jobs/" +:+ jobId w +:+ "/chat";
          body := None |}
       :: {| method := POST;
             url := "http://localhost:8000/api/jobs/" +:+ jobId w +:+ "/chat";
             body := Some (JObj [("message", JStr (message (st w)))]) |}
       :: requests w).
Proof.
  intros Hblank w1. subst w1.
  assert (Htrim : String.eqb (trim (message (st w))) "" = false)
    by (rewrite trim_empty_iff_blank; exact Hblank).
  unfold sendMessage_call. rewrite Htrim. simpl.
  split; [reflexivity|]. split; [reflexivity|]. split; [reflexivity|].
  split; [intros w2 hs; simpl; auto|].
  split; [intros w4 hs log; reflexivity|].
  intros Hload hs hs' log. eexists. simpl.
  rewrite Hload, Htrim. simpl.
  unfold sendMessage_call. rewrite Htrim. simpl.
  split; [reflexivity|]. simpl. split; reflexivity.
Qed.

Lemma send_posts_text_then_refetches_log_witness :
  blank (message (st sample_world)) = false /\
  requests (sendMessage_call "2024-05-01T10:02:00.000Z" sample_world)
  = [{| method := POST; url := "http://localhost:8000/api/jobs/job-1/chat";
        body := Some (JObj [("message", JStr "Why scale by sqrt(d)?")]) |}] /\
  last (chatHistory (st (sendMessage_call "2024-05-01T10:02:00.000Z" sample_world)))
  = Some {| timestamp := "2024-05-01T10:02:00.000Z"; query := "Why scale by sqrt(d)?";
            response := "" |}.
Proof.
  split; [reflexivity|].
  destruct (send_posts_text_then_refetches_log sample_world "2024-05-01T10:02:00.000Z"
              eq_refl) as (Hreq & _ & Hhist & _).
  split; [exact Hreq|].
  rewrite Hhist. apply last_snoc.
Defined.

(** C8.  When a chat POST fails, the history keeps its length and every
    entry before the last, and its last entry keeps its query and its
    timestamp and gets the apology as its response; no other cell but
    [isLoading] changes and nothing is sent.  A failed GET of the chat
    history changes nothing at all, and a failed status fetch leaves the
    stored [data] as it was. *)
Theorem failed_requests_change_nothing_else (w : World) (o : FetchOutcome unit) :
  post_failed o = true ->
  let w' := sendMessage_settle o w in
  length (chatHistory (st w')) = length (chatHistory (st w)) /\
  (forall i : nat, (S i < length (chatHistory (st w)))%nat ->
                   chatHistory (st w') !! i = chatHistory (st w) !! i) /\
  last (chatHistory (st w')) = with_apology <$> last (chatHistory (st w)) /\
  (forall m, query (with_apology m) = query m /\ timestamp (with_apology m) = timestamp m /\
             response (with_apology m) = apology) /\
  (isOpen (st w') = isOpen (st w) /\ message (st w') = message (st w) /\
   panelWidth (st w') = panelWidth (st w) /\ isResizing (st w') = isResizing (st w) /\
   isLoading (st w') = false /\ requests w' = requests w) /\
  (forall og, get_failed og = true -> fetchChatHistory_settle og w = w) /\
  (forall (page : ResultsPage.World) v (os : FetchOutcome jsval) u,
     ResultsPage.ui page = Some v ->
     ResultsPage.failed_outcome os = true ->
     ResultsPage.data <$> ResultsPage.ui (ResultsPage.fetchData_settle os u page)
     = Some (ResultsPage.data v)).
Proof.
  intros Hfail w'. subst w'.
  assert (Heq : sendMessage_settle o w = setIsLoading false (setChatHistory mark_last_failed w)).
  { destruct o as [|[|] hs [[]|]]; simpl in Hfail; try discriminate; reflexivity. }
  rewrite Heq. simpl.
  destruct (mark_last_failed_spec (chatHistory (st w))) as (Hlen & Hkeep & Hlast).
  split; [exact Hlen|]. split; [exact Hkeep|]. split; [exact Hlast|].
  split; [intros m; auto|]. split; [auto 10|]. split.
  - intros og Hog. destruct og as [|[|] hs [[|log]|]]; simpl in Hog; try discriminate; reflexivity.
  - intros page v os u Hv Hos.
    rewrite (PageFacts.settle_failure _ _ _ Hos). simpl. rewrite Hv. reflexivity.
Qed.

Lemma failed_requests_change_nothing_else_witness :
  post_failed (Responded false 500 None) = true /\
  chatHistory (st (sendMessage_settle (Responded false 500 None) sample_world)) !! 0%nat
  = sample_log !! 0%nat /\
  last (chatHistory (st (sendMessage_settle (Responded false 500 None) sample_world)))
  = Some {| timestamp := "2024-05-01T10:01:00.000Z"; query := "And multi-head?";
            response := apology |}.
Proof.
  split; [reflexivity|].
  destruct (failed_requests_change_nothing_else sample_world (Responded false 500 None)
              eq_refl) as (_ & Hkeep & Hlast & _).
  split; [apply Hkeep; simpl; lia | exact Hlast].
Defined.

(** C10.  In every run of the panel from its initial width of 384 the width
    stays between 320 and 1200; a mouse move while resizing leaves the
    width as it is or sets it to a value within these bounds; and sending a
    message whose text is empty or only white space changes nothing: not the
    history, not any other cell, and no request is sent. *)
Theorem panel_width_bounded_and_blank_send_ignored
    (job : string) (es : list Event) (w : World) :
  run es (mount job) = Some w ->
  panelWidth (st (mount job)) = 384 /\
  320 <= panelWidth (st w) <= 1200 /\
  (forall innerWidth clientX,
     let w' := handleMouseMove innerWidth clientX w in
     w' = w \/
     (panelWidth (st w') = innerWidth - clientX /\ 320 <= panelWidth (st w') <= 1200 /\
      chatHistory (st w') = chatHistory (st w) /\ message (st w') = message (st w))) /\
  (forall iso,
     blank (message (st w)) = true ->
     sendMessage_call iso w = w /\ handleKeyDown "Enter" false iso w = w /\
     fire (ClickSend iso) w = None).
Proof.
  intros Hrun.
  pose proof (run_invariant _ fire_width _ _ _ Hrun (mount_width job)) as Hw.
  unfold width_in_bounds in Hw.
  split; [reflexivity|]. split; [exact Hw|]. split.
  - intros innerWidth clientX w'. subst w'. unfold handleMouseMove.
    destruct (negb (isResizing (st w))); [left; reflexivity|].
    destruct ((minWidth <=? innerWidth - clientX) && (innerWidth - clientX <=? maxWidth))
      eqn:Hin; [|left; reflexivity].
    apply andb_prop in Hin as [H1 H2]. apply Z.leb_le in H1. apply Z.leb_le in H2.
    right. simpl. unfold minWidth, maxWidth in *. auto.
  - intros iso Hblank.
    assert (Htrim : String.eqb (trim (message (st w))) "" = true)
      by (rewrite trim_empty_iff_blank; exact Hblank).
    unfold handleKeyDown, sendMessage_call. simpl. rewrite Htrim.
    rewrite orb_true_r. auto.
Qed.

Lemma panel_width_bounded_and_blank_send_ignored_witness :
  run [ClickToggle; Input "   "; MouseDownOnHandle; MouseMove 1440 840; MouseMove 1440 100]
      (mount "job-1")
  = Some (after [ClickToggle; Input "   "; MouseDownOnHandle; MouseMove 1440 840;
                 MouseMove 1440 100] (mount "job-1")) /\
  panelWidth (st (after [ClickToggle; Input "   "; MouseDownOnHandle; MouseMove 1440 840;
                         MouseMove 1440 100] (mount "job-1"))) = 600 /\
  320 <= 600 <= 1200 /\
  sendMessage_call "2024-05-01T10:02:00.000Z"
    (after [ClickToggle; Input "   "; MouseDownOnHandle; MouseMove 1440 840;
            MouseMove 1440 100] (mount "job-1"))
  = after [ClickToggle; Input "   "; MouseDownOnHandle; MouseMove 1440 840;
           MouseMove 1440 100] (mount "job-1").
Proof.
  assert (Hrun : run [ClickToggle; Input "   "; MouseDownOnHandle; MouseMove 1440 840;
                      MouseMove 1440 100] (mount "job-1")
                 = Some (after [ClickToggle; Input "   "; MouseDownOnHandle;
                                MouseMove 1440 840; MouseMove 1440 100] (mount "job-1")))
    by (vm_compute; reflexivity).
  assert (Hwidth : panelWidth (st (after [ClickToggle; Input "   "; MouseDownOnHandle;
                                          MouseMove 1440 840; MouseMove 1440 100]
                                         (mount "job-1"))) = 600)
    by (vm_compute; reflexivity).
  split; [exact Hrun|]. split; [exact Hwidth|].
  destruct (panel_width_bounded_and_blank_send_ignored "job-1" _ _ Hrun)
    as (_ & Hbounds & _ & Hblank).
  split; [rewrite Hwidth in Hbounds; exact Hbounds|].
  apply (Hblank "2024-05-01T10:02:00.000Z"). vm_compute. reflexivity.
Defined.

End ChatFacts.

(** * Strings *)
Module StringFacts.
Import MessageContent.

#[local] Arguments String.append : simpl nomatch.

Lemma app_nil_r (s : string) : s +:+ "" = s.
Proof. induction s as [|c s IH]; simpl; [reflexivity | rewrite IH; reflexivity]. Qed.

Lemma app_assoc (a b c : string) : (a +:+ b) +:+ c = a +:+ (b +:+ c).
Proof. induction a as [|x a IH]; simpl; [reflexivity | rewrite IH; reflexivity]. Qed.

Lemma length_app (a b : string) :
  String.length (a +:+ b) = (String.length a + String.length b)%nat.
Proof. induction a as [|x a IH]; simpl; [reflexivity | rewrite IH; reflexivity]. Qed.

Lemma length_zero (s : string) : String.length s = O -> s = "".
Proof. destruct s; [reflexivity | discriminate]. Qed.

Lemma rev_app (a b : string) : string_rev (a +:+ b) = string_rev b +:+ string_rev a.
Proof.
  induction a as [|x a IH]; simpl; [symmetry; apply app_nil_r|].
  rewrite IH. apply app_assoc.
Qed.

Lemma rev_involutive (s : string) : string_rev (string_rev s) = s.
Proof.
  induction s as [|c s IH]; simpl; [reflexivity|].
  rewrite rev_app, IH. reflexivity.
Qed.

Lemma rev_empty (s : string) : string_rev s = "" -> s = "".
Proof. intros H. rewrite <- (rev_involutive s), H. reflexivity. Qed.

Lemma stake_sdrop (n : nat) (s : string) : stake n s +:+ sdrop n s = s.
Proof.
  revert s. induction n as [|n IH]; intros [|c s]; simpl; try reflexivity.
  rewrite IH. reflexivity.
Qed.

Lemma sdrop_app (a b : string) : sdrop (String.length a) (a +:+ b) = b.
Proof. induction a as [|x a IH]; simpl; [reflexivity | exact IH]. Qed.

Lemma stake_app (a b : string) : stake (String.length a) (a +:+ b) = a.
Proof.
  induction a as [|x a IH]; simpl; [destruct b; reflexivity | rewrite IH; reflexivity].
Qed.

Lemma sdrop_add (a b : nat) (s : string) : sdrop (a + b) s = sdrop b (sdrop a s).
Proof.
  revert s. induction a as [|a IH]; intros s; simpl; [reflexivity|].
  destruct s as [|c s]; [destruct b; reflexivity | apply IH].
Qed.

Lemma length_sdrop (n : nat) (s : string) :
  String.length (sdrop n s) = (String.length s - n)%nat.
Proof.
  revert s. induction n as [|n IH]; intros [|c s]; simpl; try reflexivity; try lia.
  apply IH.
Qed.

Lemma length_stake (n : nat) (s : string) :
  (n <= String.length s)%nat -> String.length (stake n s) = n.
Proof.
  revert s. induction n as [|n IH]; intros [|c s] H; simpl in *; try reflexivity; try lia.
  rewrite IH; [reflexivity | lia].
Qed.

Lemma stake_all (s : string) : stake (String.length s) s = s.
Proof. induction s as [|c s IH]; simpl; [reflexivity | rewrite IH; reflexivity]. Qed.

Lemma all_chars_app (p : ascii -> bool) (a b : string) :
  all_chars p (a +:+ b) = all_chars p a && all_chars p b.
Proof.
  induction a as [|x a IH]; simpl; [reflexivity|].
  rewrite IH, andb_assoc. reflexivity.
Qed.

Lemma all_chars_rev (p : ascii -> bool) (s : string) :
  all_chars p (string_rev s) = all_chars p s.
Proof.
  induction s as [|c s IH]; simpl; [reflexivity|].
  rewrite all_chars_app, IH. simpl. rewrite andb_true_r, andb_comm. reflexivity.
Qed.

Lemma backquotes_app (a b : string) :
  backquotes (a +:+ b) = (backquotes a + backquotes b)%nat.
Proof. induction a as [|x a IH]; simpl; [reflexivity | rewrite IH; lia]. Qed.

(** ** [trim] *)

Lemma trimStart_clean (s : string) : starts_clean (trimStart s).
Proof.
  induction s as [|c s IH]; simpl; [exact I|].
  destruct (is_whitespace c) eqn:Hc; [exact IH | exact Hc].
Qed.

Lemma trimStart_fixed (s : string) : starts_clean s -> trimStart s = s.
Proof. destruct s as [|c s]; simpl; [reflexivity|]. intros ->. reflexivity. Qed.

Lemma trimStart_keeps_last (a : string) (c : ascii) :
  is_whitespace c = false ->
  exists a', trimStart (a +:+ String c "") = a' +:+ String c "".
Proof.
  intros Hc. induction a as [|d a IH]; simpl.
  - rewrite Hc. exists "". reflexivity.
  - destruct (is_whitespace d); [exact IH|].
    exists (String d a). reflexivity.
Qed.

Lemma trimEnd_clean (s : string) : starts_clean s -> starts_clean (trimEnd s).
Proof.
  destruct s as [|c s]; simpl; intros Hc; [exact I|].
  unfold trimEnd. simpl.
  destruct (trimStart_keeps_last (string_rev s) c Hc) as [a' ->].
  rewrite rev_app. simpl. exact Hc.
Qed.

Lemma trimEnd_idempotent (s : string) : trimEnd (trimEnd s) = trimEnd s.
Proof.
  unfold trimEnd. rewrite rev_involutive.
  rewrite (trimStart_fixed _ (trimStart_clean _)). reflexivity.
Qed.

(** Trimming twice is trimming once. *)
Lemma trim_idempotent (s : string) : trim (trim s) = trim s.
Proof.
  unfold trim.
  rewrite (trimStart_fixed (trimEnd (trimStart s))).
  - apply trimEnd_idempotent.
  - apply trimEnd_clean, trimStart_clean.
Qed.

(** A string without white space is its own trim. *)
Lemma trim_no_whitespace (s : string) :
  all_chars (fun c => negb (is_whitespace c)) s = true -> trim s = s.
Proof.
  intros H. unfold trim, trimEnd.
  assert (Hclean : forall t, all_chars (fun c => negb (is_whitespace c)) t = true ->
                             starts_clean t).
  { intros [|c t]; simpl; [auto|]. intros Ht. apply andb_prop in Ht as [Hc _].
    apply negb_true_iff in Hc. exact Hc. }
  rewrite (trimStart_fixed s (Hclean s H)).
  rewrite (trimStart_fixed (string_rev s)).
  - apply rev_involutive.
  - apply Hclean. rewrite all_chars_rev. exact H.
Qed.

(** The trim of a string occurs in it. *)
Lemma trimStart_suffix (s : string) : exists a, s = a +:+ trimStart s.
Proof.
  induction s as [|c s IH]; simpl; [exists ""; reflexivity|].
  destruct (is_whitespace c).
  - destruct IH as [a Ha]. exists (String c a). simpl. rewrite <- Ha. reflexivity.
  - exists "". reflexivity.
Qed.

Lemma trimEnd_prefix (s : string) : exists b, s = trimEnd s +:+ b.
Proof.
  unfold trimEnd. destruct (trimStart_suffix (string_rev s)) as [a Ha].
  exists (string_rev a).
  rewrite <- rev_app, <- Ha. symmetry. apply rev_involutive.
Qed.

Lemma trim_occurs (s : string) : occurs (trim s) s.
Proof.
  unfold trim, occurs.
  destruct (trimStart_suffix s) as [a Ha].
  destruct (trimEnd_prefix (trimStart s)) as [b Hb].
  exists a, b. rewrite <- Hb. exact Ha.
Qed.

Lemma word_not_whitespace (c : ascii) : is_word c = true -> is_whitespace c = false.
Proof.
  unfold is_word, is_whitespace. intros H.
  destruct (nat_of_ascii c <=? 13)%nat eqn:H13.
  - apply Nat.leb_le in H13.
    repeat (apply orb_prop in H as [H|H]);
      try (apply andb_prop in H as [H1 H2]; apply Nat.leb_le in H1; lia);
      apply Nat.eqb_eq in H; lia.
  - rewrite andb_false_r. simpl.
    destruct (nat_of_ascii c =? 32)%nat eqn:H32; simpl.
    + apply Nat.eqb_eq in H32.
      repeat (apply orb_prop in H as [H|H]);
        try (apply andb_prop in H as [H1 H2]; apply Nat.leb_le in H1;
             apply Nat.leb_le in H2; lia);
        apply Nat.eqb_eq in H; lia.
    + destruct (nat_of_ascii c =? 160)%nat eqn:H160; [|reflexivity].
      apply Nat.eqb_eq in H160.
      repeat (apply orb_prop in H as [H|H]);
        try (apply andb_prop in H as [H1 H2]; apply Nat.leb_le in H1;
             apply Nat.leb_le in H2; lia);
        apply Nat.eqb_eq in H; lia.
Qed.

End StringFacts.

(** * The message renderer *)
Module MessageFacts.
Import MessageContent StringFacts.

#[local] Arguments String.append : simpl nomatch.

(** ** The pieces of the expression *)

Lemma after_fence_spec (s r : string) : after_fence s = Some r <-> s = fence +:+ r.
Proof.
  split.
  - destruct s as [|a [|b [|c s]]]; simpl; try discriminate.
    destruct (Ascii.eqb a "`") eqn:Ha; simpl; [|discriminate].
    destruct (Ascii.eqb b "`") eqn:Hb; simpl; [|discriminate].
    destruct (Ascii.eqb c "`") eqn:Hc; simpl; [|discriminate].
    apply Ascii.eqb_eq in Ha, Hb, Hc. intros [= ->]. subst. reflexivity.
  - intros ->. reflexivity.
Qed.

Lemma after_fence_backquote (c : ascii) (s : string) :
  Ascii.eqb c "`" = false -> after_fence (String c s) = None.
Proof. intros H. destruct s as [|b [|d s]]; simpl; try reflexivity. rewrite H. reflexivity. Qed.

Lemma word_run_spec (s w r : string) :
  word_run s = (w, r) -> s = w +:+ r /\ all_chars is_word w = true.
Proof.
  revert w r. induction s as [|c s IH]; simpl; intros w r H.
  - injection H as <- <-. auto.
  - destruct (is_word c) eqn:Hc.
    + destruct (word_run s) as [w' r'] eqn:Hrun. injection H as <- <-.
      destruct (IH _ _ eq_refl) as [-> Hw]. simpl. rewrite Hc, Hw. auto.
    + injection H as <- <-. auto.
Qed.

Lemma word_run_app (w : string) (c : ascii) (r : string) :
  all_chars is_word w = true -> is_word c = false ->
  word_run (w +:+ String c r) = (w, String c r).
Proof.
  intros Hw Hc. induction w as [|x w IH]; simpl in *.
  - rewrite Hc. reflexivity.
  - apply andb_prop in Hw as [Hx Hw]. rewrite Hx, (IH Hw). reflexivity.
Qed.

Lemma until_fence_spec (s b r : string) :
  until_fence s = Some (b, r) -> s = b +:+ fence +:+ r /\ has_fence b = false.
Proof.
  revert b r. induction s as [|c s IH]; intros b r H.
  - simpl in H. discriminate.
  - cbn [until_fence] in H.
    destruct (after_fence (String c s)) as [rest|] eqn:Hf.
    + injection H as <- <-. apply after_fence_spec in Hf. auto.
    + destruct (until_fence s) as [[b' r']|] eqn:Hu; [|discriminate].
      injection H as <- <-. destruct (IH _ _ eq_refl) as [-> Hb].
      split; [reflexivity|].
      cbn [has_fence].
      destruct (after_fence (String c b')) as [x|] eqn:Hfb; [|exact Hb].
      exfalso. apply after_fence_spec in Hfb.
      assert (Hsome : after_fence (String c (b' +:+ fence +:+ r')) = Some (x +:+ fence +:+ r')).
      { apply after_fence_spec. change (String c (b' +:+ fence +:+ r'))
          with (String c b' +:+ fence +:+ r'). rewrite Hfb. apply app_assoc. }
      congruence.
Qed.

Lemma until_fence_plain (b r : string) :
  backquotes b = O -> until_fence (b +:+ fence +:+ r) = Some (b, r).
Proof.
  intros Hb. induction b as [|c b IH]; [reflexivity|].
  simpl in Hb. destruct (Ascii.eqb c "`") eqn:Hc; [discriminate|].
  change (String c b +:+ fence +:+ r) with (String c (b +:+ fence +:+ r)).
  cbn [until_fence]. rewrite (after_fence_backquote _ _ Hc), (IH Hb). reflexivity.
Qed.

Lemma match_at_spec (s lang code rest : string) :
  match_at s = Some (lang, code, rest) ->
  s = fence +:+ lang +:+ LF +:+ code +:+ fence +:+ rest /\
  all_chars is_word lang = true /\ has_fence code = false.
Proof.
  unfold match_at. intros H.
  destruct (after_fence s) as [r1|] eqn:Hf; [|discriminate]. simpl in H.
  apply after_fence_spec in Hf. subst s.
  destruct (word_run r1) as [w r2] eqn:Hw.
  destruct (word_run_spec _ _ _ Hw) as [-> Hword].
  destruct r2 as [|c r3]; [discriminate|].
  destruct (Ascii.eqb c "010") eqn:Hc; [|discriminate].
  apply Ascii.eqb_eq in Hc. subst c.
  destruct (until_fence r3) as [[b r4]|] eqn:Hu; [|discriminate]. simpl in H.
  injection H as <- <- <-.
  destruct (until_fence_spec _ _ _ Hu) as [-> Hb].
  auto.
Qed.

Lemma match_at_block (lang code rest : string) :
  all_chars is_word lang = true -> backquotes code = O ->
  match_at (fence +:+ lang +:+ LF +:+ code +:+ fence +:+ rest) = Some (lang, code, rest).
Proof.
  intros Hl Hc. unfold match_at.
  replace (after_fence (fence +:+ lang +:+ LF +:+ code +:+ fence +:+ rest))
    with (Some (lang +:+ LF +:+ code +:+ fence +:+ rest)) by reflexivity.
  simpl. unfold LF.
  change (String "010" "" +:+ code +:+ fence +:+ rest)
    with (String "010" (code +:+ fence +:+ rest)).
  rewrite (word_run_app lang "010" _ Hl eq_refl).
  simpl. pose proof (until_fence_plain code rest Hc) as Hu. simpl in Hu.
  rewrite Hu. reflexivity.
Qed.

(** ** The leftmost match *)

Lemma search_spec (s : string) (k : nat) (lang code rest : string) :
  search s = Some (k, (lang, code, rest)) ->
  (k <= String.length s)%nat /\
  match_at (sdrop k s) = Some (lang, code, rest) /\
  (forall j, (j < k)%nat -> match_at (sdrop j s) = None).
Proof.
  revert k. induction s as [|c s IH]; intros k H.
  - simpl in H. discriminate.
  - cbn [search] in H. destruct (match_at (String c s)) as [m|] eqn:Hm.
    + injection H as <- ->. split; [simpl; lia|]. split; [exact Hm|]. intros j Hj. lia.
    + destruct (search s) as [[k' m']|] eqn:Hs; [|discriminate].
      injection H as <- ->. destruct (IH _ eq_refl) as (Hk & Hmatch & Hleft).
      split; [simpl; lia|]. split; [exact Hmatch|].
      intros [|j] Hj; [exact Hm | apply Hleft; lia].
Qed.

Lemma search_none (s : string) :
  search s = None -> forall j, match_at (sdrop j s) = None.
Proof.
  induction s as [|c s IH]; intros H j.
  - destruct j; reflexivity.
  - cbn [search] in H. destruct (match_at (String c s)) as [m|] eqn:Hm; [discriminate|].
    destruct (search s) as [[k' m']|] eqn:Hs; [discriminate|].
    destruct j as [|j]; [exact Hm | apply IH; reflexivity].
Qed.

(** Where the leftmost match is, the text splits into what is before it,
    the block and what is left. *)
Lemma search_split (s : string) (k : nat) (lang code rest : string) :
  search s = Some (k, (lang, code, rest)) ->
  s = stake k s +:+ block lang code +:+ rest /\
  String.length (stake k s) = k /\
  all_chars is_word lang = true /\ has_fence code = false.
Proof.
  intros H. destruct (search_spec _ _ _ _ _ H) as (Hk & Hm & _).
  destruct (match_at_spec _ _ _ _ Hm) as (Hs & Hl & Hc).
  split.
  - rewrite <- (stake_sdrop k s) at 1. rewrite Hs. unfold block.
    rewrite !app_assoc. reflexivity.
  - split; [apply length_stake; exact Hk | auto].
Qed.

Lemma has_fence_sdrop (s : string) (j : nat) (r : string) :
  after_fence (sdrop j s) = Some r -> has_fence s = true.
Proof.
  revert j. induction s as [|c s IH]; intros j H.
  - destruct j; simpl in H; discriminate.
  - cbn [has_fence]. destruct j as [|j]; cbn [sdrop] in H.
    + rewrite H. reflexivity.
    + destruct (after_fence (String c s)); [reflexivity | eapply IH; exact H].
Qed.

Lemma search_needs_fence (s : string) : has_fence s = false -> search s = None.
Proof.
  intros Hno. destruct (search s) as [[k [[lang code] rest]]|] eqn:H; [|reflexivity].
  destruct (search_spec _ _ _ _ _ H) as (_ & Hm & _).
  unfold match_at in Hm.
  destruct (after_fence (sdrop k s)) as [r|] eqn:Hf; [|discriminate].
  rewrite (has_fence_sdrop _ _ _ Hf) in Hno. discriminate.
Qed.

Lemma search_needs_six_backquotes (s : string) :
  (backquotes s < 6)%nat -> search s = None.
Proof.
  intros Hlt. destruct (search s) as [[k [[lang code] rest]]|] eqn:H; [|reflexivity].
  destruct (search_split _ _ _ _ _ H) as (Hs & _).
  rewrite Hs in Hlt. unfold block in Hlt.
  rewrite !backquotes_app in Hlt. simpl in Hlt. lia.
Qed.

Lemma search_here (s : string) (m : string * string * string) :
  match_at s = Some m -> search s = Some (O, m).
Proof. intros H. destruct s; cbn [search]; rewrite H; reflexivity. Qed.

Lemma search_skip (c : ascii) (s : string) :
  Ascii.eqb c "`" = false ->
  search (String c s)
  = match search s with
    | Some (k, m) => Some (S k, m)
    | None => None
    end.
Proof.
  intros H. cbn [search]. unfold match_at.
  rewrite (after_fence_backquote _ _ H). reflexivity.
Qed.

Lemma search_plain_prefix (pre lang code rest : string) :
  backquotes pre = O -> all_chars is_word lang = true -> backquotes code = O ->
  search (pre +:+ block lang code +:+ rest) = Some (String.length pre, (lang, code, rest)).
Proof.
  intros Hpre Hl Hc.
  assert (Hblock : block lang code +:+ rest
                   = fence +:+ lang +:+ LF +:+ code +:+ fence +:+ rest)
    by (unfold block; rewrite !app_assoc; reflexivity).
  induction pre as [|c pre IH].
  - change ("" +:+ block lang code +:+ rest) with (block lang code +:+ rest).
    rewrite Hblock. apply search_here, match_at_block; assumption.
  - simpl in Hpre. destruct (Ascii.eqb c "`") eqn:Hq; [discriminate|].
    change (String c pre +:+ block lang code +:+ rest)
      with (String c (pre +:+ block lang code +:+ rest)).
    rewrite (search_skip _ _ Hq), (IH Hpre). reflexivity.
Qed.

(** ** The loop *)

Lemma block_length (lang code : string) :
  String.length (block lang code) = (7 + String.length lang + String.length code)%nat.
Proof. unfold block, fence, LF. rewrite !length_app. simpl. lia. Qed.

Lemma search_length (s : string) (k : nat) (lang code rest : string) :
  search s = Some (k, (lang, code, rest)) ->
  String.length s = (k + String.length (block lang code) + String.length rest)%nat.
Proof.
  intros H. destruct (search_split _ _ _ _ _ H) as (Hs & Hk & _).
  rewrite Hs at 1. rewrite !length_app, Hk. lia.
Qed.

Lemma all_chars_impl (p q : ascii -> bool) (s : string) :
  (forall c, p c = true -> q c = true) -> all_chars p s = true -> all_chars q s = true.
Proof.
  intros Hpq. induction s as [|c s IH]; simpl; [auto|].
  intros H. apply andb_prop in H as [Hc Hs]. rewrite (Hpq _ Hc), (IH Hs). reflexivity.
Qed.

Lemma trim_word (lang : string) : all_chars is_word lang = true -> trim lang = lang.
Proof.
  intros H. apply trim_no_whitespace. eapply all_chars_impl; [|exact H].
  intros c Hc. rewrite (word_not_whitespace _ Hc). reflexivity.
Qed.

Lemma language_of_word (lang : string) :
  all_chars is_word lang = true ->
  language_of lang <> "" /\ all_chars is_word (language_of lang) = true.
Proof.
  intros H. unfold language_of. destruct (String.eqb lang "") eqn:He.
  - split; [discriminate | reflexivity].
  - apply String.eqb_neq in He. auto.
Qed.

Lemma text_part_length (s : string) :
  (if (0 <? String.length s)%nat then [TextPart s] else []) = text_part s.
Proof. destruct s; reflexivity. Qed.

(** One turn of the loop, on what is left of the content. *)
Lemma parts_of_step (fuel : nat) (s : string) :
  parts_of (S fuel) s
  = match search s with
    | Some (k, (lang, code, rest)) =>
        (if (0 <? k)%nat then [TextPart (stake k s)] else [])
        ++ CodePart (if String.eqb (trim lang) "" then "text" else trim lang) (trim code)
           :: parts_of fuel rest
    | None => text_part s
    end.
Proof.
  cbn [parts_of]. destruct (search s) as [[k [[lang code] rest]]|]; [reflexivity|].
  apply text_part_length.
Qed.

(** With the length of the text as fuel the loop runs to its end: more
    fuel changes nothing. *)
Lemma parts_of_fuel (f f' : nat) (s : string) :
  (String.length s <= f)%nat -> (String.length s <= f')%nat ->
  parts_of f s = parts_of f' s.
Proof.
  revert f' s. induction f as [|f IH]; intros f' s Hf Hf'.
  - apply Nat.le_0_r, length_zero in Hf. subst s. destruct f'; reflexivity.
  - destruct f' as [|f'].
    + apply Nat.le_0_r, length_zero in Hf'. subst s. reflexivity.
    + rewrite !parts_of_step.
      destruct (search s) as [[k [[lang code] rest]]|] eqn:Hs; [|reflexivity].
      pose proof (search_length _ _ _ _ _ Hs) as Hlen. rewrite block_length in Hlen.
      rewrite (IH f' rest); [reflexivity | lia | lia].
Qed.

Lemma parts_step (s : string) :
  parts s
  = match search s with
    | Some (k, (lang, code, rest)) =>
        text_part (stake k s) ++ CodePart (language_of lang) (trim code) :: parts rest
    | None => text_part s
    end.
Proof.
  unfold parts. destruct (search s) as [[k [[lang code] rest]]|] eqn:Hs.
  - pose proof (search_length _ _ _ _ _ Hs) as Hlen. rewrite block_length in Hlen.
    destruct (search_split _ _ _ _ _ Hs) as (_ & Hk & Hl & _).
    destruct (String.length s) as [|n] eqn:Hn; [lia|].
    rewrite parts_of_step, Hs, (trim_word _ Hl).
    rewrite (parts_of_fuel n (String.length rest) rest) by lia.
    f_equal. rewrite <- text_part_length, Hk. reflexivity.
  - destruct (String.length s) as [|n] eqn:Hn.
    + apply length_zero in Hn. subst s. reflexivity.
    + rewrite parts_of_step, Hs. reflexivity.
Qed.

Lemma ltb_shift (i k : nat) : (i <? i + k)%nat = (0 <? k)%nat.
Proof. destruct (Nat.ltb_spec i (i + k)), (Nat.ltb_spec 0 k); lia. Qed.

Lemma ltb_minus (i n : nat) : (i <? n)%nat = (0 <? n - i)%nat.
Proof. destruct (Nat.ltb_spec i n), (Nat.ltb_spec 0 (n - i)); lia. Qed.

(** The loop on an index into the content and the loop on what is left of
    the content push the same parts. *)
Lemma collect_parts_of (fuel : nat) (content : string) (lastIndex : nat) :
  (lastIndex <= String.length content)%nat ->
  collect fuel content lastIndex = parts_of fuel (sdrop lastIndex content).
Proof.
  revert lastIndex. induction fuel as [|fuel IH]; intros i Hi;
    cbn [collect parts_of]; unfold exec;
    destruct (search (sdrop i content)) as [[k [[lang code] rest]]|] eqn:Hs;
    cbn [index whole group1 group2].
  - rewrite ltb_shift.
    unfold slice. replace (i + k - i)%nat with k by lia. reflexivity.
  - rewrite length_sdrop, <- ltb_minus. unfold slice.
    rewrite <- (length_sdrop i content), stake_all. reflexivity.
  - rewrite ltb_shift.
    unfold slice. replace (i + k - i)%nat with k by lia.
    pose proof (search_length _ _ _ _ _ Hs) as Hlen. rewrite length_sdrop in Hlen.
    destruct (search_split _ _ _ _ _ Hs) as (Hsplit & Hk & _).
    assert (Hwhole : "```" +:+ lang +:+ String "010" code +:+ "```" = block lang code)
      by reflexivity.
    rewrite Hwhole. rewrite IH by lia.
    assert (Hrest : sdrop (i + k + String.length (block lang code)) content = rest).
    { rewrite <- Nat.add_assoc, sdrop_add.
      remember (sdrop i content) as t eqn:Ht. clear Ht.
      remember (stake k t) as p eqn:Hp. clear Hp. subst k t.
      rewrite sdrop_add, !sdrop_app. reflexivity. }
    rewrite Hrest. reflexivity.
  - rewrite length_sdrop, <- ltb_minus. unfold slice.
    rewrite <- (length_sdrop i content), stake_all. reflexivity.
Qed.

Lemma render_parts (content : string) :
  renderMessageContent content
  = match parts content with
    | [] => Paragraph content
    | p :: ps => Blocks (p :: ps)
    end.
Proof.
  unfold renderMessageContent. rewrite collect_parts_of by lia.
  change (parts_of (String.length content) (sdrop 0 content)) with (parts content).
  destruct (parts content); reflexivity.
Qed.

Lemma parts_well_formed (fuel : nat) (s : string) : Forall well_formed (parts_of fuel s).
Proof.
  revert s. induction fuel as [|fuel IH]; intros s; cbn [parts_of];
    destruct (search s) as [[k [[lang code] rest]]|] eqn:Hs.
  all: try (destruct s; simpl; repeat constructor; discriminate).
  all: destruct (search_split _ _ _ _ _ Hs) as (_ & Hk & Hl & _);
       rewrite (trim_word _ Hl); fold (language_of lang);
       destruct (language_of_word _ Hl) as [Hne Hw];
       assert (Hcode : well_formed (CodePart (language_of lang) (trim code)))
         by (simpl; auto using trim_idempotent);
       assert (Htext : Forall well_formed
                         (if (0 <? k)%nat then [TextPart (stake k s)] else []))
         by (destruct k as [|k'];
             [apply Forall_nil_2 | change (Forall well_formed [TextPart (stake (S k') s)])];
             apply Forall_cons_2; [|apply Forall_nil_2];
             unfold well_formed; intros He; rewrite He in Hk; simpl in Hk;
             discriminate).
  - apply Forall_app. split; [exact Htext|].
    apply Forall_cons_2; [exact Hcode | apply Forall_nil_2].
  - apply Forall_app. split; [exact Htext|].
    apply Forall_cons_2; [exact Hcode | apply IH].
Qed.

Lemma occurs_refl (s : string) : occurs s s.
Proof. exists "", "". rewrite app_nil_r. reflexivity. Qed.

Lemma occurs_trans (a b c : string) : occurs a b -> occurs b c -> occurs a c.
Proof.
  intros (x & y & ->) (x' & y' & ->). exists (x' +:+ x), (y +:+ y').
  rewrite !app_assoc. reflexivity.
Qed.

Lemma occurs_inside (a x y : string) : occurs a (x +:+ a +:+ y).
Proof. exists x, y. reflexivity. Qed.

Lemma occurs_right (a x y : string) : occurs a y -> occurs a (x +:+ y).
Proof.
  intros (u & v & ->). exists (x +:+ u), v. rewrite !app_assoc. reflexivity.
Qed.

Lemma parts_occur (n : nat) (s : string) (p : Part) :
  (String.length s <= n)%nat -> In p (parts s) -> occurs (part_content p) s.
Proof.
  revert s. induction n as [|n IH]; intros s Hn Hin; rewrite parts_step in Hin.
  - apply Nat.le_0_r, length_zero in Hn. subst s. simpl in Hin. contradiction.
  - destruct (search s) as [[k [[lang code] rest]]|] eqn:Hs.
    + destruct (search_split _ _ _ _ _ Hs) as (Hsplit & Hk & _).
      pose proof (search_length _ _ _ _ _ Hs) as Hlen. rewrite block_length in Hlen.
      apply in_app_or in Hin as [Hin | [<- | Hin]].
      * unfold text_part in Hin. destruct (String.eqb (stake k s) ""); [contradiction|].
        destruct Hin as [<- | []]. simpl. rewrite Hsplit at 2.
        exists "", (block lang code +:+ rest). reflexivity.
      * simpl. eapply occurs_trans; [apply trim_occurs|].
        rewrite Hsplit. apply occurs_right. unfold block.
        rewrite !app_assoc. do 3 apply occurs_right.
        exists "", (fence +:+ rest). reflexivity.
      * rewrite Hsplit. do 2 apply occurs_right. apply IH; [lia | exact Hin].
    + unfold text_part in Hin. destruct (String.eqb s ""); [contradiction|].
      destruct Hin as [<- | []]. apply occurs_refl.
Qed.

(** ** What the renderer guarantees *)

(** X1.  A response without three backquotes in a row, or with fewer than
    six backquotes in all, has no code block: an empty response is shown as
    one empty paragraph, any other as a single text part holding the
    response unchanged. *)
Theorem response_without_block_is_one_text (content : string) :
  has_fence content = false \/ (backquotes content < 6)%nat ->
  renderMessageContent content
  = if String.eqb content "" then Paragraph "" else Blocks [TextPart content].
Proof.
  intros H.
  assert (Hs : search content = None)
    by (destruct H; [apply search_needs_fence | apply search_needs_six_backquotes]; assumption).
  rewrite render_parts, parts_step, Hs.
  destruct content; reflexivity.
Qed.

Lemma response_without_block_is_one_text_witness :
  (has_fence "Use `x` and ``y``." = false \/ (backquotes "Use `x` and ``y``." < 6)%nat) /\
  renderMessageContent "Use `x` and ``y``." = Blocks [TextPart "Use `x` and ``y``."].
Proof.
  split; [left; reflexivity|].
  apply (response_without_block_is_one_text "Use `x` and ``y``."). left. reflexivity.
Defined.

(** X2.  Whatever the response, the renderer shows either the empty
    paragraph (for the empty response only) or a list of parts that is not
    empty, in which no text part is empty, every code block has a language
    made of word characters ("text" when none was given) and a content
    without white space at either end. *)
Theorem rendered_parts_are_well_formed (content : string) :
  match renderMessageContent content with
  | Paragraph shown => content = "" /\ shown = ""
  | Blocks shown => content <> "" /\ shown <> [] /\ Forall well_formed shown
  end.
Proof.
  rewrite render_parts.
  destruct (parts content) as [|p ps] eqn:Hp.
  - rewrite parts_step in Hp.
    destruct (search content) as [[k [[lang code] rest]]|].
    + destruct (text_part (stake k content)); discriminate.
    + destruct content; [auto | discriminate].
  - split; [|split; [discriminate|]].
    + intros ->. discriminate.
    + rewrite <- Hp. apply parts_well_formed.
Qed.

(** X3.  A block that follows text without backquotes, with a language of
    word characters and a code without backquotes, is shown as that text
    (when there is any), then the code trimmed under its language, then
    whatever the rest of the response renders to. *)
Theorem block_after_plain_text (pre lang code post : string) :
  backquotes pre = O -> all_chars is_word lang = true -> backquotes code = O ->
  renderMessageContent (pre +:+ block lang code +:+ post)
  = Blocks (text_part pre
            ++ CodePart (language_of lang) (trim code)
               :: collect (String.length post) post 0).
Proof.
  intros Hpre Hlang Hcode.
  rewrite render_parts, parts_step, (search_plain_prefix _ _ _ _ Hpre Hlang Hcode).
  rewrite stake_app, collect_parts_of by lia.
  change (parts_of (String.length post) (sdrop 0 post)) with (parts post).
  destruct (text_part pre); reflexivity.
Qed.

Lemma block_after_plain_text_witness :
  backquotes "Run it: " = O /\ all_chars is_word "python" = true /\
  backquotes (LF +:+ "print(1)" +:+ LF) = O /\
  renderMessageContent sample_response
  = Blocks [TextPart "Run it: "; CodePart "python" "print(1)";
            TextPart " and read the output."].
Proof.
  split; [reflexivity|]. split; [reflexivity|]. split; [reflexivity|].
  unfold sample_response.
  rewrite (block_after_plain_text "Run it: " "python" (LF +:+ "print(1)" +:+ LF)
             " and read the output." eq_refl eq_refl eq_refl).
  reflexivity.
Defined.

(** X4.  The renderer invents nothing: the content of every part it shows,
    text or code, occurs in the response. *)
Theorem rendered_parts_occur_in_response (content : string) (shown : list Part) (p : Part) :
  renderMessageContent content = Blocks shown ->
  In p shown ->
  occurs (part_content p) content.
Proof.
  rewrite render_parts. intros Hr Hin.
  destruct (parts content) as [|q qs] eqn:Hp; [discriminate|].
  injection Hr as <-. rewrite <- Hp in Hin.
  eapply parts_occur; [apply Nat.le_refl | exact Hin].
Qed.

Lemma rendered_parts_occur_in_response_witness :
  renderMessageContent sample_response
  = Blocks [TextPart "Run it: "; CodePart "python" "print(1)";
            TextPart " and read the output."] /\
  In (CodePart "python" "print(1)")
     [TextPart "Run it: "; CodePart "python" "print(1)"; TextPart " and read the output."] /\
  occurs "print(1)" sample_response.
Proof.
  assert (Hr : renderMessageContent sample_response
               = Blocks [TextPart "Run it: "; CodePart "python" "print(1)";
                         TextPart " and read the output."])
    by (vm_compute; reflexivity).
  assert (Hin : In (CodePart "python" "print(1)")
                   [TextPart "Run it: "; CodePart "python" "print(1)";
                    TextPart " and read the output."])
    by (right; left; reflexivity).
  split; [exact Hr|]. split; [exact Hin|].
  exact (rendered_parts_occur_in_response _ _ _ Hr Hin).
Defined.

(** X5.  When [exec] finds a match from [lastIndex] on, the match is a
    block: the content is what precedes [match.index], then [match[0]],
    then what follows; [match[0]] is a fence, the first group, a line feed,
    the second group and a fence; the first group is made of word
    characters, the second holds no fence, and no match starts between
    [lastIndex] and [match.index]. *)
Theorem exec_finds_the_leftmost_block (content : string) (lastIndex : nat) (m : Match) :
  (lastIndex <= String.length content)%nat ->
  exec content lastIndex = Some m ->
  (lastIndex <= index m)%nat /\
  (index m + String.length (whole m) <= String.length content)%nat /\
  whole m = block (group1 m) (group2 m) /\
  content = stake (index m) content +:+ whole m
            +:+ sdrop (index m + String.length (whole m)) content /\
  all_chars is_word (group1 m) = true /\
  has_fence (group2 m) = false /\
  (forall j, (lastIndex <= j < index m)%nat -> match_at (sdrop j content) = None).
Proof.
  intros Hi Hexec. unfold exec in Hexec.
  destruct (search (sdrop lastIndex content)) as [[k [[lang code] rest]]|] eqn:Hs;
    [|discriminate].
  assert (Hidx : index m = (lastIndex + k)%nat) by (injection Hexec as <-; reflexivity).
  assert (Hwhole : whole m = block lang code) by (injection Hexec as <-; reflexivity).
  assert (Hg1 : group1 m = lang) by (injection Hexec as <-; reflexivity).
  assert (Hg2 : group2 m = code) by (injection Hexec as <-; reflexivity).
  rewrite Hidx, Hwhole, Hg1, Hg2. clear Hexec Hidx Hwhole Hg1 Hg2.
  destruct (search_spec _ _ _ _ _ Hs) as (Hk & Hm & Hleft).
  destruct (match_at_spec _ _ _ _ Hm) as (Hsplit & Hl & Hc).
  pose proof (search_length _ _ _ _ _ Hs) as Hlen. rewrite length_sdrop in Hlen.
  rewrite length_sdrop in Hk.
  assert (Hat : sdrop (lastIndex + k) content = block lang code +:+ rest).
  { rewrite sdrop_add, Hsplit. unfold block. rewrite !app_assoc. reflexivity. }
  assert (Hrest : sdrop (lastIndex + k + String.length (block lang code)) content = rest).
  { rewrite sdrop_add, Hat. apply sdrop_app. }
  split; [lia|]. split; [lia|]. split; [reflexivity|]. split.
  - rewrite Hrest, <- Hat. symmetry. apply stake_sdrop.
  - split; [exact Hl|]. split; [exact Hc|].
    intros j Hj. replace j with (lastIndex + (j - lastIndex))%nat by lia.
    rewrite sdrop_add. apply Hleft. lia.
Qed.

Lemma exec_finds_the_leftmost_block_witness :
  (0 <= String.length sample_response)%nat /\
  exec sample_response 0
  = Some {| index := 8; whole := block "python" (LF +:+ "print(1)" +:+ LF);
            group1 := "python"; group2 := LF +:+ "print(1)" +:+ LF |} /\
  sample_response
  = stake 8 sample_response +:+ block "python" (LF +:+ "print(1)" +:+ LF)
    +:+ sdrop (8 + String.length (block "python" (LF +:+ "print(1)" +:+ LF))) sample_response.
Proof.
  assert (Hexec : exec sample_response 0
                  = Some {| index := 8; whole := block "python" (LF +:+ "print(1)" +:+ LF);
                            group1 := "python"; group2 := LF +:+ "print(1)" +:+ LF |})
    by (vm_compute; reflexivity).
  split; [lia|]. split; [exact Hexec|].
  destruct (exec_finds_the_leftmost_block sample_response 0 _ (Nat.le_0_l _) Hexec)
    as (_ & _ & _ & Hsplit & _).
  exact Hsplit.
Defined.

End MessageFacts.

(** * More about the results page *)
Module PageExtras.
Import ResultsPage PageTerms JSFacts PageFacts.

(** ** The ways a fetch can settle *)

Lemma settle_by_cases (o : FetchOutcome jsval) (u : Q) (w : World) :
  fetchData_settle o u w = fetchData_catch w \/
  (exists hs d, o = Responded true hs (Some d) /\ says d "completed" = true /\
                fetchData_settle o u w = clearPolling (setLoading false (setData d w))) \/
  (exists hs d message, o = Responded true hs (Some d) /\ says d "in_progress" = true /\
                        fetchData_settle o u w = stepped message u w) \/
  (exists message,
     fetchData_settle o u w = clearPolling (setLoading false (setError message w))) \/
  fetchData_settle o u w = w.
Proof.
  destruct o as [|[|] hs [d|]]; try (left; reflexivity).
  destruct (prop d "status") as [st|] eqn:Hst.
  - destruct (is_str st "completed") eqn:Hc.
    { right; left. exists hs, d.
      assert (Hs : says d "completed" = true) by (unfold says; rewrite Hst; exact Hc).
      split; [reflexivity|]. split; [exact Hs | apply settle_completed; exact Hs]. }
    destruct (is_str st "in_progress") eqn:Hp.
    { right; right; left.
      assert (Hs : says d "in_progress" = true) by (unfold says; rewrite Hst; exact Hp).
      destruct (settle_in_progress d hs u w Hs) as (filename & _ & Heq).
      exists hs, d. eexists. split; [reflexivity|]. split; [exact Hs | exact Heq]. }
    destruct (is_str st "failed") eqn:Hf.
    { right; right; right; left.
      assert (Hs : says d "failed" = true) by (unfold says; rewrite Hst; exact Hf).
      destruct (settle_failed d hs u w Hs) as (err & _ & Heq).
      eexists. exact Heq. }
    right; right; right; right.
    unfold fetchData_settle, fetchData_try. simpl. rewrite Hst. simpl.
    rewrite Hc, Hp, Hf. reflexivity.
  - left. unfold fetchData_settle, fetchData_try. simpl. rewrite Hst. reflexivity.
Qed.

(** A record that does not say "in progress" leaves the counter alone. *)
Lemma settle_keeps_counter (o : FetchOutcome jsval) (u : Q) (w : World) :
  no_in_progress (Settle o u) = true ->
  progressCounter (fetchData_settle o u w) = progressCounter w.
Proof.
  intros Hno.
  destruct (settle_by_cases o u w)
    as [-> | [(hs & d & _ & _ & ->) | [(hs & d & message & -> & Hs & _)
       | [(message & ->) | ->]]]];
    try reflexivity.
  simpl in Hno. rewrite Hs in Hno. discriminate.
Qed.

Lemma stepped_frame (message : string) (u : Q) (w : World) :
  let w' := stepped message u w in
  pollingInterval w' = pollingInterval w /\ progressInterval w' = progressInterval w /\
  now w' = now w /\ requests w' = requests w /\ inflight w' = inflight w /\
  forall v, ui w = Some v ->
    exists v', ui w' = Some v' /\ loading v' = loading v /\ data v' = data v /\
               error v' = error v.
Proof.
  unfold stepped. destruct (progressCounter w <? 90); simpl;
    repeat (split; [reflexivity|]); intros v ->; simpl; eauto 10.
Qed.

(** ** Invariants of the state cells *)

Lemma fire_loading_while_polling (e : Event) (w w' : World) :
  fire e w = Some w' -> loading_while_polling w -> loading_while_polling w' /\ True.
Proof.
  unfold loading_while_polling. intros Hfire Hinv. split; [|exact I].
  destruct e; simpl in Hfire.
  - case_match; simplify_eq. exact Hinv.
  - destruct (pollingInterval w) as [tm|] eqn:Hp; simpl in Hfire; [|discriminate].
    case_match; simplify_eq. simpl. exact Hinv.
  - case_match; simplify_eq.
    unfold progress_tick. simpl.
    destruct (progressCounter w <? 90); simpl; [|exact Hinv].
    intros v' Hv'. destruct (ui w) as [v|]; simpl in Hv'; [|discriminate].
    simplify_eq. simpl. apply Hinv. reflexivity.
  - destruct (inflight w) as [|n]; [discriminate|]. case_match; simplify_eq.
    intros v' Hv'.
    destruct (settle_by_cases o u (set_inflight n w))
      as [Heq | [(hs & d & _ & _ & Heq) | [(hs & d & message & _ & _ & Heq)
         | [(message & Heq) | Heq]]]];
      rewrite Heq in Hv' |- *.
    + unfold fetchData_catch in *. simpl in *.
      destruct (ui w); simpl in Hv'; simplify_eq. reflexivity.
    + simpl in *. destruct (ui w); simpl in Hv'; simplify_eq. reflexivity.
    + destruct (stepped_frame message u (set_inflight n w)) as (Hp & _ & _ & _ & _ & Hui).
      rewrite Hp. simpl.
      destruct (ui w) as [v|] eqn:Hv.
      * destruct (Hui v Hv) as (v'' & Hv'' & Hl & _).
        rewrite Hv'' in Hv'. simplify_eq. rewrite Hl. apply Hinv. reflexivity.
      * unfold stepped in Hv'. destruct (progressCounter (set_inflight n w) <? 90);
          simpl in Hv'; rewrite Hv in Hv'; discriminate.
    + simpl in *. destruct (ui w); simpl in Hv'; simplify_eq. reflexivity.
    + simpl in *. apply Hinv. exact Hv'.
  - destruct (ui w); simplify_eq. intros v' Hv'. discriminate.
Qed.

Lemma fire_data_is_completed_record (e : Event) (w w' : World) :
  fire e w = Some w' -> data_is_completed_record w -> data_is_completed_record w' /\ True.
Proof.
  unfold data_is_completed_record. intros Hfire Hinv. split; [|exact I].
  destruct e; simpl in Hfire.
  - case_match; simplify_eq. exact Hinv.
  - case_match; simplify_eq. simpl. exact Hinv.
  - case_match; simplify_eq.
    unfold progress_tick. simpl.
    destruct (progressCounter w <? 90); simpl; [|exact Hinv].
    intros v' Hv'. destruct (ui w) as [v|]; simpl in Hv'; [|discriminate].
    simplify_eq. simpl. apply Hinv. reflexivity.
  - destruct (inflight w) as [|n]; [discriminate|]. case_match; simplify_eq.
    intros v' Hv'.
    destruct (settle_by_cases o u (set_inflight n w))
      as [Heq | [(hs & d & _ & Hs & Heq) | [(hs & d & message & _ & _ & Heq)
         | [(message & Heq) | Heq]]]];
      rewrite Heq in Hv'.
    + unfold fetchData_catch in *. simpl in *.
      destruct (ui w) as [v|]; simpl in Hv'; simplify_eq. simpl. apply Hinv. reflexivity.
    + simpl in *. destruct (ui w); simpl in Hv'; simplify_eq. simpl. right. exact Hs.
    + destruct (stepped_frame message u (set_inflight n w)) as (_ & _ & _ & _ & _ & Hui).
      destruct (ui w) as [v|] eqn:Hv.
      * destruct (Hui v Hv) as (v'' & Hv'' & _ & Hd & _).
        rewrite Hv'' in Hv'. simplify_eq. rewrite Hd. apply Hinv. reflexivity.
      * unfold stepped in Hv'. destruct (progressCounter (set_inflight n w) <? 90);
          simpl in Hv'; rewrite Hv in Hv'; discriminate.
    + simpl in *. destruct (ui w) as [v|]; simpl in Hv'; simplify_eq. simpl.
      apply Hinv. reflexivity.
    + simpl in *. apply Hinv. exact Hv'.
  - destruct (ui w); simplify_eq. intros v' Hv'. discriminate.
Qed.

Lemma fire_progress_timer_running (e : Event) (w w' : World) :
  fire e w = Some w' -> progress_timer_running w -> progress_timer_running w' /\ True.
Proof.
  unfold progress_timer_running. intros Hfire Hinv. split; [|exact I].
  destruct e; simpl in Hfire.
  - destruct ((0 <? dt) && not_before (now w + dt) (pollingInterval w)
              && not_before (now w + dt) (progressInterval w)) eqn:Hok; simplify_eq.
    apply andb_prop in Hok as [Hok Hnb]. apply andb_prop in Hok as [Hdt _].
    apply Z.ltb_lt in Hdt. simpl. intros v Hv.
    destruct (Hinv v Hv) as (tm & Htm & Hd & Hnow).
    rewrite Htm in Hnb. simpl in Hnb. apply Z.leb_le in Hnb.
    exists tm. split; [exact Htm|]. split; [exact Hd | lia].
  - case_match; simplify_eq. simpl. exact Hinv.
  - destruct (progressInterval w) as [tm|] eqn:Hp; simpl in Hfire; [|discriminate].
    destruct (due tm =? now w) eqn:Hdue; simplify_eq. apply Z.eqb_eq in Hdue.
    destruct (progress_tick_frame (set_progressInterval (Some (rearm tm)) w))
      as (_ & Hn & _ & _ & Hg & _ & Hui).
    intros v' Hv'.
    destruct (ui w) as [v|] eqn:Hv.
    + destruct (Hinv v eq_refl) as (tm' & Htm' & Hd & Hnow). injection Htm' as <-.
      exists (rearm tm). rewrite Hg, Hn. simpl. split; [reflexivity|].
      split; [exact Hd | lia].
    + rewrite Hui in Hv'; [discriminate | exact Hv].
  - destruct (inflight w) as [|n]; [discriminate|]. case_match; simplify_eq.
    destruct (settle_frame o u (set_inflight n w)) as (_ & Hn & _ & _ & Hg & _ & Hui).
    intros v' Hv'. rewrite Hg, Hn. simpl.
    destruct (ui w) as [v|] eqn:Hv; [apply (Hinv v eq_refl)|].
    rewrite Hui in Hv'; [discriminate | exact Hv].
  - destruct (ui w); simplify_eq. intros v' Hv'. discriminate.
Qed.

Lemma fire_counter_in_range (e : Event) (w w' : World) :
  fire e w = Some w' -> counter_in_range w -> counter_in_range w' /\ True.
Proof.
  unfold counter_in_range. intros Hfire Hinv. split; [|exact I].
  destruct e; simpl in Hfire.
  - case_match; simplify_eq. exact Hinv.
  - case_match; simplify_eq. simpl. exact Hinv.
  - case_match; simplify_eq. unfold progress_tick. simpl.
    destruct (progressCounter w <? 90) eqn:Hlt; simpl; [|exact Hinv].
    apply Z.ltb_lt in Hlt. lia.
  - destruct (inflight w) as [|n]; [discriminate|].
    destruct (Qle_bool 0 u && negb (Qle_bool 1 u)) eqn:Hu; simplify_eq.
    apply random_step_range in Hu.
    destruct (settle_by_cases o u (set_inflight n w))
      as [-> | [(hs & d & _ & _ & ->) | [(hs & d & message & _ & _ & ->)
         | [(message & ->) | ->]]]];
      try exact Hinv.
    unfold stepped. simpl.
    destruct (progressCounter w <? 90) eqn:Hlt; simpl; [|exact Hinv].
    apply Z.ltb_lt in Hlt. lia.
  - destruct (ui w); simplify_eq. exact Hinv.
Qed.

Lemma mount_invariants (job : string) (t0 : Z) :
  loading_while_polling (mount job t0) /\ data_is_completed_record (mount job t0) /\
  progress_timer_running (mount job t0) /\ counter_in_range (mount job t0) /\
  counter_follows_ticks t0 (mount job t0).
Proof.
  split; [intros v Hv; simpl in Hv; simplify_eq; reflexivity|].
  split; [intros v Hv; simpl in Hv; simplify_eq; left; reflexivity|].
  split.
  { intros v Hv. eexists. split; [reflexivity|]. simpl. lia. }
  split; [unfold counter_in_range; simpl; lia|].
  intros tm Htm. simpl in Htm. simplify_eq. simpl. split; [reflexivity|].
  exists 0. lia.
Qed.

Lemma render_loaded_screens (v : ViewState) (r : Rendered) :
  render_loaded v = Some r ->
  r = NotFoundScreen \/ exists title authors panels, r = AnalysisScreen title authors panels.
Proof.
  unfold render_loaded.
  destruct (negb (truthy (data v))); [intros [= <-]; auto|].
  destruct (prop (data v) "result") as [result|]; simpl; [|discriminate].
  destruct (negb (truthy result)); [intros [= <-]; auto|].
  repeat match goal with
         | |- context [prop ?a ?b] => destruct (prop a b); simpl; [|discriminate]
         end.
  intros [= <-]. eauto.
Qed.

Lemma render_loaded_not_loading (v : ViewState) (job message : string) (p : Z) :
  default RenderError (render_loaded v) <> LoadingScreen job message p.
Proof.
  destruct (render_loaded v) as [r|] eqn:Hr; simpl; [|discriminate].
  destruct (render_loaded_screens _ _ Hr) as [-> | (t & a & ps & ->)]; discriminate.
Qed.

Lemma render_loaded_analysis (v : ViewState) (t a : jsval) (ps : list Element) :
  default RenderError (render_loaded v) = AnalysisScreen t a ps -> data v <> JNull.
Proof. unfold render_loaded. intros H Hd. rewrite Hd in H. simpl in H. discriminate. Qed.

Lemma fire_counter_follows_ticks (t0 : Z) (e : Event) (w w' : World) :
  no_in_progress e = true -> fire e w = Some w' ->
  counter_follows_ticks t0 w -> counter_follows_ticks t0 w'.
Proof.
  unfold counter_follows_ticks. intros Hno Hfire Hinv. destruct e; simpl in Hfire.
  - destruct ((0 <? dt) && not_before (now w + dt) (pollingInterval w)
              && not_before (now w + dt) (progressInterval w)) eqn:Hok; simplify_eq.
    apply andb_prop in Hok as [Hok Hnb]. apply andb_prop in Hok as [Hdt _].
    apply Z.ltb_lt in Hdt. simpl. intros tm Htm.
    destruct (Hinv tm Htm) as (Hd & T & HT & Hdue & Hc & Hnow).
    rewrite Htm in Hnb. simpl in Hnb. apply Z.leb_le in Hnb.
    split; [exact Hd|]. exists T. repeat (split; [assumption|]). lia.
  - case_match; simplify_eq. simpl. exact Hinv.
  - destruct (progressInterval w) as [tm|] eqn:Hp; simpl in Hfire; [|discriminate].
    destruct (due tm =? now w) eqn:Hdue; simplify_eq. apply Z.eqb_eq in Hdue.
    destruct (Hinv tm eq_refl) as (Hd & T & HT & HdueT & Hc & Hnow).
    intros tm' Htm'.
    assert (Htm : tm' = rearm tm).
    { unfold progress_tick in Htm'.
      destruct (progressCounter (set_progressInterval (Some (rearm tm)) w) <? 90);
        simpl in Htm'; congruence. }
    subst tm'. simpl. split; [exact Hd|]. exists (T + 1).
    unfold progress_tick. simpl.
    destruct (progressCounter w <? 90) eqn:Hlt; simpl.
    + apply Z.ltb_lt in Hlt. lia.
    + apply Z.ltb_ge in Hlt. lia.
  - destruct (inflight w) as [|n]; [discriminate|]. case_match; simplify_eq.
    destruct (settle_frame o u (set_inflight n w)) as (_ & Hn & _ & _ & Hg & _).
    rewrite Hg, Hn, (settle_keeps_counter o u _ Hno). exact Hinv.
  - destruct (ui w); simplify_eq. intros tm Htm. discriminate.
Qed.

Lemma run_counter_follows_ticks (t0 : Z) (es : list Event) (w w' : World) :
  forallb no_in_progress es = true -> run es w = Some w' ->
  counter_follows_ticks t0 w -> counter_follows_ticks t0 w'.
Proof.
  revert w. induction es as [|e es IH]; intros w Hall Hrun Hinv; simpl in *.
  - simplify_eq. exact Hinv.
  - apply andb_prop in Hall as [He Hall].
    destruct (fire e w) as [w1|] eqn:Hfire; [|discriminate]. simpl in Hrun.
    eapply IH; eauto using fire_counter_follows_ticks.
Qed.

Lemma fire_counts (e : Event) (w w' : World) :
  fire e w = Some w' ->
  length (requests w') = (length (requests w) + (if is_poll e then 1 else 0))%nat /\
  (inflight w' + (if is_settle e then 1 else 0)
   = inflight w + (if is_poll e then 1 else 0))%nat.
Proof.
  intros Hfire. destruct e; simpl in Hfire.
  - case_match; simplify_eq. simpl. lia.
  - case_match; simplify_eq. simpl. lia.
  - case_match; simplify_eq.
    destruct (progress_tick_frame (set_progressInterval (rearm <$> progressInterval w) w))
      as (_ & _ & Hr & Hi & _). rewrite Hr, Hi. simpl. lia.
  - destruct (inflight w) as [|n]; [discriminate|]. case_match; simplify_eq.
    destruct (settle_frame o u (set_inflight n w)) as (_ & _ & Hr & Hi & _).
    rewrite Hr, Hi. simpl. lia.
  - destruct (ui w); simplify_eq. simpl. lia.
Qed.

Lemma run_counts (es : list Event) (w w' : World) :
  run es w = Some w' ->
  length (requests w') = (length (requests w) + count is_poll es)%nat /\
  (inflight w' + count is_settle es = inflight w + count is_poll es)%nat.
Proof.
  revert w. induction es as [|e es IH]; intros w Hrun; simpl in Hrun.
  - simplify_eq. simpl. lia.
  - destruct (fire e w) as [w1|] eqn:Hfire; [|discriminate]. simpl in Hrun.
    destruct (fire_counts _ _ _ Hfire) as [Hr Hi].
    destruct (IH _ Hrun) as [Hr' Hi']. simpl. lia.
Qed.

Lemma own_lacks (k : string) (fields : list (string * jsval)) :
  lacks k fields = true -> own k fields = JUndefined.
Proof.
  induction fields as [|[k' x] fields IH]; simpl; [reflexivity|].
  intros H. apply andb_prop in H as [Hk Hrest].
  apply negb_true_iff in Hk. rewrite Hk. exact (IH Hrest).
Qed.

(** ** What every run of the page keeps *)

(** X6.  In every run of the page, as long as it is mounted, the loading
    screen is up exactly while the polling timer is set: the page never
    polls behind a result or "not found" screen, and never shows the
    loading screen after polling has stopped. *)
Theorem loading_screen_exactly_while_polling
    (job : string) (t0 : Z) (es : list Event) (w : World) (v : ViewState) :
  run es (mount job t0) = Some w ->
  ui w = Some v ->
  loading v = is_set (pollingInterval w) /\
  ((exists tm, pollingInterval w = Some tm) <->
   (exists message p, render w = Some (LoadingScreen job message p))).
Proof.
  intros Hrun Hv.
  destruct (mount_invariants job t0) as (Hinv & _).
  destruct (run_preserves _ _ fire_loading_while_polling _ _ _ Hrun Hinv) as [Hl _].
  destruct (run_on_schedule job t0 _ _ Hrun) as (Hjob & _).
  specialize (Hl v Hv). split; [exact Hl|].
  unfold render. rewrite Hv. simpl. unfold render_view. rewrite Hjob, Hl.
  destruct (pollingInterval w) as [tm|]; simpl; split.
  - intros _. eauto.
  - intros _. eauto.
  - intros [tm Htm]. discriminate.
  - intros (message & p & Hr). injection Hr as Hr.
    exfalso. exact (render_loaded_not_loading _ _ _ _ Hr).
Qed.

Lemma loading_screen_exactly_while_polling_witness :
  run sample_run (mount "job-1" 0) = Some (after sample_run (mount "job-1" 0)) /\
  (exists v, ui (after sample_run (mount "job-1" 0)) = Some v /\ loading v = true) /\
  exists message p,
    render (after sample_run (mount "job-1" 0)) = Some (LoadingScreen "job-1" message p).
Proof.
  assert (Hrun : run sample_run (mount "job-1" 0)
                 = Some (after sample_run (mount "job-1" 0)))
    by (vm_compute; reflexivity).
  assert (Hv : exists v, ui (after sample_run (mount "job-1" 0)) = Some v /\ loading v = true)
    by (eexists; split; vm_compute; reflexivity).
  split; [exact Hrun|]. split; [exact Hv|].
  destruct Hv as (v & Hv & Hl).
  destruct (loading_screen_exactly_while_polling "job-1" 0 sample_run _ v Hrun Hv)
    as (Hset & Hiff).
  apply Hiff. rewrite Hl in Hset.
  destruct (pollingInterval (after sample_run (mount "job-1" 0))) as [tm|];
    [eauto | discriminate].
Defined.

(** X7.  In every run of the page the stored data is [null] or a record
    that says "completed": no in-progress or failed record and no body of a
    failed fetch is ever stored, so the analysis screen is only ever drawn
    from a completed record. *)
Theorem only_completed_records_are_stored
    (job : string) (t0 : Z) (es : list Event) (w : World) (v : ViewState) :
  run es (mount job t0) = Some w ->
  ui w = Some v ->
  (data v = JNull \/ says (data v) "completed" = true) /\
  (forall title authors panels,
     render w = Some (AnalysisScreen title authors panels) ->
     says (data v) "completed" = true /\ loading v = false).
Proof.
  intros Hrun Hv.
  destruct (mount_invariants job t0) as (_ & Hinv & _).
  destruct (run_preserves _ _ fire_data_is_completed_record _ _ _ Hrun Hinv) as [Hd _].
  specialize (Hd v Hv). split; [exact Hd|].
  intros title authors panels Hr.
  unfold render in Hr. rewrite Hv in Hr. simpl in Hr. injection Hr as Hr.
  unfold render_view in Hr. destruct (loading v) eqn:Hl; [discriminate|].
  split; [|reflexivity].
  destruct Hd as [Hnull | Hs]; [|exact Hs].
  exfalso. exact (render_loaded_analysis _ _ _ _ Hr Hnull).
Qed.

Lemma only_completed_records_are_stored_witness :
  run [Settle (ok_json sample_completed) 0] (mount "job-1" 0)
  = Some (after [Settle (ok_json sample_completed) 0] (mount "job-1" 0)) /\
  exists v,
    ui (after [Settle (ok_json sample_completed) 0] (mount "job-1" 0)) = Some v /\
    data v = sample_completed /\ says (data v) "completed" = true.
Proof.
  assert (Hrun : run [Settle (ok_json sample_completed) 0] (mount "job-1" 0)
                 = Some (after [Settle (ok_json sample_completed) 0] (mount "job-1" 0)))
    by (vm_compute; reflexivity).
  assert (Hv : exists v,
             ui (after [Settle (ok_json sample_completed) 0] (mount "job-1" 0)) = Some v /\
             data v = sample_completed)
    by (eexists; split; vm_compute; reflexivity).
  split; [exact Hrun|].
  destruct Hv as (v & Hv & Hd). exists v. split; [exact Hv|]. split; [exact Hd|].
  destruct (only_completed_records_are_stored "job-1" 0 _ _ v Hrun Hv)
    as ([Hnull | Hs] & _); [|exact Hs].
  rewrite Hd in Hnull. discriminate.
Defined.

(** X8.  Nothing but unmounting stops the progress timer: in every run of
    the page, as long as it is mounted, the timer is set with its delay of
    500 ms and its next tick at most 500 ms away, also after the job has
    completed or failed and the loading screen is gone. *)
Theorem progress_timer_runs_until_unmount
    (job : string) (t0 : Z) (es : list Event) (w : World) (v : ViewState) :
  run es (mount job t0) = Some w ->
  ui w = Some v ->
  exists tm,
    progressInterval w = Some tm /\ delay tm = 500 /\ due tm - 500 <= now w <= due tm.
Proof.
  intros Hrun Hv.
  destruct (mount_invariants job t0) as (_ & _ & Hinv & _).
  destruct (run_preserves _ _ fire_progress_timer_running _ _ _ Hrun Hinv) as [Hp _].
  exact (Hp v Hv).
Qed.

Lemma progress_timer_runs_until_unmount_witness :
  run [Settle (ok_json sample_completed) 0; Elapse 500; ProgressTimer] (mount "job-1" 0)
  = Some (after [Settle (ok_json sample_completed) 0; Elapse 500; ProgressTimer]
                (mount "job-1" 0)) /\
  exists v tm,
    ui (after [Settle (ok_json sample_completed) 0; Elapse 500; ProgressTimer]
              (mount "job-1" 0)) = Some v /\
    loading v = false /\
    progressInterval (after [Settle (ok_json sample_completed) 0; Elapse 500; ProgressTimer]
                            (mount "job-1" 0)) = Some tm /\
    delay tm = 500.
Proof.
  assert (Hrun : run [Settle (ok_json sample_completed) 0; Elapse 500; ProgressTimer]
                     (mount "job-1" 0)
                 = Some (after [Settle (ok_json sample_completed) 0; Elapse 500;
                                ProgressTimer] (mount "job-1" 0)))
    by (vm_compute; reflexivity).
  assert (Hv : exists v,
             ui (after [Settle (ok_json sample_completed) 0; Elapse 500; ProgressTimer]
                       (mount "job-1" 0)) = Some v /\ loading v = false)
    by (eexists; split; vm_compute; reflexivity).
  split; [exact Hrun|]. destruct Hv as (v & Hv & Hl).
  destruct (progress_timer_runs_until_unmount "job-1" 0 _ _ v Hrun Hv)
    as (tm & Htm & Hd & _).
  exists v, tm. auto.
Defined.

(** X9.  The counter behind the progress bar stays between 0 and 94 in
    every run: it may overshoot 90 by the random step of one in-progress
    record and never moves again after that. *)
Theorem counter_stays_within_94 (job : string) (t0 : Z) (es : list Event) (w : World) :
  run es (mount job t0) = Some w ->
  0 <= progressCounter w <= 94 /\
  (90 <= progressCounter w ->
   forall es' w', run es' w = Some w' -> progressCounter w' = progressCounter w).
Proof.
  intros Hrun.
  destruct (mount_invariants job t0) as (_ & _ & _ & Hinv & _).
  destruct (run_preserves _ _ fire_counter_in_range _ _ _ Hrun Hinv) as [Hc _].
  split; [exact Hc|].
  intros H90 es' w' Hrun'.
  assert (Hkeep : forall e x x', fire e x = Some x' ->
                    90 <= progressCounter x /\ progressCounter x = progressCounter w ->
                    (90 <= progressCounter x' /\ progressCounter x' = progressCounter w)
                    /\ True).
  { intros e x x' Hfire [Hx Heq]. split; [|exact I].
    assert (Hsame : progressCounter x' = progressCounter x); [|lia].
    destruct e; simpl in Hfire.
    - case_match; simplify_eq. reflexivity.
    - case_match; simplify_eq. reflexivity.
    - case_match; simplify_eq. unfold progress_tick. simpl.
      destruct (progressCounter x <? 90) eqn:Hlt; [apply Z.ltb_lt in Hlt; lia | reflexivity].
    - destruct (inflight x) as [|n]; [discriminate|]. case_match; simplify_eq.
      destruct (settle_by_cases o u (set_inflight n x))
        as [-> | [(hs & d & _ & _ & ->) | [(hs & d & message & _ & _ & ->)
           | [(message & ->) | ->]]]];
        try reflexivity.
      unfold stepped. simpl.
      destruct (progressCounter x <? 90) eqn:Hlt; [apply Z.ltb_lt in Hlt; lia | reflexivity].
    - destruct (ui x); simplify_eq. reflexivity. }
  destruct (run_preserves _ _ Hkeep _ _ _ Hrun') as [[_ Heq] _]; [lia | exact Heq].
Qed.

Lemma counter_stays_within_94_witness :
  run slow_run (mount "job-1" 0) = Some (after slow_run (mount "job-1" 0)) /\
  progressCounter (after slow_run (mount "job-1" 0)) = 94 /\
  0 <= progressCounter (after slow_run (mount "job-1" 0)) <= 94.
Proof.
  assert (Hrun : run slow_run (mount "job-1" 0) = Some (after slow_run (mount "job-1" 0)))
    by (vm_compute; reflexivity).
  split; [exact Hrun|]. split; [vm_compute; reflexivity|].
  exact (proj1 (counter_stays_within_94 "job-1" 0 slow_run _ Hrun)).
Defined.

(** X10.  As long as no in-progress record has arrived, the bar follows
    the clock: between two ticks it shows one point for every 500 ms since
    the mount, and 90 from 45 seconds on. *)
Theorem bar_follows_the_clock
    (job : string) (t0 : Z) (es : list Event) (w : World) (v : ViewState) (tm : Timer) :
  run es (mount job t0) = Some w ->
  forallb no_in_progress es = true ->
  ui w = Some v ->
  progressInterval w = Some tm ->
  now w < due tm ->
  progress v = Z.min ((now w - t0) / 500) 90.
Proof.
  intros Hrun Hall Hv Htm Hnow.
  destruct (mount_invariants job t0) as (_ & _ & _ & _ & Hinv).
  destruct (run_counter_follows_ticks t0 _ _ _ Hall Hrun Hinv tm Htm)
    as (_ & T & HT & Hdue & Hc & Hbounds).
  destruct (mount_progress job t0) as [_ Hfollow0].
  destruct (run_progress _ _ _ Hrun Hfollow0) as [_ Hfollow].
  rewrite (Hfollow v Hv), Hc.
  assert (Hdiv : (now w - t0) / 500 = T).
  { symmetry. apply (Z.div_unique _ 500 T (now w - t0 - 500 * T)); lia. }
  rewrite Hdiv. lia.
Qed.

Lemma bar_follows_the_clock_witness :
  run [Elapse 500; ProgressTimer; Elapse 500; ProgressTimer; Elapse 200] (mount "job-1" 0)
  = Some (after [Elapse 500; ProgressTimer; Elapse 500; ProgressTimer; Elapse 200]
                (mount "job-1" 0)) /\
  exists v,
    ui (after [Elapse 500; ProgressTimer; Elapse 500; ProgressTimer; Elapse 200]
              (mount "job-1" 0)) = Some v /\
    now (after [Elapse 500; ProgressTimer; Elapse 500; ProgressTimer; Elapse 200]
               (mount "job-1" 0)) = 1200 /\
    progress v = 2.
Proof.
  assert (Hrun : run [Elapse 500; ProgressTimer; Elapse 500; ProgressTimer; Elapse 200]
                     (mount "job-1" 0)
                 = Some (after [Elapse 500; ProgressTimer; Elapse 500; ProgressTimer;
                                Elapse 200] (mount "job-1" 0)))
    by (vm_compute; reflexivity).
  assert (Hv : exists v,
             ui (after [Elapse 500; ProgressTimer; Elapse 500; ProgressTimer; Elapse 200]
                       (mount "job-1" 0)) = Some v)
    by (eexists; vm_compute; reflexivity).
  split; [exact Hrun|]. destruct Hv as (v & Hv). exists v.
  split; [exact Hv|]. split; [vm_compute; reflexivity|].
  rewrite (bar_follows_the_clock "job-1" 0 _ _ v {| due := 1500; delay := 500 |} Hrun);
    try (vm_compute; reflexivity).
  exact Hv.
Defined.

(** X11.  A completed record whose result is there but carries no metadata
    makes the render function throw: reading [metadata.title] of
    [undefined] (or [null]) is a [TypeError], and the page shows neither
    the analysis nor "not found". *)
Theorem completed_result_without_metadata_throws
    (w : World) (v : ViewState) (responseData result metadata : jsval)
    (httpStatus : Z) (u : Q) :
  ui w = Some v ->
  says responseData "completed" = true ->
  prop responseData "result" = Some result ->
  truthy result = true ->
  prop result "metadata" = Some metadata ->
  metadata = JUndefined \/ metadata = JNull ->
  render (fetchData_settle (Responded true httpStatus (Some responseData)) u w)
  = Some RenderError.
Proof.
  intros Hv Hsays Hres Htruthy Hmeta Hnone.
  rewrite (settle_completed _ _ _ _ Hsays).
  destruct (says_object _ _ Hsays) as [fields ->].
  destruct (prop_defined _ _ "key_concepts" _ Hmeta) as [kc Hkc].
  destruct (prop_defined _ _ "problem_statement" _ Hmeta) as [ps Hps].
  destruct (prop_defined _ _ "full_explanation" _ Hmeta) as [fe Hfe].
  destruct (prop_defined _ _ "pseudo_code" _ Hmeta) as [pc Hpc].
  unfold render. simpl. rewrite Hv. simpl. unfold render_view, render_loaded. simpl.
  simpl in Hres. injection Hres as Hres. rewrite Hres, Htruthy. simpl.
  rewrite Hmeta. simpl. rewrite Hkc, Hps, Hfe, Hpc. simpl.
  destruct Hnone as [-> | ->]; reflexivity.
Qed.

Lemma completed_result_without_metadata_throws_witness :
  ui (mount "job-1" 0) = Some initial_view /\
  says sample_completed_no_metadata "completed" = true /\
  render (fetchData_settle (ok_json sample_completed_no_metadata) 0 (mount "job-1" 0))
  = Some RenderError.
Proof.
  split; [reflexivity|]. split; [reflexivity|].
  apply (completed_result_without_metadata_throws (mount "job-1" 0) initial_view
           sample_completed_no_metadata
           (JObj [("key_concepts", JArr [JStr "self-attention"])]) JUndefined 200 0);
    try reflexivity.
  left. reflexivity.
Defined.

(** X12.  A record without a [filename] is announced as "your document",
    and a failed record without an [error] is reported as "Unknown
    error". *)
Theorem missing_fields_fall_back
    (w : World) (v : ViewState) (fields : list (string * jsval)) (httpStatus : Z) (u : Q) :
  ui w = Some v ->
  let w' := fetchData_settle (Responded true httpStatus (Some (JObj fields))) u w in
  (says (JObj fields) "in_progress" = true -> lacks "filename" fields = true ->
   exists v', ui w' = Some v' /\ statusMessage v' = "Analyzing paper: your document") /\
  (says (JObj fields) "failed" = true -> lacks "error" fields = true ->
   exists v', ui w' = Some v' /\ error v' = Some "Analysis failed: Unknown error").
Proof.
  intros Hv w'. subst w'. split; intros Hs Hlacks.
  - destruct (settle_in_progress _ httpStatus u w Hs) as (filename & Hf & ->).
    simpl in Hf. rewrite (own_lacks _ _ Hlacks) in Hf. injection Hf as <-.
    destruct (progressCounter w <? 90); simpl; rewrite Hv; simpl; eauto.
  - destruct (settle_failed _ httpStatus u w Hs) as (err & He & ->).
    simpl in He. rewrite (own_lacks _ _ Hlacks) in He. injection He as <-.
    simpl. rewrite Hv. simpl. eauto.
Qed.

Lemma missing_fields_fall_back_witness :
  ui (mount "job-1" 0) = Some initial_view /\
  (exists v', ui (fetchData_settle (ok_json sample_in_progress_bare) 0 (mount "job-1" 0))
              = Some v' /\
              statusMessage v' = "Analyzing paper: your document") /\
  (exists v', ui (fetchData_settle (ok_json sample_failed_bare) 0 (mount "job-1" 0))
              = Some v' /\
              error v' = Some "Analysis failed: Unknown error").
Proof.
  split; [reflexivity|].
  split.
  - apply (missing_fields_fall_back (mount "job-1" 0) initial_view
             [("status", JStr "in_progress")] 200 0 eq_refl); reflexivity.
  - apply (missing_fields_fall_back (mount "job-1" 0) initial_view
             [("status", JStr "failed")] 200 0 eq_refl); reflexivity.
Defined.

(** X13.  Every request is accounted for: in every run of the page the
    requests sent are the one of the mount and one for each firing of the
    polling timer, and those in flight are the requests sent less the
    fetches that have settled; the page never cancels or repeats a
    request. *)
Theorem requests_are_accounted_for (job : string) (t0 : Z) (es : list Event) (w : World) :
  run es (mount job t0) = Some w ->
  length (requests w) = (1 + count is_poll es)%nat /\
  (inflight w + count is_settle es = length (requests w))%nat.
Proof.
  intros Hrun. destruct (run_counts _ _ _ Hrun) as [Hr Hi].
  simpl in Hr, Hi. lia.
Qed.

Lemma requests_are_accounted_for_witness :
  run sample_run (mount "job-1" 0) = Some (after sample_run (mount "job-1" 0)) /\
  length (requests (after sample_run (mount "job-1" 0))) = 2%nat /\
  inflight (after sample_run (mount "job-1" 0)) = 1%nat.
Proof.
  assert (Hrun : run sample_run (mount "job-1" 0)
                 = Some (after sample_run (mount "job-1" 0)))
    by (vm_compute; reflexivity).
  split; [exact Hrun|].
  destruct (requests_are_accounted_for "job-1" 0 sample_run _ Hrun) as [Hr Hi].
  split; [rewrite Hr; vm_compute; reflexivity|].
  apply (Nat.add_cancel_r _ _ (count is_settle sample_run)).
  rewrite Hi, Hr. vm_compute. reflexivity.
Defined.

End PageExtras.

(** * More properties of the chat panel *)
Module ChatExtras.
Import ChatPanel MessageContent ChatView JSFacts ChatFacts.

Lemma mark_last_failed_snoc (prev : list ChatMessage) (m : ChatMessage) :
  mark_last_failed (prev ++ [m]) = prev ++ [with_apology m].
Proof.
  unfold mark_last_failed. rewrite length_app. simpl.
  destruct (0 <=? Z.of_nat (length prev + 1) - 1) eqn:Hle;
    [|apply Z.leb_gt in Hle; lia].
  replace (Z.to_nat (Z.of_nat (length prev + 1) - 1)) with (length prev + 0)%nat by lia.
  rewrite alter_app_r. reflexivity.
Qed.

Lemma mark_last_failed_queries (prev : list ChatMessage) :
  map query (mark_last_failed prev) = map query prev /\
  map timestamp (mark_last_failed prev) = map timestamp prev.
Proof.
  destruct (decide (prev = [])) as [-> | Hne]; [split; reflexivity|].
  destruct (exists_last Hne) as (older & m & ->).
  rewrite mark_last_failed_snoc, !map_app. split; reflexivity.
Qed.

Lemma sendMessage_call_sends (iso : string) (w : World) :
  String.eqb (trim (message (st w))) "" = false ->
  sendMessage_call iso w
  = {| st := {| isOpen := isOpen (st w);
                chatHistory := chatHistory (st w)
                               ++ [{| timestamp := iso; query := message (st w);
                                      response := "" |}];
                message := ""; isLoading := true; panelWidth := panelWidth (st w);
                isResizing := isResizing (st w) |};
       jobId := jobId w;
       requests := chat_post (jobId w) (message (st w)) :: requests w;
       posts := S (posts w); gets := gets w |}.
Proof. intros Htrim. unfold sendMessage_call. rewrite Htrim. reflexivity. Qed.

Lemma sendMessage_call_blank (iso : string) (w : World) :
  String.eqb (trim (message (st w))) "" = true -> sendMessage_call iso w = w.
Proof. intros Htrim. unfold sendMessage_call. rewrite Htrim. reflexivity. Qed.

Lemma fire_one_question (e : Event) (w w' : World) :
  fire e w = Some w' -> one_question_at_a_time w -> one_question_at_a_time w'.
Proof.
  unfold one_question_at_a_time. intros Hfire [Hposts Hmsg].
  assert (Hsend : forall iso, isLoading (st w) = false ->
            posts (sendMessage_call iso w)
            = (if isLoading (st (sendMessage_call iso w)) then 1 else 0)%nat /\
            (isLoading (st (sendMessage_call iso w)) = true ->
             message (st (sendMessage_call iso w)) = "")).
  { intros iso Hl.
    destruct (String.eqb (trim (message (st w))) "") eqn:Htrim.
    - rewrite (sendMessage_call_blank _ _ Htrim). auto.
    - rewrite (sendMessage_call_sends _ _ Htrim). simpl.
      rewrite Hposts, Hl. auto. }
  destruct e; simpl in Hfire.
  - simplify_eq. unfold togglePanel. simpl.
    destruct (negb (isOpen (st w))); simpl; split; assumption.
  - destruct (isLoading (st w)) eqn:Hl; simplify_eq. simpl. rewrite Hl.
    split; [exact Hposts | discriminate].
  - destruct (isLoading (st w)) eqn:Hl; simpl in Hfire; [discriminate|].
    destruct (String.eqb (trim (message (st w))) ""); simplify_eq.
    apply Hsend. reflexivity.
  - destruct (isLoading (st w)) eqn:Hl; simplify_eq. unfold handleKeyDown.
    destruct (String.eqb key "Enter" && negb shiftKey); [apply Hsend; reflexivity|].
    rewrite Hl. split; [exact Hposts | discriminate].
  - destruct (posts w) as [|n] eqn:Hn; simplify_eq.
    destruct (isLoading (st w)); [|discriminate]. injection Hposts as ->.
    unfold sendMessage_settle.
    destruct o as [|[|] ? [|]]; simpl; (split; [reflexivity | discriminate]).
  - destruct (gets w); simplify_eq.
    unfold fetchChatHistory_settle.
    destruct o as [|[|] ? [[|]|]]; simpl; split; assumption.
  - destruct (isOpen (st w)); simplify_eq. simpl. split; assumption.
  - destruct (isResizing (st w)) eqn:Hr; simplify_eq. unfold handleMouseMove.
    rewrite Hr. simpl.
    destruct ((minWidth <=? innerWidth - clientX) && (innerWidth - clientX <=? maxWidth));
      simpl; split; assumption.
  - destruct (isResizing (st w)); simplify_eq. simpl. split; assumption.
Qed.

Lemma fire_requests_of_job (job : string) (e : Event) (w w' : World) :
  fire e w = Some w' -> requests_of_job job w -> requests_of_job job w'.
Proof.
  unfold requests_of_job. intros Hfire [Hjob Hreqs].
  assert (Hget : is_chat_request job {| method := GET; url := chat_url job; body := None |}
                 = true).
  { unfold is_chat_request. simpl. rewrite String.eqb_refl. reflexivity. }
  assert (Hsend : forall iso,
            jobId (sendMessage_call iso w) = job /\
            forallb (is_chat_request job) (requests (sendMessage_call iso w)) = true).
  { intros iso.
    destruct (String.eqb (trim (message (st w))) "") eqn:Htrim.
    - rewrite (sendMessage_call_blank _ _ Htrim). auto.
    - rewrite (sendMessage_call_sends _ _ Htrim). simpl. split; [exact Hjob|].
      rewrite Hreqs, andb_true_r. unfold is_chat_request. simpl.
      rewrite Hjob, String.eqb_refl. simpl.
      rewrite trim_empty_iff_blank in Htrim. rewrite Htrim. reflexivity. }
  destruct e; simpl in Hfire.
  - try discriminate; injection Hfire as <-. unfold togglePanel. simpl.
    destruct (negb (isOpen (st w))); simpl; [|auto].
    rewrite Hjob, Hget, Hreqs. auto.
  - destruct (isLoading (st w)); try discriminate; injection Hfire as <-. simpl. auto.
  - destruct (isLoading (st w) || String.eqb (trim (message (st w))) ""); try discriminate; injection Hfire as <-.
    apply Hsend.
  - destruct (isLoading (st w)); try discriminate; injection Hfire as <-. unfold handleKeyDown.
    destruct (String.eqb key "Enter" && negb shiftKey); [apply Hsend | auto].
  - destruct (posts w); try discriminate; injection Hfire as <-.
    unfold sendMessage_settle. destruct o as [|[|] ? [|]]; simpl; auto.
    rewrite Hjob, Hget, Hreqs. auto.
  - destruct (gets w); try discriminate; injection Hfire as <-.
    unfold fetchChatHistory_settle. destruct o as [|[|] ? [[|]|]]; simpl; auto.
  - destruct (isOpen (st w)); try discriminate; injection Hfire as <-. simpl. auto.
  - destruct (isResizing (st w)) eqn:Hr; try discriminate; injection Hfire as <-. unfold handleMouseMove.
    rewrite Hr. simpl.
    destruct ((minWidth <=? innerWidth - clientX) && (innerWidth - clientX <=? maxWidth));
      simpl; auto.
  - destruct (isResizing (st w)); try discriminate; injection Hfire as <-. simpl. auto.
Qed.

Lemma render_apology : renderMessageContent apology = Blocks [TextPart apology].
Proof. vm_compute. reflexivity. Qed.

Lemma shown_snoc (older : list ChatMessage) (m : ChatMessage) :
  (if (length (older ++ [m]) =? 0)%nat then None else Some (map show (older ++ [m])))
  = Some (map show older ++ [show m]).
Proof.
  rewrite length_app, map_app. simpl.
  destruct (length older + 1 =? 0)%nat eqn:Hz; [apply Nat.eqb_eq in Hz; lia | reflexivity].
Qed.

(** X14.  One question at a time: in every run of the panel at most one
    POST is in flight, exactly while [isLoading]; as long as it is, the
    panel shows the loading dots, the text area is empty and disabled and
    the send button is disabled, so that no second question can be sent. *)
Theorem one_post_in_flight_while_loading (job : string) (es : list Event) (w : World) :
  run es (mount job) = Some w ->
  (posts w <= 1)%nat /\
  (posts w = 1%nat <-> loadingDots (render (st w)) = true) /\
  (posts w = 1%nat ->
   textareaValue (render (st w)) = "" /\ textareaDisabled (render (st w)) = true /\
   sendDisabled (render (st w)) = true /\
   forall iso key shiftKey text,
     fire (ClickSend iso) w = None /\ fire (KeyDown key shiftKey iso) w = None /\
     fire (Input text) w = None).
Proof.
  intros Hrun.
  assert (H0 : one_question_at_a_time (mount job)) by (split; [reflexivity | discriminate]).
  destruct (run_invariant _ fire_one_question _ _ _ Hrun H0) as [Hposts Hmsg].
  simpl. destruct (isLoading (st w)) eqn:Hl; rewrite Hposts.
  - split; [lia|]. split; [tauto|]. intros _.
    rewrite (Hmsg eq_refl). repeat split; reflexivity.
  - split; [lia|]. split; [split; discriminate | discriminate].
Qed.

Lemma one_post_in_flight_while_loading_witness :
  run [ClickToggle; Input "Why scale by sqrt(d)?"; ClickSend "2024-05-01T10:02:00.000Z"]
      (mount "job-1")
  = Some (after [ClickToggle; Input "Why scale by sqrt(d)?";
                 ClickSend "2024-05-01T10:02:00.000Z"] (mount "job-1")) /\
  posts (after [ClickToggle; Input "Why scale by sqrt(d)?";
                ClickSend "2024-05-01T10:02:00.000Z"] (mount "job-1")) = 1%nat /\
  loadingDots (render (st (after [ClickToggle; Input "Why scale by sqrt(d)?";
                                  ClickSend "2024-05-01T10:02:00.000Z"] (mount "job-1"))))
  = true.
Proof.
  assert (Hrun : run [ClickToggle; Input "Why scale by sqrt(d)?";
                      ClickSend "2024-05-01T10:02:00.000Z"] (mount "job-1")
                 = Some (after [ClickToggle; Input "Why scale by sqrt(d)?";
                                ClickSend "2024-05-01T10:02:00.000Z"] (mount "job-1")))
    by (vm_compute; reflexivity).
  assert (Hposts : posts (after [ClickToggle; Input "Why scale by sqrt(d)?";
                                 ClickSend "2024-05-01T10:02:00.000Z"] (mount "job-1"))
                   = 1%nat)
    by (vm_compute; reflexivity).
  split; [exact Hrun|]. split; [exact Hposts|].
  destruct (one_post_in_flight_while_loading "job-1" _ _ Hrun) as (_ & Hdots & _).
  apply Hdots. exact Hposts.
Defined.

(** X15.  The panel talks to one endpoint only: in every run every request
    it has sent goes to [/api/jobs/{jobId}/chat] of its own job, a GET
    without a body or a POST whose body is an object with one field, a
    [message] that is not blank. *)
Theorem every_request_goes_to_the_chat_endpoint
    (job : string) (es : list Event) (w : World) :
  run es (mount job) = Some w ->
  jobId w = job /\
  forall r, In r (requests w) ->
    url r = chat_url job /\
    (method r = GET /\ body r = None \/
     method r = POST /\
     exists text, body r = Some (JObj [("message", JStr text)]) /\ blank text = false).
Proof.
  intros Hrun.
  assert (H0 : requests_of_job job (mount job)) by (split; reflexivity).
  destruct (run_invariant _ (fire_requests_of_job job) _ _ _ Hrun H0) as [Hjob Hreqs].
  split; [exact Hjob|]. intros r Hin.
  rewrite forallb_forall in Hreqs. specialize (Hreqs r Hin).
  unfold is_chat_request in Hreqs. apply andb_prop in Hreqs as [Hurl Hkind].
  apply String.eqb_eq in Hurl. split; [exact Hurl|].
  destruct (method r), (body r) as [b|]; try discriminate; [left; auto | right].
  destruct b as [| | | | | |[|[k [| | | |text| |]] [|]]]; try discriminate.
  apply andb_prop in Hkind as [Hk Hb]. apply String.eqb_eq in Hk. subst k.
  apply negb_true_iff in Hb. split; [reflexivity|]. exists text. auto.
Qed.

Lemma every_request_goes_to_the_chat_endpoint_witness :
  run [ClickToggle; Input "Why scale by sqrt(d)?"; ClickSend "2024-05-01T10:02:00.000Z"]
      (mount "job-1")
  = Some (after [ClickToggle; Input "Why scale by sqrt(d)?";
                 ClickSend "2024-05-01T10:02:00.000Z"] (mount "job-1")) /\
  url (chat_post "job-1" "Why scale by sqrt(d)?")
  = "http://localhost:8000/api/jobs/job-1/chat".
Proof.
  assert (Hrun : run [ClickToggle; Input "Why scale by sqrt(d)?";
                      ClickSend "2024-05-01T10:02:00.000Z"] (mount "job-1")
                 = Some (after [ClickToggle; Input "Why scale by sqrt(d)?";
                                ClickSend "2024-05-01T10:02:00.000Z"] (mount "job-1")))
    by (vm_compute; reflexivity).
  split; [exact Hrun|].
  destruct (every_request_goes_to_the_chat_endpoint "job-1" _ _ Hrun) as [_ Hall].
  destruct (Hall (chat_post "job-1" "Why scale by sqrt(d)?")) as [Hurl _];
    [vm_compute; left; reflexivity | exact Hurl].
Defined.

(** X16.  Closing and reopening the panel (or opening and closing it)
    restores every state cell and costs exactly one GET of the chat
    history: the one sent when the panel opens. *)
Theorem toggle_twice_costs_one_get (w : World) :
  st (togglePanel (togglePanel w)) = st w /\
  requests (togglePanel (togglePanel w))
  = {| method := GET; url := chat_url (jobId w); body := None |} :: requests w /\
  gets (togglePanel (togglePanel w)) = S (gets w) /\
  posts (togglePanel (togglePanel w)) = posts w /\
  (isOpen (st w) = false ->
   requests (togglePanel w)
   = {| method := GET; url := chat_url (jobId w); body := None |} :: requests w) /\
  (isOpen (st w) = true -> requests (togglePanel w) = requests w).
Proof.
  destruct w as [[o h m l pw r] job reqs p g]. unfold togglePanel. simpl.
  destruct o; simpl; repeat split; auto; discriminate.
Qed.

(** X17.  What the panel shows around a failed question.  Sending a text
    that is not blank from a panel that is not loading shows the history
    followed by the question with an empty answer, with the loading dots
    and an emptied, disabled input; when the POST then fails, the same
    entry shows the apology as one paragraph, the dots are gone, the text
    area is enabled again and still empty, and nothing was sent but the
    POST. *)
Theorem failed_question_on_screen
    (w : World) (iso : string) (o : FetchOutcome unit) :
  isLoading (st w) = false ->
  blank (message (st w)) = false ->
  post_failed o = true ->
  let pending := render (st (sendMessage_call iso w)) in
  exchanges pending
  = Some (map show (chatHistory (st w))
          ++ [{| asked := message (st w); answered := Paragraph "" |}]) /\
  loadingDots pending = true /\ textareaValue pending = "" /\
  textareaDisabled pending = true /\ sendDisabled pending = true /\
  exists w',
    run [ClickSend iso; PostSettled o] w = Some w' /\
    exchanges (render (st w'))
    = Some (map show (chatHistory (st w))
            ++ [{| asked := message (st w); answered := Blocks [TextPart apology] |}]) /\
    loadingDots (render (st w')) = false /\ textareaValue (render (st w')) = "" /\
    textareaDisabled (render (st w')) = false /\ sendDisabled (render (st w')) = true /\
    requests w' = chat_post (jobId w) (message (st w)) :: requests w /\
    posts w' = posts w /\ gets w' = gets w.
Proof.
  intros Hl Hblank Hfail pending. subst pending.
  assert (Htrim : String.eqb (trim (message (st w))) "" = false)
    by (rewrite trim_empty_iff_blank; exact Hblank).
  rewrite (sendMessage_call_sends _ _ Htrim).
  split.
  { simpl. rewrite shown_snoc. reflexivity. }
  split; [reflexivity|]. split; [reflexivity|]. split; [reflexivity|].
  split; [reflexivity|].
  eexists. split.
  { simpl. rewrite Hl, Htrim. simpl. rewrite (sendMessage_call_sends _ _ Htrim).
    simpl. reflexivity. }
  assert (Heq : forall x, sendMessage_settle o x
                          = setIsLoading false (setChatHistory mark_last_failed x)).
  { intros x. destruct o as [|[|] hs [[]|]]; simpl in Hfail; try discriminate; reflexivity. }
  rewrite Heq. simpl. rewrite mark_last_failed_snoc.
  split; [|auto 10].
  rewrite shown_snoc. unfold show at 2, with_apology. cbn [query response].
  rewrite render_apology. reflexivity.
Qed.

Lemma failed_question_on_screen_witness :
  isLoading (st sample_world) = false /\
  exchanges (render (st (sendMessage_call "2024-05-01T10:02:00.000Z" sample_world)))
  = Some (map show sample_log
          ++ [{| asked := "Why scale by sqrt(d)?"; answered := Paragraph "" |}]).
Proof.
  split; [reflexivity|].
  exact (proj1 (failed_question_on_screen sample_world "2024-05-01T10:02:00.000Z"
                  Rejected eq_refl eq_refl eq_refl)).
Defined.

(** X18.  A history that arrives while a question is pending replaces the
    pending entry: when the GET of the history settles between the send and
    the failure of the POST, the panel ends with the server's log, its last
    entry (not the question) carrying the apology, every logged query and
    timestamp as the server gave it, and the input empty. *)
Theorem history_arriving_before_failure_takes_the_apology
    (w : World) (iso : string) (log : list ChatMessage)
    (httpStatus : Z) (o : FetchOutcome unit) :
  isLoading (st w) = false ->
  blank (message (st w)) = false ->
  (0 < gets w)%nat ->
  post_failed o = true ->
  exists w',
    run [ClickSend iso; GetSettled (Responded true httpStatus (Some (Log (Some log))));
         PostSettled o] w = Some w' /\
    chatHistory (st w') = mark_last_failed log /\
    length (chatHistory (st w')) = length log /\
    map query (chatHistory (st w')) = map query log /\
    map timestamp (chatHistory (st w')) = map timestamp log /\
    last (chatHistory (st w')) = with_apology <$> last log /\
    message (st w') = "" /\ isLoading (st w') = false.
Proof.
  intros Hl Hblank Hgets Hfail.
  assert (Htrim : String.eqb (trim (message (st w))) "" = false)
    by (rewrite trim_empty_iff_blank; exact Hblank).
  destruct (gets w) as [|n] eqn:Hn; [lia|].
  assert (Heq : forall x, sendMessage_settle o x
                          = setIsLoading false (setChatHistory mark_last_failed x)).
  { intros x. destruct o as [|[|] hs [[]|]]; simpl in Hfail; try discriminate; reflexivity. }
  eexists. split.
  { simpl. rewrite Hl, Htrim. simpl. rewrite (sendMessage_call_sends _ _ Htrim).
    simpl. rewrite Hn. simpl. reflexivity. }
  rewrite Heq. simpl.
  destruct (mark_last_failed_spec log) as (Hlen & _ & Hlast).
  destruct (mark_last_failed_queries log) as [Hq Ht].
  auto 10.
Qed.

Lemma history_arriving_before_failure_takes_the_apology_witness :
  isLoading (st sample_opening) = false /\
  exists w',
    run [ClickSend "2024-05-01T10:02:00.000Z";
         GetSettled (Responded true 200 (Some (Log (Some sample_log))));
         PostSettled (Responded false 500 None)] sample_opening = Some w' /\
    map query (chatHistory (st w')) = ["What is attention?"; "And multi-head?"] /\
    map response (chatHistory (st w')) = ["A weighted sum of values."; apology].
Proof.
  split; [reflexivity|].
  destruct (history_arriving_before_failure_takes_the_apology sample_opening
              "2024-05-01T10:02:00.000Z" sample_log 200 (Responded false 500 None))
    as (w' & Hrun & Hh & _ & Hq & _); try reflexivity; [simpl; lia|].
  exists w'. split; [exact Hrun|]. split; [exact Hq|].
  rewrite Hh. reflexivity.
Defined.

End ChatExtras.

(** * More properties of the cards *)
Module CardExtras.
Import Cards ArchitectureView JSFacts CardFacts.

(** X19.  The model-file card shows the placeholder exactly when the code
    is blank; otherwise it lists the code as it is, white space included,
    and the download offers exactly that text under the name [model.py]. *)
Theorem model_file_card_lists_code_unchanged (code : string) :
  (ModelFile_render code = NoModelCode <-> blank code = true) /\
  (forall shown,
     ModelFile_render code = ModelCode shown ->
     shown = code /\ blank code = false /\ handleDownload shown = ("model.py", code)).
Proof.
  rewrite ModelFile_render_blank. destruct (blank code).
  - split; [tauto | discriminate].
  - split; [split; discriminate|]. intros shown Hs. injection Hs as <-. auto.
Qed.

Lemma map_from_length {A : Type} (f : jsval -> Z -> option A) (items : list jsval) :
  forall index ys, map_from f index items = Some ys -> length ys = length items.
Proof.
  induction items as [|c items IH]; intros index ys H; simpl in H.
  - injection H as <-. reflexivity.
  - destruct (f c index) as [y|]; [|discriminate]. simpl in H.
    destruct (map_from f (index + 1) items) as [ys'|] eqn:Hrest; [|discriminate].
    injection H as <-. simpl. f_equal. eauto.
Qed.

Lemma map_from_lookup {A : Type} (f : jsval -> Z -> option A) (items : list jsval) :
  forall index ys (k : nat) c,
    map_from f index items = Some ys -> items !! k = Some c ->
    exists y, ys !! k = Some y /\ f c (index + Z.of_nat k) = Some y.
Proof.
  induction items as [|c0 items IH]; intros index ys k c H Hk; [discriminate|].
  simpl in H. destruct (f c0 index) as [y0|] eqn:Hy0; [|discriminate]. simpl in H.
  destruct (map_from f (index + 1) items) as [ys'|] eqn:Hrest; [|discriminate].
  injection H as <-. destruct k as [|k]; simpl in Hk.
  - injection Hk as <-. exists y0. split; [reflexivity|].
    rewrite Z.add_0_r. exact Hy0.
  - destruct (IH _ _ _ _ Hrest Hk) as (y & Hy & Hf). exists y. split; [exact Hy|].
    replace (index + Z.of_nat (S k)) with (index + 1 + Z.of_nat k) by lia. exact Hf.
Qed.

Lemma map_from_defined {A : Type} (f : jsval -> Z -> option A) (items : list jsval) :
  (forall c index, In c items -> exists y, f c index = Some y) ->
  forall index, exists ys, map_from f index items = Some ys.
Proof.
  induction items as [|c items IH]; intros Hf index; simpl; [eauto|].
  destruct (Hf c index (or_introl eq_refl)) as [y ->]. simpl.
  destruct (IH (fun c' i Hin => Hf c' i (or_intror Hin)) (index + 1)) as [ys ->].
  simpl. eauto.
Qed.

Lemma map_from_throws {A : Type} (f : jsval -> Z -> option A) (items : list jsval) :
  forall index (k : nat) c,
    items !! k = Some c -> f c (index + Z.of_nat k) = None ->
    map_from f index items = None.
Proof.
  induction items as [|c0 items IH]; intros index k c Hk Hf; [discriminate|].
  simpl. destruct k as [|k]; simpl in Hk.
  - injection Hk as ->. rewrite Z.add_0_r in Hf. rewrite Hf. reflexivity.
  - destruct (f c0 index); [|reflexivity]. simpl.
    rewrite (IH (index + 1) k c Hk); [reflexivity|].
    replace (index + 1 + Z.of_nat k) with (index + Z.of_nat (S k)) by lia. exact Hf.
Qed.

Lemma tab_defined (active : Z) (c : jsval) (index : Z) :
  nullish c = false ->
  exists component_name,
    prop c "component_name" = Some component_name /\
    tab active c index
    = Some {| label := component_name; highlighted := active =? index |}.
Proof.
  intros Hc. unfold tab.
  destruct (prop c "component_name") as [n|] eqn:Hn;
    [|destruct c; simpl in *; discriminate].
  exists n. split; reflexivity.
Qed.

Lemma panel_defined (active : Z) (c : jsval) (index : Z) :
  nullish c = false ->
  exists component_name shown,
    prop c "component_name" = Some component_name /\
    panel active c index
    = Some {| visible := active =? index; name := component_name; children := shown |}.
Proof.
  intros Hc. unfold panel.
  destruct (prop c "component_name") as [n|] eqn:Hn;
    [|destruct c; simpl in *; discriminate].
  destruct (prop_defined _ _ "purpose" _ Hn) as [x1 ->].
  destruct (prop_defined _ _ "detailed_explanation" _ Hn) as [x2 ->].
  destruct (prop_defined _ _ "mathematical_formulation" _ Hn) as [x3 ->].
  destruct (prop_defined _ _ "dimension_analysis" _ Hn) as [x4 ->].
  destruct (prop_defined _ _ "design_rationale" _ Hn) as [x5 ->].
  destruct (prop_defined _ _ "subtle_details" _ Hn) as [x6 ->].
  simpl. eauto.
Qed.

Lemma map_from_none {A : Type} (f : jsval -> Z -> option A) (items : list jsval) :
  forall index, map_from f index items = None ->
    exists (k : nat) c, items !! k = Some c /\ f c (index + Z.of_nat k) = None.
Proof.
  induction items as [|c0 items IH]; intros index H; simpl in H; [discriminate|].
  destruct (f c0 index) as [y|] eqn:Hy.
  - simpl in H. destruct (map_from f (index + 1) items) as [ys|] eqn:Hrest; [discriminate|].
    destruct (IH _ Hrest) as (k & c & Hk & Hf). exists (S k), c. split; [exact Hk|].
    replace (index + Z.of_nat (S k)) with (index + 1 + Z.of_nat k) by lia. exact Hf.
  - exists 0%nat, c0. split; [reflexivity|]. rewrite Z.add_0_r. exact Hy.
Qed.

Lemma tab_throws (active : Z) (c : jsval) (index : Z) :
  tab active c index = None <-> nullish c = true.
Proof.
  destruct (nullish c) eqn:Hc.
  - split; [reflexivity|]. intros _. destruct c; try discriminate; reflexivity.
  - destruct (tab_defined active c index Hc) as (n & _ & ->). split; discriminate.
Qed.

Lemma panel_throws (active : Z) (c : jsval) (index : Z) :
  panel active c index = None <-> nullish c = true.
Proof.
  destruct (nullish c) eqn:Hc.
  - split; [reflexivity|]. intros _. destruct c; try discriminate; reflexivity.
  - destruct (panel_defined active c index Hc) as (n & shown & _ & ->). split; discriminate.
Qed.

(** Whether the buttons and the panels can be drawn does not depend on the
    selected component. *)
Lemma tabs_defined (a : Z) (items : list jsval) (ts : list Tab) :
  tabs a items = Some ts -> Forall (fun c => nullish c = false) items.
Proof.
  intros Hts. apply Forall_lookup_2. intros k c Hk.
  destruct (nullish c) eqn:Hc; [|reflexivity].
  unfold tabs in Hts. rewrite (map_from_throws _ _ 0 k c Hk) in Hts; [discriminate|].
  apply tab_throws. exact Hc.
Qed.

Lemma components_drawn (a : Z) (items : list jsval) :
  Forall (fun c => nullish c = false) items ->
  exists ts ps,
    tabs a items = Some ts /\ panels a items = Some ps /\
    length ts = length items /\ length ps = length items /\
    forall (k : nat) c,
      items !! k = Some c ->
      exists t p,
        ts !! k = Some t /\ ps !! k = Some p /\
        prop c "component_name" = Some (label t) /\ name p = label t /\
        highlighted t = (a =? Z.of_nat k) /\ visible p = (a =? Z.of_nat k).
Proof.
  intros Hitems. rewrite Forall_forall in Hitems.
  destruct (map_from_defined (tab a) items) with (index := 0) as [ts Hts].
  { intros c index Hin. destruct (tab_defined a c index) as (n & _ & ->);
      [apply Hitems, list_elem_of_In, Hin | eauto]. }
  destruct (map_from_defined (panel a) items) with (index := 0) as [ps Hps].
  { intros c index Hin. destruct (panel_defined a c index) as (n & shown & _ & ->);
      [apply Hitems, list_elem_of_In, Hin | eauto]. }
  exists ts, ps.
  split; [exact Hts|]. split; [exact Hps|].
  split; [exact (map_from_length _ _ _ _ Hts)|].
  split; [exact (map_from_length _ _ _ _ Hps)|].
  intros k c Hk.
  destruct (map_from_lookup _ _ _ _ _ _ Hts Hk) as (t & Ht & Hft).
  destruct (map_from_lookup _ _ _ _ _ _ Hps Hk) as (p & Hp & Hfp).
  assert (Hc : nullish c = false) by (apply Hitems; eapply list_elem_of_lookup_2; eauto).
  destruct (tab_defined a c (0 + Z.of_nat k) Hc) as (n & Hn & Htab).
  destruct (panel_defined a c (0 + Z.of_nat k) Hc) as (n' & shown & Hn' & Hpanel).
  rewrite Htab in Hft. rewrite Hpanel in Hfp.
  injection Hft as <-. injection Hfp as <-.
  exists {| label := n; highlighted := a =? 0 + Z.of_nat k |},
         {| visible := a =? 0 + Z.of_nat k; name := n'; children := shown |}.
  split; [exact Ht|]. split; [exact Hp|]. simpl.
  split; [exact Hn|]. split; [congruence|]. auto.
Qed.

Section Engine.

Variable positive_numeral : string -> bool.

(** A string that is not empty is no bullet list: its [length] is
    positive and it has no [map]. *)
Lemma listing_of_text (s : string) :
  s <> "" -> listing positive_numeral (JStr s) = None.
Proof.
  intros Hs. unfold listing. simpl.
  destruct (String.eqb_spec s ""); [contradiction|]. simpl.
  destruct s as [|c s]; [contradiction|]. reflexivity.
Qed.

(** What the card is made of when it shows its detail. *)
Lemma render_detail (data : jsval) (a : Z) (d : Detail) :
  ArchitectureDeepDive_render positive_numeral data a = ArchitectureDetail d <->
  exists items ov fl ci ic,
    prop data "detailed_breakdown" = Some (JArr items) /\ items <> [] /\
    prop data "overview" = Some ov /\ prop data "integration_flow" = Some fl /\
    prop data "critical_insights" = Some ci /\
    prop data "implementation_considerations" = Some ic /\
    tabs a items = Some (component_tabs d) /\
    panels a items = Some (component_panels d) /\
    listing positive_numeral ci = Some (critical_insights d) /\
    listing positive_numeral ic = Some (implementation_considerations d) /\
    overview d = guarded ov (Overview ov) /\
    integration_flow d = guarded fl (Box IntegrationFlow fl).
Proof.
  unfold ArchitectureDeepDive_render. split.
  - intros H.
    destruct (negb (truthy data)); [discriminate|].
    destruct (prop data "detailed_breakdown") as [b|] eqn:Hb; [|discriminate]. simpl in H.
    destruct (negb (truthy b)); [discriminate|].
    destruct (prop b "length") as [len|] eqn:Hlen; [|discriminate]. simpl in H.
    assert (Hrest :
      default ArchitectureError
        (overview ← prop data "overview";
         items ← array_items b;
         buttons ← tabs a items;
         details ← panels a items;
         flow ← prop data "integration_flow";
         insights ← prop data "critical_insights";
         insights ← listing positive_numeral insights;
         considerations ← prop data "implementation_considerations";
         considerations ← listing positive_numeral considerations;
         Some (ArchitectureDetail
                 {| overview := guarded overview (Overview overview);
                    component_tabs := buttons;
                    component_panels := details;
                    integration_flow := guarded flow (Box IntegrationFlow flow);
                    critical_insights := insights;
                    implementation_considerations := considerations |}))
      = ArchitectureDetail d /\ len <> JNum 0).
    { destruct len as [| | |[| |]| | |]; try discriminate; (split; [exact H | discriminate]). }
    clear H. destruct Hrest as [H Hnz].
    destruct (prop data "overview") as [ov|] eqn:Hov; [|discriminate]. simpl in H.
    destruct b as [| | | | |items|]; try discriminate. simpl in H.
    destruct (tabs a items) as [ts|] eqn:Hts; [|discriminate]. simpl in H.
    destruct (panels a items) as [ps|] eqn:Hps; [|discriminate]. simpl in H.
    destruct (prop data "integration_flow") as [fl|] eqn:Hfl; [|discriminate]. simpl in H.
    destruct (prop data "critical_insights") as [ci|] eqn:Hci; [|discriminate]. simpl in H.
    destruct (listing positive_numeral ci) as [lci|] eqn:Hlci; [|discriminate]. simpl in H.
    destruct (prop data "implementation_considerations") as [ic|] eqn:Hic; [|discriminate].
    simpl in H.
    destruct (listing positive_numeral ic) as [lic|] eqn:Hlic; [|discriminate]. simpl in H.
    injection H as <-. exists items, ov, fl, ci, ic. simpl.
    split; [reflexivity|]. split; [|auto 15].
    intros ->. simpl in Hlen. injection Hlen as <-. apply Hnz. reflexivity.
  - intros (items & ov & fl & ci & ic & Hb & Hne & Hov & Hfl & Hci & Hic
            & Hts & Hps & Hlci & Hlic & Hovd & Hfld).
    assert (Hdata : truthy data = true).
    { destruct data as [| | | |t|l|fields]; simpl in Hb; try discriminate;
        try reflexivity; destruct (String.eqb "detailed_breakdown" "length"); discriminate. }
    rewrite Hdata, Hb. simpl.
    destruct items as [|c items]; [congruence|].
    cbn [length Z.of_nat]. cbn [array_items].
    rewrite Hov. simpl. rewrite Hts. simpl. rewrite Hps. simpl.
    rewrite Hfl. simpl. rewrite Hci. simpl. rewrite Hlci. simpl.
    rewrite Hic. simpl. rewrite Hlic. simpl.
    destruct d. simpl in *. subst. reflexivity.
Qed.

Lemma click_in_range (data : jsval) (items : list jsval) (index : nat) (a a' : Z) :
  prop data "detailed_breakdown" = Some (JArr items) ->
  click positive_numeral data index a = Some a' ->
  a' = Z.of_nat index /\ (index < length items)%nat.
Proof.
  intros Hb H. unfold click in H.
  destruct (ArchitectureDeepDive_render positive_numeral data a) as [|d|] eqn:Hr;
    try discriminate.
  destruct (index <? length (component_tabs d))%nat eqn:Hi; [|discriminate].
  injection H as <-. split; [reflexivity|].
  apply Nat.ltb_lt in Hi.
  apply render_detail in Hr as (items' & ov & fl & ci & ic & Hb' & _ & _ & _ & _ & _
                                & Hts & _).
  assert (items' = items) by congruence. subst items'.
  rewrite (map_from_length _ _ _ _ Hts) in Hi. exact Hi.
Qed.

Lemma clicks_in_range (data : jsval) (items : list jsval) (indices : list nat) :
  prop data "detailed_breakdown" = Some (JArr items) ->
  forall a a', clicks positive_numeral data indices a = Some a' ->
    0 <= a < Z.of_nat (length items) ->
    0 <= a' < Z.of_nat (length items) /\
    a' = match last indices with Some i => Z.of_nat i | None => a end.
Proof.
  intros Hb. induction indices as [|i indices IH]; intros a a' H Ha; simpl in H.
  - injection H as <-. split; [exact Ha | reflexivity].
  - destruct (click positive_numeral data i a) as [a1|] eqn:Hc; [|discriminate].
    simpl in H. destruct (click_in_range _ _ _ _ _ Hb Hc) as [-> Hi].
    destruct (IH _ _ H) as [Hr Hl]; [lia|]. split; [exact Hr|].
    rewrite Hl, last_cons. destruct (last indices); reflexivity.
Qed.

(** X20.  One component at a time: when the card shows its detail (none of
    its [map] calls throws), then after any clicks on its buttons it still
    shows its detail, with one button and one panel per component of the
    breakdown, in their order and under their names; exactly one button is
    highlighted and exactly one panel visible: those of the component
    clicked last, or of the first one before any click; the overview, the
    integration flow and the bullet lists are as they were. *)
Theorem one_component_visible_at_a_time
    (data : jsval) (d0 : Detail) (indices : list nat) (active : Z) :
  ArchitectureDeepDive_render positive_numeral data 0 = ArchitectureDetail d0 ->
  clicks positive_numeral data indices 0 = Some active ->
  exists (d : Detail) (items : list jsval) (i : nat),
    ArchitectureDeepDive_render positive_numeral data active = ArchitectureDetail d /\
    prop data "detailed_breakdown" = Some (JArr items) /\
    length (component_tabs d) = length items /\
    length (component_panels d) = length items /\
    active = Z.of_nat i /\ (i < length items)%nat /\
    i = default 0%nat (last indices) /\
    (forall (k : nat) c,
       items !! k = Some c ->
       exists t p,
         component_tabs d !! k = Some t /\ component_panels d !! k = Some p /\
         prop c "component_name" = Some (label t) /\ name p = label t /\
         highlighted t = (k =? i)%nat /\ visible p = (k =? i)%nat) /\
    overview d = overview d0 /\ integration_flow d = integration_flow d0 /\
    critical_insights d = critical_insights d0 /\
    implementation_considerations d = implementation_considerations d0.
Proof.
  intros Hrender Hclicks.
  apply render_detail in Hrender
    as (items & ov & fl & ci & ic & Hb & Hne & Hov & Hfl & Hci & Hic
        & Hts0 & Hps0 & Hlci & Hlic & Hovd & Hfld).
  assert (Hlen : 0 <= 0 < Z.of_nat (length items))
    by (destruct items; [congruence | simpl; lia]).
  destruct (clicks_in_range _ _ _ Hb _ _ Hclicks Hlen) as [Hrange Hlast].
  pose proof (tabs_defined _ _ _ Hts0) as Hitems.
  destruct (components_drawn active items Hitems)
    as (ts & ps & Hts & Hps & Hlts & Hlps & Hall).
  exists {| overview := overview d0; component_tabs := ts; component_panels := ps;
            integration_flow := integration_flow d0;
            critical_insights := critical_insights d0;
            implementation_considerations := implementation_considerations d0 |},
         items, (Z.to_nat active).
  split.
  { apply render_detail. exists items, ov, fl, ci, ic. simpl. auto 15. }
  simpl. split; [exact Hb|]. split; [exact Hlts|]. split; [exact Hlps|].
  split; [lia|]. split; [lia|]. split.
  { rewrite Hlast. destruct (last indices); simpl; lia. }
  split; [|auto].
  intros k c Hk. destruct (Hall k c Hk) as (t & p & Ht & Hp & Hn & Hnp & Hh & Hv).
  exists t, p.
  assert (Heq : (active =? Z.of_nat k) = (k =? Z.to_nat active)%nat).
  { destruct (Z.eqb_spec active (Z.of_nat k)), (Nat.eqb_spec k (Z.to_nat active));
      try reflexivity; lia. }
  rewrite <- Heq. auto 10.
Qed.

(** X24.  The bullet lists must be arrays: when [critical_insights] or
    [implementation_considerations] is such that its bullet list cannot be
    drawn, as is any string that is not empty ([map] is not a function),
    the card never shows its detail, whatever component is selected: it
    shows the placeholder (when the breakdown is missing or empty) or throws
    while rendering. *)
Theorem bullet_lists_must_be_arrays (data : jsval) (active : Z) (x : jsval) :
  prop data "critical_insights" = Some x \/
  prop data "implementation_considerations" = Some x ->
  listing positive_numeral x = None ->
  (forall d, ArchitectureDeepDive_render positive_numeral data active
             <> ArchitectureDetail d) /\
  (forall items, prop data "detailed_breakdown" = Some (JArr items) -> items <> [] ->
     ArchitectureDeepDive_render positive_numeral data active = ArchitectureError) /\
  (forall s, s <> "" -> listing positive_numeral (JStr s) = None).
Proof.
  intros Hx Hnone.
  assert (Hnever : forall d, ArchitectureDeepDive_render positive_numeral data active
                             <> ArchitectureDetail d).
  { intros d Hr.
    apply render_detail in Hr as (items & ov & fl & ci & ic & _ & _ & _ & _ & Hci & Hic
                                  & _ & _ & Hlci & Hlic & _).
    destruct Hx as [Hx | Hx]; congruence. }
  split; [exact Hnever|]. split; [|exact listing_of_text].
  intros items Hb Hne.
  destruct (ArchitectureDeepDive_render positive_numeral data active) as [|d|] eqn:Hr;
    [|destruct (Hnever d eq_refl)|reflexivity].
  exfalso. unfold ArchitectureDeepDive_render in Hr.
  destruct (negb (truthy data)) eqn:Hd.
  - destruct data; simpl in Hd, Hb; try discriminate.
  - rewrite Hb in Hr. simpl in Hr. destruct items as [|c items]; [congruence|].
    change (Z.of_nat (S (length items)))
      with (Z.pos (Pos.of_succ_nat (length items))) in Hr.
    cbv iota in Hr.
    repeat match type of Hr with
           | context [?o ≫= _] => destruct o; simpl in Hr; try discriminate
           end.
Qed.

End Engine.

Lemma one_component_visible_at_a_time_witness :
  exists d : Detail,
    ArchitectureDeepDive_render (fun _ => false) sample_architecture 1 = ArchitectureDetail d /\
    map highlighted (component_tabs d) = [false; true] /\
    map visible (component_panels d) = [false; true] /\
    critical_insights d = Bullets [JStr "Attention replaces recurrence."].
Proof.
  assert (H0 : exists d0, ArchitectureDeepDive_render (fun _ => false) sample_architecture 0
                          = ArchitectureDetail d0)
    by (eexists; vm_compute; reflexivity).
  destruct H0 as [d0 H0].
  destruct (one_component_visible_at_a_time (fun _ => false) sample_architecture d0
              [0%nat; 1%nat] 1 H0 eq_refl)
    as (d & items & i & Hd & _).
  exists d. split; [exact Hd|].
  vm_compute in Hd. injection Hd as <-. repeat split; reflexivity.
Defined.

Lemma bullet_lists_must_be_arrays_witness :
  prop sample_architecture_text "critical_insights"
  = Some (JStr "Attention replaces recurrence.") /\
  ArchitectureDeepDive_render (fun _ => true) sample_architecture_text 0 = ArchitectureError.
Proof.
  split; [reflexivity|].
  destruct (bullet_lists_must_be_arrays (fun _ => true) sample_architecture_text 0
              (JStr "Attention replaces recurrence.") (or_introl eq_refl) eq_refl)
    as (_ & Hthrows & _).
  apply (Hthrows sample_breakdown); [reflexivity | discriminate].
Defined.

(** X21.  The card throws while rendering exactly when an entry of the
    breakdown is [null] or [undefined]: reading its [component_name] is a
    [TypeError], whatever the selected component is. *)
Theorem null_component_breaks_the_card (active : Z) (items : list jsval) :
  (tabs active items = None <->
   exists (k : nat) c, items !! k = Some c /\ nullish c = true) /\
  (panels active items = None <-> tabs active items = None).
Proof.
  assert (Htabs : tabs active items = None <->
                  exists (k : nat) c, items !! k = Some c /\ nullish c = true).
  { split.
    - intros H. destruct (map_from_none _ _ _ H) as (k & c & Hk & Hf).
      exists k, c. split; [exact Hk | apply tab_throws in Hf; exact Hf].
    - intros (k & c & Hk & Hc). apply (map_from_throws _ _ 0 k c Hk).
      apply tab_throws. exact Hc. }
  split; [exact Htabs|]. rewrite Htabs. split.
  - intros H. destruct (map_from_none _ _ _ H) as (k & c & Hk & Hf).
    exists k, c. split; [exact Hk | apply panel_throws in Hf; exact Hf].
  - intros (k & c & Hk & Hc). apply (map_from_throws _ _ 0 k c Hk).
    apply panel_throws. exact Hc.
Qed.

End CardExtras.

(** * Properties of the earlier results page *)
Module LegacyFacts.
Import LegacyPage JSFacts PageFacts PageTerms PageExtras.

Lemma render_agrees (s : State) (v : ResultsPage.ViewState) :
  loading s = false -> ResultsPage.data v = data s ->
  as_rendered (render s)
  = Some (default ResultsPage.RenderError (ResultsPage.render_loaded v)).
Proof.
  intros Hl Hd. unfold render, ResultsPage.render_loaded. rewrite Hl, Hd.
  destruct (negb (truthy (data s))); [reflexivity|].
  destruct (prop (data s) "result") as [result|]; [|reflexivity]. simpl.
  destruct (negb (truthy result)); [reflexivity|].
  repeat match goal with
         | |- context [prop ?a ?k] => destruct (prop a k); simpl; [|reflexivity]
         end.
  reflexivity.
Qed.

Lemma settle_state (o : FetchOutcome jsval) (w : World) :
  st (fetchData_settle o w)
  = {| loading := false; data := default (data (st w)) (parsed o) |} /\
  requests (fetchData_settle o w) = requests w /\
  inflight (fetchData_settle o w) = inflight w /\
  jobId (fetchData_settle o w) = jobId w.
Proof. destruct o as [|ok hs [d|]]; simpl; auto. Qed.

(** X22.  The earlier page asks once and believes what it gets: whatever
    the outcome of its only request, the loading ends; a body that could be
    read is stored whatever the HTTP status and the [status] of the record
    say; the page then shows what the polling page shows for the same
    stored data, which is "not found" when there is no result. *)
Theorem legacy_page_asks_once (job : string) (o : FetchOutcome jsval) :
  let w := fetchData_settle o (mount job) in
  requests w
  = [{| method := GET; url := "http://localhost:8000/api/status/" +:+ job; body := None |}] /\
  loading (st w) = false /\
  data (st w) = default JNull (parsed o) /\
  render (st w) <> Skeleton /\
  (forall v, ResultsPage.data v = data (st w) ->
     as_rendered (render (st w))
     = Some (default ResultsPage.RenderError (ResultsPage.render_loaded v))) /\
  (ResultsPage.has_result (default JNull (parsed o)) = false -> render (st w) = NotFound).
Proof.
  intros w. subst w.
  destruct (settle_state o (mount job)) as (Hst & Hreq & _).
  rewrite Hreq, Hst. simpl.
  split; [reflexivity|]. split; [reflexivity|]. split; [reflexivity|].
  assert (Hagree : forall v, ResultsPage.data v = default JNull (parsed o) ->
            as_rendered (render {| loading := false; data := default JNull (parsed o) |})
            = Some (default ResultsPage.RenderError (ResultsPage.render_loaded v))).
  { intros v Hv. apply render_agrees; [reflexivity | exact Hv]. }
  split.
  { intros Hs.
    pose proof (Hagree {| ResultsPage.loading := false;
                          ResultsPage.data := default JNull (parsed o);
                          ResultsPage.error := None; ResultsPage.progress := 0;
                          ResultsPage.statusMessage := "" |} eq_refl) as H.
    rewrite Hs in H. discriminate. }
  split; [exact Hagree|].
  intros Hno.
  set (v0 := {| ResultsPage.loading := false; ResultsPage.data := default JNull (parsed o);
                ResultsPage.error := None; ResultsPage.progress := 0;
                ResultsPage.statusMessage := "" |}).
  pose proof (Hagree v0 eq_refl) as H.
  rewrite (render_loaded_no_result v0 Hno) in H. simpl in H.
  destruct (render _); simpl in H; try discriminate. reflexivity.
Qed.



End LegacyFacts.
